(** * Dementia: the degradation curve, the shader feedback loop and the sound engine

    A shallow embedding of
    - [sound-system.js]: class [DementiaSound];
    - the shader calendar (class [ShaderCalendar] with its GLSL programs);
    - the page script that drives both ([displayImage] and the choice of
      the day).

    JavaScript numbers are IEEE-754 binary64 values and are modelled by
    Rocq's primitive [float]: literals, [+ - * /] and comparisons are the
    correctly rounded operations the engine performs.  GLSL ES arithmetic has
    an implementation-defined precision; the fragment shaders are therefore
    modelled over the real numbers. *)

From Stdlib Require Import ZArith List Bool Lia.
From Stdlib Require Import Floats.
From Stdlib Require Import Reals Lra.
From Stdlib Require QArith Qround.
From stdpp Require Import gmap strings.
Import ListNotations.

Set Warnings "-inexact-float,-register-all".

(* ===================================================================== *)
(** * Part I: the program                                                  *)
(* ===================================================================== *)

(** ** JavaScript numbers *)

Module JSNumber.
Local Open Scope float_scope.

(** [Math.pow(x, 2)].  ECMAScript leaves [Math.pow] an approximation of
    the implementation's choice; it is taken here as the correctly rounded
    square, which every implementation returns at the two ends of the
    curve ([Math.pow(1, 2) = 1], [Math.pow(0, 2) = 0]). *)
Definition Math_pow_2 (x : float) : float := x * x.

(** The number an integer denotes (a day index, an array length); exact
    below [2^53]. *)
Definition of_int (d : Z) : float :=
  if (d <? 0)%Z then - of_uint63 (Uint63.of_Z (- d)) else of_uint63 (Uint63.of_Z d).

Definition of_nat (n : nat) : float := of_int (Z.of_nat n).

(** [Math.PI]. *)
Definition Math_PI : float := 3.141592653589793.

Definition is_neg_zero (x : float) : bool :=
  match classify x with NZero => true | _ => false end.

(** [Math.max(a, b)] and [Math.min(a, b)] on two numbers: [NaN] is
    contagious and [-0] is smaller than [+0]. *)
Definition Math_max (a b : float) : float :=
  if is_nan a || is_nan b then nan
  else if a <? b then b
  else if b <? a then a
  else if is_neg_zero a then b else a.

Definition Math_min (a b : float) : float :=
  if is_nan a || is_nan b then nan
  else if a <? b then a
  else if b <? a then b
  else if is_neg_zero a then a else b.
End JSNumber.

(** ** The Web Audio objects the sound engine drives *)

(** Only what the engine reads or writes is kept: the value slot and the
    automation timeline of each parameter, the start and stop times of the
    sources.  The value slot holds the number the engine assigned; the
    rounding to single precision inside the audio implementation, the
    rendering of the timeline and the routing made by [connect] are the
    platform's and are not modelled.

    The setters are modelled where the platform accepts their arguments: a
    value that is finite and within single-precision range, a time that is
    finite and not negative.  Outside of that the platform raises a
    [TypeError] or a [RangeError] instead of storing; the engine hands such
    arguments over only for a day outside 1 to 31, a volume that is not a
    number or a clock that is not finite, and the statements about calls
    exclude these by hypothesis ([valid_day], [valid]). *)

Module AudioParam.
Inductive Event :=
| SetValueAtTime (v t : float)
| LinearRampToValueAtTime (v t : float).

Record t := { value : float; events : list Event }.

Definition make (v : float) : t := {| value := v; events := [] |}.

(** [param.value = v] *)
Definition set_value (v : float) (p : t) : t :=
  {| value := v; events := events p |}.

(** [param.linearRampToValueAtTime(v, time)] *)
Definition linearRampToValueAtTime (v time : float) (p : t) : t :=
  {| value := value p; events := events p ++ [LinearRampToValueAtTime v time] |}.

(** [param.setValueAtTime(v, time)] *)
Definition setValueAtTime (v time : float) (p : t) : t :=
  {| value := value p; events := events p ++ [SetValueAtTime v time] |}.
End AudioParam.

Module AudioContext.
Inductive State := suspended | running.
Record t := { state : State; currentTime : float; sampleRate : float }.

(** [await ctx.resume()] *)
Definition resume (c : t) : t :=
  {| state := running; currentTime := currentTime c; sampleRate := sampleRate c |}.

Definition at_time (time : float) (c : t) : t :=
  {| state := state c; currentTime := time; sampleRate := sampleRate c |}.
End AudioContext.

Module Oscillator.
Record t := {
  type : string;
  frequency : AudioParam.t;
  detune : AudioParam.t;
  startTime : option float;
  stopTime : option float
}.

(** [ctx.createOscillator()] *)
Definition create : t :=
  {| type := "sine"; frequency := AudioParam.make 440; detune := AudioParam.make 0;
     startTime := None; stopTime := None |}.

Definition with_type (ty : string) (o : t) : t :=
  {| type := ty; frequency := frequency o; detune := detune o;
     startTime := startTime o; stopTime := stopTime o |}.
Definition update_frequency (u : AudioParam.t -> AudioParam.t) (o : t) : t :=
  {| type := type o; frequency := u (frequency o); detune := detune o;
     startTime := startTime o; stopTime := stopTime o |}.
Definition update_detune (u : AudioParam.t -> AudioParam.t) (o : t) : t :=
  {| type := type o; frequency := frequency o; detune := u (detune o);
     startTime := startTime o; stopTime := stopTime o |}.
(** [osc.start(time)], [osc.stop(time)] *)
Definition start (time : float) (o : t) : t :=
  {| type := type o; frequency := frequency o; detune := detune o;
     startTime := Some time; stopTime := stopTime o |}.
Definition stop (time : float) (o : t) : t :=
  {| type := type o; frequency := frequency o; detune := detune o;
     startTime := startTime o; stopTime := Some time |}.
End Oscillator.

Module Gain.
Record t := { gain : AudioParam.t }.
(** [ctx.createGain()] *)
Definition create : t := {| gain := AudioParam.make 1 |}.
Definition update (f : AudioParam.t -> AudioParam.t) (g : t) : t :=
  {| gain := f (gain g) |}.
End Gain.

Module BiquadFilter.
Record t := { type : string; frequency : AudioParam.t; Q : AudioParam.t }.
(** [ctx.createBiquadFilter()] *)
Definition create : t :=
  {| type := "lowpass"; frequency := AudioParam.make 350; Q := AudioParam.make 1 |}.
Definition with_type (ty : string) (f : t) : t :=
  {| type := ty; frequency := frequency f; Q := Q f |}.
Definition update_frequency (u : AudioParam.t -> AudioParam.t) (f : t) : t :=
  {| type := type f; frequency := u (frequency f); Q := Q f |}.
Definition update_Q (u : AudioParam.t -> AudioParam.t) (f : t) : t :=
  {| type := type f; frequency := frequency f; Q := u (Q f) |}.
End BiquadFilter.

Module Convolver.
(** The impulse response: its shape only.  The samples
    [(Math.random() * 2 - 1) * Math.pow(1 - i / length, 2)] are audio data
    that no parameter of the engine depends on. *)
Record Buffer := { numberOfChannels : nat; length : float; sampleRate : float }.
Record t := { buffer : option Buffer }.
(** [ctx.createConvolver()] *)
Definition create : t := {| buffer := None |}.
End Convolver.

(** ** The degradation curve *)

Module Curve.
Import JSNumber.
Local Open Scope float_scope.

(** The object returned by [ShaderCalendar.getParams]. *)
Record VisualParams := {
  image_blur : float;
  uv_scale : float;
  depth_scale : float;
  rgb_scale : float;
  rgb_mix : float;
  src_weight : float;
  hard_level : float;
  hard_contrast : float;
  mask_level : float;
  mask_contrast : float;
  mask_weight : float;
  hard_weight : float;
  soft_weight : float;
  time_scale : float;
  map_blur : float
}.

(** The object returned by [DementiaSound.getSoundParams]. *)
Record SoundParams := {
  filterFrequency : float;
  filterQ : float;
  detuneAmount : float;
  detuneSpeed : float;
  reverbMix : float;
  reverbDecay : float;
  dryGain : float;
  melodyGain : float;
  vibratoDepth : float;
  vibratoSpeed : float;
  playbackRate : float
}.

Definition getParams (day : float) : VisualParams :=
  let t := (day - 1) / 30 in
  let easeIn := t * t * t in
  let easeOut := 1 - Math_pow_2 (1 - t) in
  let easeMix := t * t * (3 - 2 * t) in
  {| image_blur := 0.1 + easeIn * 31.9;
     uv_scale := 0.5 + easeMix * 3.5;
     depth_scale := 0.2 + easeIn * 3.8;
     rgb_scale := 0.3 + easeMix * 2.2;
     rgb_mix := 0.1 + easeOut * 0.85;
     src_weight := 6.0 - easeOut * 3.5;
     hard_level := 0.2 + easeMix * 2.5;
     hard_contrast := 0.98 - easeOut * 0.45;
     mask_level := 1.0 + easeOut * 2.0;
     mask_contrast := 0.9 - easeOut * 0.35;
     mask_weight := 0.8 - easeOut * 0.5;
     hard_weight := 0.5 + easeIn * 7.5;
     soft_weight := 0.3 + easeIn * 7.2;
     time_scale := 0.005 + easeOut * 0.095;
     map_blur := 2.0 + easeMix * 20.0 |}.

Definition getSoundParams (day : float) : SoundParams :=
  let t := (day - 1) / 30 in
  let easeIn := t * t * t in
  let easeOut := 1 - Math_pow_2 (1 - t) in
  let easeMix := t * t * (3 - 2 * t) in
  {| filterFrequency := 12000 - easeOut * 8000;
     filterQ := 0.7;
     detuneAmount := 0 + easeMix * 5;
     detuneSpeed := 0.05 + easeOut * 0.15;
     reverbMix := 0.1 + easeIn * 0.65;
     reverbDecay := 0.5 + easeIn * 2.5;
     dryGain := 1.0 - easeOut * 0.5;
     melodyGain := 0.3 - easeOut * 0.1;
     vibratoDepth := 0.3 + easeMix * 0.7;
     vibratoSpeed := 1.5 + easeOut * 1.0;
     playbackRate := 1.0 - easeIn * 0.2 |}.

(** Every field of the two parameter objects, by name. *)
Definition visual_fields : list (string * (VisualParams -> float)) :=
  [ ("image_blur"%string, image_blur); ("uv_scale"%string, uv_scale);
    ("depth_scale"%string, depth_scale); ("rgb_scale"%string, rgb_scale);
    ("rgb_mix"%string, rgb_mix); ("src_weight"%string, src_weight);
    ("hard_level"%string, hard_level); ("hard_contrast"%string, hard_contrast);
    ("mask_level"%string, mask_level); ("mask_contrast"%string, mask_contrast);
    ("mask_weight"%string, mask_weight); ("hard_weight"%string, hard_weight);
    ("soft_weight"%string, soft_weight); ("time_scale"%string, time_scale);
    ("map_blur"%string, map_blur) ].

Definition sound_fields : list (string * (SoundParams -> float)) :=
  [ ("filterFrequency"%string, filterFrequency); ("filterQ"%string, filterQ);
    ("detuneAmount"%string, detuneAmount); ("detuneSpeed"%string, detuneSpeed);
    ("reverbMix"%string, reverbMix); ("reverbDecay"%string, reverbDecay);
    ("dryGain"%string, dryGain); ("melodyGain"%string, melodyGain);
    ("vibratoDepth"%string, vibratoDepth); ("vibratoSpeed"%string, vibratoSpeed);
    ("playbackRate"%string, playbackRate) ].

(** The endpoints the source documents next to each formula
    ([// 0.1 -> 32], [// 12000Hz -> 4000Hz], ...): field, value at day 1,
    value at day 31.  [filterQ], [detuneSpeed], [melodyGain] and
    [vibratoDepth] carry no documented endpoints. *)
Record Endpoint (P : Type) := {
  ep_name : string;
  ep_field : P -> float;
  ep_day1 : float;
  ep_day31 : float
}.
Arguments ep_name {P}.
Arguments ep_field {P}.
Arguments ep_day1 {P}.
Arguments ep_day31 {P}.

Definition documented_visual : list (Endpoint VisualParams) :=
  [ {| ep_name := "image_blur"; ep_field := image_blur; ep_day1 := 0.1; ep_day31 := 32 |};
    {| ep_name := "uv_scale"; ep_field := uv_scale; ep_day1 := 0.5; ep_day31 := 4.0 |};
    {| ep_name := "depth_scale"; ep_field := depth_scale; ep_day1 := 0.2; ep_day31 := 4.0 |};
    {| ep_name := "rgb_scale"; ep_field := rgb_scale; ep_day1 := 0.3; ep_day31 := 2.5 |};
    {| ep_name := "rgb_mix"; ep_field := rgb_mix; ep_day1 := 0.1; ep_day31 := 0.95 |};
    {| ep_name := "src_weight"; ep_field := src_weight; ep_day1 := 6.0; ep_day31 := 2.5 |};
    {| ep_name := "hard_level"; ep_field := hard_level; ep_day1 := 0.2; ep_day31 := 2.7 |};
    {| ep_name := "hard_contrast"; ep_field := hard_contrast; ep_day1 := 0.98; ep_day31 := 0.53 |};
    {| ep_name := "mask_level"; ep_field := mask_level; ep_day1 := 1.0; ep_day31 := 3.0 |};
    {| ep_name := "mask_contrast"; ep_field := mask_contrast; ep_day1 := 0.9; ep_day31 := 0.55 |};
    {| ep_name := "mask_weight"; ep_field := mask_weight; ep_day1 := 0.8; ep_day31 := 0.3 |};
    {| ep_name := "hard_weight"; ep_field := hard_weight; ep_day1 := 0.5; ep_day31 := 8.0 |};
    {| ep_name := "soft_weight"; ep_field := soft_weight; ep_day1 := 0.3; ep_day31 := 7.5 |};
    {| ep_name := "time_scale"; ep_field := time_scale; ep_day1 := 0.005; ep_day31 := 0.1 |};
    {| ep_name := "map_blur"; ep_field := map_blur; ep_day1 := 2.0; ep_day31 := 22.0 |} ].

Definition documented_sound : list (Endpoint SoundParams) :=
  [ {| ep_name := "filterFrequency"; ep_field := filterFrequency; ep_day1 := 12000; ep_day31 := 4000 |};
    {| ep_name := "detuneAmount"; ep_field := detuneAmount; ep_day1 := 0; ep_day31 := 5 |};
    {| ep_name := "reverbMix"; ep_field := reverbMix; ep_day1 := 0.10; ep_day31 := 0.75 |};
    {| ep_name := "reverbDecay"; ep_field := reverbDecay; ep_day1 := 0.5; ep_day31 := 3 |};
    {| ep_name := "dryGain"; ep_field := dryGain; ep_day1 := 1.0; ep_day31 := 0.5 |};
    {| ep_name := "vibratoSpeed"; ep_field := vibratoSpeed; ep_day1 := 1.5; ep_day31 := 2.5 |};
    {| ep_name := "playbackRate"; ep_field := playbackRate; ep_day1 := 1.0; ep_day31 := 0.8 |} ].

(** The curve [curve] hits the documented endpoints of [e] exactly. *)
Definition hits_endpoints {P} (curve : float -> P) (e : Endpoint P) : Prop :=
  ep_field e (curve 1) = ep_day1 e /\ ep_field e (curve 31) = ep_day31 e.

Definition is_named {P} (n : string) (e : Endpoint P) : bool :=
  String.eqb (ep_name e) n.

(** One parameter between two days: non-decreasing when its day-31
    endpoint exceeds its day-1 endpoint, non-increasing otherwise. *)
Definition monotone_between (f : float -> float) (d1 d2 : Z) : bool :=
  if f 1 <? f 31 then f (of_int d1) <=? f (of_int d2)
  else f (of_int d2) <=? f (of_int d1).

Definition days : list Z := map Z.of_nat (seq 1 31).

Definition monotone_on_days {P} (curve : float -> P)
    (fields : list (string * (P -> float))) : bool :=
  forallb (fun d1 =>
    forallb (fun d2 =>
      if (d1 <=? d2)%Z
      then forallb (fun nf => monotone_between (fun d => snd nf (curve d)) d1 d2) fields
      else true) days) days.
End Curve.

(** ** The fragment shaders *)

(** GLSL vectors and built-in functions over the reals.  A [sampler2D] is
    read through [texture2D(tex, uv)] only and is the function
    [uv |-> texture2D(tex, uv)]. *)

Module vec2.
Local Open Scope R_scope.
Record t := mk { x : R; y : R }.
Definition map (f : R -> R) (v : t) : t := mk (f (x v)) (f (y v)).
Definition map2 (f : R -> R -> R) (u v : t) : t := mk (f (x u) (x v)) (f (y u) (y v)).
Definition add : t -> t -> t := map2 Rplus.
Definition sub : t -> t -> t := map2 Rminus.
Definition mul : t -> t -> t := map2 Rmult.
Definition div : t -> t -> t := map2 Rdiv.
Definition scale (v : t) (s : R) : t := map (fun a => a * s) v.
Definition floor : t -> t := map (fun a => IZR (Zfloor a)).
End vec2.

Module vec3.
Local Open Scope R_scope.
Record t := mk { x : R; y : R; z : R }.
Definition map (f : R -> R) (v : t) : t := mk (f (x v)) (f (y v)) (f (z v)).
Definition map2 (f : R -> R -> R) (u v : t) : t :=
  mk (f (x u) (x v)) (f (y u) (y v)) (f (z u) (z v)).
Definition add : t -> t -> t := map2 Rplus.
Definition sub : t -> t -> t := map2 Rminus.
Definition mul : t -> t -> t := map2 Rmult.
Definition scale (v : t) (s : R) : t := map (fun a => a * s) v.
Definition dot (u v : t) : R := x u * x v + y u * y v + z u * z v.
End vec3.

Module vec4.
Local Open Scope R_scope.
Record t := mk { x : R; y : R; z : R; w : R }.
Definition map (f : R -> R) (v : t) : t := mk (f (x v)) (f (y v)) (f (z v)) (f (w v)).
Definition map2 (f : R -> R -> R) (u v : t) : t :=
  mk (f (x u) (x v)) (f (y u) (y v)) (f (z u) (z v)) (f (w u) (w v)).
Definition add : t -> t -> t := map2 Rplus.
Definition sub : t -> t -> t := map2 Rminus.
Definition mul : t -> t -> t := map2 Rmult.
Definition scale (v : t) (s : R) : t := map (fun a => a * s) v.
Definition dot (u v : t) : R := x u * x v + y u * y v + z u * z v + w u * w v.
Definition xy (v : t) : vec2.t := vec2.mk (x v) (y v).
Definition xyz (v : t) : vec3.t := vec3.mk (x v) (y v) (z v).
End vec4.

Module GLSL.
Local Open Scope R_scope.

Definition sampler2D : Type := vec2.t -> vec4.t.

Definition floor (a : R) : R := IZR (Zfloor a).
(** [mod(a, b)] *)
Definition mod_ (a b : R) : R := a - b * floor (a / b).
(** [step(edge, a)] *)
Definition step (edge a : R) : R := if Rlt_dec a edge then 0 else 1.
Definition clamp (a lo hi : R) : R := Rmin (Rmax a lo) hi.
Definition smoothstep (edge0 edge1 a : R) : R :=
  let t := clamp ((a - edge0) / (edge1 - edge0)) 0 1 in
  t * t * (3 - 2 * t).
(** [mix(a, b, k)] *)
Definition mix (a b k : R) : R := a * (1 - k) + b * k.
Definition mix4 (a b : vec4.t) (k : R) : vec4.t :=
  vec4.map2 (fun p q => mix p q k) a b.
(** [pow(a, b)]; GLSL leaves it undefined for [a < 0]. *)
Definition pow (a b : R) : R := if Rlt_dec 0 a then Rpower a b else 0.

(** [uv_norm] of the blit and map shaders. *)
Definition uv_norm (uv res tex_res : vec2.t) : vec2.t :=
  let tex_aspect := vec2.x tex_res / vec2.y tex_res in
  let res_aspect := vec2.x res / vec2.y res in
  if Rlt_dec res_aspect tex_aspect then
    let scale := res_aspect / tex_aspect in
    vec2.mk ((vec2.x uv - 0.5) * scale + 0.5) (vec2.y uv)
  else
    let scale := tex_aspect / res_aspect in
    vec2.mk (vec2.x uv) ((vec2.y uv - 0.5) * scale + 0.5).

(** *** Blit *)

Definition blitShader (tex : sampler2D) (tex_res res : vec2.t) (fit nearest : bool)
    (vUV : vec2.t) : vec4.t :=
  let uv := vUV in
  let uv := if fit then uv_norm uv res tex_res else uv in
  let uv :=
    if nearest
    then vec2.div (vec2.floor (vec2.map (fun a => a + 0.5) (vec2.mul uv tex_res))) tex_res
    else uv in
  tex uv.

(** *** Blur

    [blur(tex, uv, res)], with [Size] the uniform [size] of the blur
    shader and the uniform [blur_size] of the map and displace shaders. *)

Definition Pi2 : R := 6.28318530718.
Definition Directions : nat := 16.
Definition Quality : nat := 3.

Definition blur_sample (tex : sampler2D) (uv radius : vec2.t) (d i : nat) : vec4.t :=
  let angle := Pi2 * INR d / INR Directions in
  let dir := vec2.mk (cos angle) (sin angle) in
  let offset := INR i / INR Quality in
  tex (vec2.add uv (vec2.scale (vec2.mul dir radius) offset)).

Definition blur (Size : R) (tex : sampler2D) (uv res : vec2.t) : vec4.t :=
  let radius := vec2.mk (Size / vec2.x res) (Size / vec2.y res) in
  let Color := tex uv in
  let Color :=
    fold_left (fun Color d =>
      fold_left (fun Color i => vec4.add Color (blur_sample tex uv radius d i))
        (seq 1 Quality) Color)
      (seq 0 Directions) Color in
  vec4.map (fun c => c / INR (Quality * Directions + 1)) Color.

Definition blurShader (tex : sampler2D) (res : vec2.t) (size : R) (vUV : vec2.t)
    : vec4.t :=
  blur size tex vUV res.

(** *** Simplex noise

    The noise hashes the corners of a lattice cell through [floor], which
    jumps, so that one constant cannot be idealised.  The shader writes
    [n_] as [0.142857142857], a decimal just below 1/7, and holds it in a
    [highp float], whose nearest value, 9586981 / 2^26, is just above 1/7.
    [floor(p * ns.z * ns.z)] and [floor(j * ns.z)], with [ns.z = n_], take
    the quotient of the hash [p] by 49 and of [j] by 7: with the value of
    the float they do, with the decimal they are one short at every
    multiple.  [n_] is therefore given the value of the float.  The other
    constants enter through sums and products only and are taken as
    written. *)

Definition ns_simplex_mod289 (a : R) : R := a - floor (a * (1 / 289)) * 289.
Definition ns_simplex_permute (a : R) : R := ns_simplex_mod289 ((a * 34 + 10) * a).
Definition ns_simplex_taylorInvSqrt (r : R) : R :=
  1.79284291400159 - 0.85373472095314 * r.

Definition ns_simplex (v : vec3.t) : R :=
  let Cx := 1 / 6 in
  let Cy := 1 / 3 in
  let s := vec3.dot v (vec3.mk Cy Cy Cy) in
  let i := vec3.map (fun a => floor (a + s)) v in
  let t := vec3.dot i (vec3.mk Cx Cx Cx) in
  let x0 := vec3.map (fun a => a + t) (vec3.sub v i) in
  (* g = step(x0.yzx, x0.xyz); l = 1.0 - g *)
  let g := vec3.mk (step (vec3.y x0) (vec3.x x0)) (step (vec3.z x0) (vec3.y x0))
                   (step (vec3.x x0) (vec3.z x0)) in
  let l := vec3.map (fun a => 1 - a) g in
  (* i1 = min(g.xyz, l.zxy); i2 = max(g.xyz, l.zxy) *)
  let lzxy := vec3.mk (vec3.z l) (vec3.x l) (vec3.y l) in
  let i1 := vec3.map2 Rmin g lzxy in
  let i2 := vec3.map2 Rmax g lzxy in
  let x1 := vec3.map (fun a => a + Cx) (vec3.sub x0 i1) in
  let x2 := vec3.map (fun a => a + Cy) (vec3.sub x0 i2) in
  let x3 := vec3.map (fun a => a - 0.5) x0 in
  let i := vec3.map ns_simplex_mod289 i in
  let p := vec4.map ns_simplex_permute
             (vec4.map (fun a => vec3.z i + a) (vec4.mk 0 (vec3.z i1) (vec3.z i2) 1)) in
  let p := vec4.map ns_simplex_permute
             (vec4.add (vec4.map (fun a => a + vec3.y i) p)
                       (vec4.mk 0 (vec3.y i1) (vec3.y i2) 1)) in
  let p := vec4.map ns_simplex_permute
             (vec4.add (vec4.map (fun a => a + vec3.x i) p)
                       (vec4.mk 0 (vec3.x i1) (vec3.x i2) 1)) in
  (* float n_ = 0.142857142857 *)
  let n_ := 9586981 / 67108864 in
  (* ns = n_ * D.wyz - D.xzx with D = (0, 0.5, 1, 2) *)
  let ns := vec3.mk (n_ * 2 - 0) (n_ * 0.5 - 1) (n_ * 1 - 0) in
  let j := vec4.map (fun a => a - 49 * floor (a * vec3.z ns * vec3.z ns)) p in
  let x_ := vec4.map (fun a => floor (a * vec3.z ns)) j in
  let y_ := vec4.map2 (fun a b => floor (a - 7 * b)) j x_ in
  let x := vec4.map (fun a => a * vec3.x ns + vec3.y ns) x_ in
  let y := vec4.map (fun a => a * vec3.x ns + vec3.y ns) y_ in
  let h := vec4.map2 (fun a b => 1 - Rabs a - Rabs b) x y in
  let b0 := vec4.mk (vec4.x x) (vec4.y x) (vec4.x y) (vec4.y y) in
  let b1 := vec4.mk (vec4.z x) (vec4.w x) (vec4.z y) (vec4.w y) in
  let s0 := vec4.map (fun a => floor a * 2 + 1) b0 in
  let s1 := vec4.map (fun a => floor a * 2 + 1) b1 in
  let sh := vec4.map (fun a => - step a 0) h in
  (* a0 = b0.xzyw + s0.xzyw * sh.xxyy; a1 = b1.xzyw + s1.xzyw * sh.zzww *)
  let a0 := vec4.mk (vec4.x b0 + vec4.x s0 * vec4.x sh) (vec4.z b0 + vec4.z s0 * vec4.x sh)
                    (vec4.y b0 + vec4.y s0 * vec4.y sh) (vec4.w b0 + vec4.w s0 * vec4.y sh) in
  let a1 := vec4.mk (vec4.x b1 + vec4.x s1 * vec4.z sh) (vec4.z b1 + vec4.z s1 * vec4.z sh)
                    (vec4.y b1 + vec4.y s1 * vec4.w sh) (vec4.w b1 + vec4.w s1 * vec4.w sh) in
  let p0 := vec3.mk (vec4.x a0) (vec4.y a0) (vec4.x h) in
  let p1 := vec3.mk (vec4.z a0) (vec4.w a0) (vec4.y h) in
  let p2 := vec3.mk (vec4.x a1) (vec4.y a1) (vec4.z h) in
  let p3 := vec3.mk (vec4.z a1) (vec4.w a1) (vec4.w h) in
  let norm := vec4.map ns_simplex_taylorInvSqrt
                (vec4.mk (vec3.dot p0 p0) (vec3.dot p1 p1) (vec3.dot p2 p2) (vec3.dot p3 p3)) in
  let p0 := vec3.scale p0 (vec4.x norm) in
  let p1 := vec3.scale p1 (vec4.y norm) in
  let p2 := vec3.scale p2 (vec4.z norm) in
  let p3 := vec3.scale p3 (vec4.w norm) in
  let m := vec4.map (fun a => Rmax (0.5 - a) 0)
             (vec4.mk (vec3.dot x0 x0) (vec3.dot x1 x1) (vec3.dot x2 x2) (vec3.dot x3 x3)) in
  let m := vec4.mul m m in
  105 * vec4.dot (vec4.mul m m)
          (vec4.mk (vec3.dot p0 x0) (vec3.dot p1 x1) (vec3.dot p2 x2) (vec3.dot p3 x3)).

(** *** The displacement map *)

Record MapUniforms := {
  map_source : sampler2D;
  map_image : sampler2D;
  time : R;
  uv_scale : vec3.t;
  map_weight : R;
  src_weight : R;
  rgb_mix : R;
  hard_level : R;
  hard_contrast : R;
  mask_level : R;
  mask_contrast : R;
  mask_weight : R;
  map_res : vec2.t;
  map_blur_size : R;
  time_scale : R
}.

Definition luminance (c : vec4.t) : R :=
  vec3.dot (vec4.xyz c) (vec3.mk 0.299 0.587 0.114).

Definition mapShader (u : MapUniforms) (vUV : vec2.t) : vec4.t :=
  let uv := vUV in
  let uvn := uv_norm uv (map_res u) (vec2.mk 2048 2048) in
  let source_color := map_source u uv in
  let image_color := blur (map_blur_size u) (map_image u) uv (map_res u) in
  let t := mod_ (time u) 111111 in
  let t2 := mod_ (time u * time_scale u) 111111 in
  let depth := luminance source_color in
  let uvd := vec3.mk (vec2.x uvn) (vec2.y uvn) depth in
  let nmap := vec3.add (vec3.mul uvd (uv_scale u)) (vec3.mk 0 0 t2) in
  let rgb_map :=
    vec3.add (vec3.scale (vec4.xyz image_color) (map_weight u)) (vec3.mk 0 0 t2) in
  let nmap_mask := vec3.add nmap (vec3.scale (vec4.xyz source_color) (src_weight u)) in
  let nmap_source :=
    vec3.add (vec3.add uvd (vec3.scale (vec4.xyz source_color) 0.5))
             (vec3.mk 0 0 (t * 0.05)) in
  let nmap_source :=
    vec3.mk (ns_simplex (vec3.add nmap_source (vec3.mk 69 0 0)))
            (ns_simplex (vec3.add nmap_source (vec3.mk 69 10 0)))
            (ns_simplex (vec3.add nmap_source (vec3.mk 69 20 0))) in
  let nmap_source := vec3.add nmap_source uvd in
  let displace_x_1 := ns_simplex (vec3.add nmap (vec3.mk 0 0 0)) in
  let displace_y_1 := ns_simplex (vec3.add nmap (vec3.mk 0 11 111.1)) in
  let displace_x_2 := ns_simplex (vec3.add rgb_map (vec3.mk 0 44 444)) in
  let displace_y_2 := ns_simplex (vec3.add rgb_map (vec3.mk 0 55 555.1)) in
  let displace_x := mix displace_x_1 displace_x_2 (rgb_mix u) in
  let displace_y := mix displace_y_1 displace_y_2 (rgb_mix u) in
  let hard_mask := ns_simplex (vec3.add nmap_mask (vec3.mk 0 22 222.2)) in
  let source_mask := ns_simplex (vec3.add nmap_source (vec3.mk 0 33 333.3)) in
  let displace_x := displace_x * 0.5 + 0.5 in
  let displace_y := displace_y * 0.5 + 0.5 in
  let hard_mask := hard_mask * 0.5 + 0.5 in
  let hard_mask := pow hard_mask (pow 2 (hard_level u)) in
  let hard_mask :=
    smoothstep (hard_contrast u * 0.5) (1 - hard_contrast u * 0.5) hard_mask in
  let source_mask := source_mask * 0.5 + 0.5 in
  let source_mask := pow source_mask (pow 2 (mask_level u)) in
  let source_mask :=
    smoothstep (mask_contrast u * 0.5) (1 - mask_contrast u * 0.5) source_mask in
  let source_mask := mix source_mask 1 0 in
  let source_mask := mix source_mask 0 (1 - mask_weight u) in
  vec4.mk displace_x displace_y hard_mask (1 - source_mask).






(** *** The compositor *)

Record DisplaceUniforms := {
  source : sampler2D;
  image : sampler2D;
  map : sampler2D;
  res : vec2.t;
  hard_weight : R;
  soft_weight : R;
  blur_size : R
}.

(** [dsp_hard] and [dsp_soft] of the displace shader's [main]. *)
Definition dsp_hard (u : DisplaceUniforms) (uv : vec2.t) : vec2.t :=
  let map_blur := blur (blur_size u) (map u) uv (res u) in
  let centred := vec2.map (fun a => a - 0.5) (vec4.xy map_blur) in
  let dsp_hard := vec2.div (vec2.scale (vec2.scale centred (hard_weight u)) 2) (res u) in
  vec2.div (vec2.floor (vec2.map (fun a => a + 0.5) (vec2.mul dsp_hard (res u)))) (res u).

Definition dsp_soft (u : DisplaceUniforms) (uv : vec2.t) : vec2.t :=
  let map_blur := blur (blur_size u) (map u) uv (res u) in
  let centred := vec2.map (fun a => a - 0.5) (vec4.xy map_blur) in
  vec2.div (vec2.scale (vec2.scale centred (soft_weight u)) 2) (res u).

Definition displaceShader (u : DisplaceUniforms) (vUV : vec2.t) : vec4.t :=
  let uv := vUV in
  let source_color := source u uv in
  let map_color := map u uv in
  let map_blur := blur (blur_size u) (map u) uv (res u) in
  let hard_mask := vec4.z map_blur in
  let source_mask := vec4.w map_color in
  let displaced_hard := image u (vec2.add uv (dsp_hard u uv)) in
  let displaced_soft := image u (vec2.add uv (dsp_soft u uv)) in
  let displaced := mix4 displaced_hard displaced_soft hard_mask in
  mix4 displaced source_color (1 - source_mask).

(** The compositor's result as the specification words it:
    [lerp(workingField(uv), sourceField(uv), 1 - sourceMask)]. *)
Definition masked_blend (u : DisplaceUniforms) (uv : vec2.t) : vec4.t :=
  mix4 (image u uv) (source u uv) (1 - vec4.w (map u uv)).

(** A flat field, for examples. *)
Definition flat (c : vec4.t) : sampler2D := fun _ => c.

End GLSL.

(** *** The noise on rational coordinates

    [ns_simplex] uses sums, differences, products, [floor], [step], [min],
    [max] and [abs] only, so on rational coordinates its value is a rational
    number that can be computed.  The functions below are the same program
    over [Q]; [NoiseFacts.ns_simplex_rational] proves that they give the
    value of [GLSL.ns_simplex]. *)

Module qvec3.
Import QArith.QArith_base.
Local Open Scope Q_scope.
Record t := mk { x : Q; y : Q; z : Q }.
Definition map (f : Q -> Q) (v : t) : t := mk (f (x v)) (f (y v)) (f (z v)).
Definition map2 (f : Q -> Q -> Q) (u v : t) : t :=
  mk (f (x u) (x v)) (f (y u) (y v)) (f (z u) (z v)).
Definition sub : t -> t -> t := map2 Qminus.
Definition scale (v : t) (s : Q) : t := map (fun a => a * s) v.
Definition dot (u v : t) : Q := x u * x v + y u * y v + z u * z v.
(** The real vector with the same coordinates. *)
Definition to_R (v : t) : vec3.t := vec3.mk (Q2R (x v)) (Q2R (y v)) (Q2R (z v)).
End qvec3.

Module qvec4.
Import QArith.QArith_base.
Local Open Scope Q_scope.
Record t := mk { x : Q; y : Q; z : Q; w : Q }.
Definition map (f : Q -> Q) (v : t) : t := mk (f (x v)) (f (y v)) (f (z v)) (f (w v)).
Definition map2 (f : Q -> Q -> Q) (u v : t) : t :=
  mk (f (x u) (x v)) (f (y u) (y v)) (f (z u) (z v)) (f (w u) (w v)).
Definition add : t -> t -> t := map2 Qplus.
Definition mul : t -> t -> t := map2 Qmult.
Definition dot (u v : t) : Q := x u * x v + y u * y v + z u * z v + w u * w v.
Definition to_R (v : t) : vec4.t :=
  vec4.mk (Q2R (x v)) (Q2R (y v)) (Q2R (z v)) (Q2R (w v)).
End qvec4.

Module Rational.
Import QArith.QArith_base QArith.Qround.
Local Open Scope Q_scope.

Definition floor (a : Q) : Q := inject_Z (Qfloor a).
Definition step (edge a : Q) : Q := if Qlt_le_dec a edge then 0 else 1.
Definition min (a b : Q) : Q := if Qlt_le_dec b a then b else a.
Definition max (a b : Q) : Q := if Qlt_le_dec a b then b else a.
Definition abs (a : Q) : Q := if Qlt_le_dec a 0 then - a else a.

Definition ns_simplex_mod289 (a : Q) : Q := a - floor (a * (1 / 289)) * 289.
Definition ns_simplex_permute (a : Q) : Q := ns_simplex_mod289 ((a * 34 + 10) * a).
Definition ns_simplex_taylorInvSqrt (r : Q) : Q :=
  1.79284291400159 - 0.85373472095314 * r.

Definition ns_simplex (v : qvec3.t) : Q :=
  let Cx := 1 / 6 in
  let Cy := 1 / 3 in
  let s := qvec3.dot v (qvec3.mk Cy Cy Cy) in
  let i := qvec3.map (fun a => floor (a + s)) v in
  let t := qvec3.dot i (qvec3.mk Cx Cx Cx) in
  let x0 := qvec3.map (fun a => a + t) (qvec3.sub v i) in
  let g := qvec3.mk (step (qvec3.y x0) (qvec3.x x0)) (step (qvec3.z x0) (qvec3.y x0))
                    (step (qvec3.x x0) (qvec3.z x0)) in
  let l := qvec3.map (fun a => 1 - a) g in
  let lzxy := qvec3.mk (qvec3.z l) (qvec3.x l) (qvec3.y l) in
  let i1 := qvec3.map2 min g lzxy in
  let i2 := qvec3.map2 max g lzxy in
  let x1 := qvec3.map (fun a => a + Cx) (qvec3.sub x0 i1) in
  let x2 := qvec3.map (fun a => a + Cy) (qvec3.sub x0 i2) in
  let x3 := qvec3.map (fun a => a - 0.5) x0 in
  let i := qvec3.map ns_simplex_mod289 i in
  let p := qvec4.map ns_simplex_permute
             (qvec4.map (fun a => qvec3.z i + a) (qvec4.mk 0 (qvec3.z i1) (qvec3.z i2) 1)) in
  let p := qvec4.map ns_simplex_permute
             (qvec4.add (qvec4.map (fun a => a + qvec3.y i) p)
                        (qvec4.mk 0 (qvec3.y i1) (qvec3.y i2) 1)) in
  let p := qvec4.map ns_simplex_permute
             (qvec4.add (qvec4.map (fun a => a + qvec3.x i) p)
                        (qvec4.mk 0 (qvec3.x i1) (qvec3.x i2) 1)) in
  let n_ := 9586981 / 67108864 in
  let ns := qvec3.mk (n_ * 2 - 0) (n_ * 0.5 - 1) (n_ * 1 - 0) in
  let j := qvec4.map (fun a => a - 49 * floor (a * qvec3.z ns * qvec3.z ns)) p in
  let x_ := qvec4.map (fun a => floor (a * qvec3.z ns)) j in
  let y_ := qvec4.map2 (fun a b => floor (a - 7 * b)) j x_ in
  let x := qvec4.map (fun a => a * qvec3.x ns + qvec3.y ns) x_ in
  let y := qvec4.map (fun a => a * qvec3.x ns + qvec3.y ns) y_ in
  let h := qvec4.map2 (fun a b => 1 - abs a - abs b) x y in
  let b0 := qvec4.mk (qvec4.x x) (qvec4.y x) (qvec4.x y) (qvec4.y y) in
  let b1 := qvec4.mk (qvec4.z x) (qvec4.w x) (qvec4.z y) (qvec4.w y) in
  let s0 := qvec4.map (fun a => floor a * 2 + 1) b0 in
  let s1 := qvec4.map (fun a => floor a * 2 + 1) b1 in
  let sh := qvec4.map (fun a => - step a 0) h in
  let a0 := qvec4.mk (qvec4.x b0 + qvec4.x s0 * qvec4.x sh) (qvec4.z b0 + qvec4.z s0 * qvec4.x sh)
                     (qvec4.y b0 + qvec4.y s0 * qvec4.y sh) (qvec4.w b0 + qvec4.w s0 * qvec4.y sh) in
  let a1 := qvec4.mk (qvec4.x b1 + qvec4.x s1 * qvec4.z sh) (qvec4.z b1 + qvec4.z s1 * qvec4.z sh)
                     (qvec4.y b1 + qvec4.y s1 * qvec4.w sh) (qvec4.w b1 + qvec4.w s1 * qvec4.w sh) in
  let p0 := qvec3.mk (qvec4.x a0) (qvec4.y a0) (qvec4.x h) in
  let p1 := qvec3.mk (qvec4.z a0) (qvec4.w a0) (qvec4.y h) in
  let p2 := qvec3.mk (qvec4.x a1) (qvec4.y a1) (qvec4.z h) in
  let p3 := qvec3.mk (qvec4.z a1) (qvec4.w a1) (qvec4.w h) in
  let norm := qvec4.map ns_simplex_taylorInvSqrt
                (qvec4.mk (qvec3.dot p0 p0) (qvec3.dot p1 p1) (qvec3.dot p2 p2)
                          (qvec3.dot p3 p3)) in
  let p0 := qvec3.scale p0 (qvec4.x norm) in
  let p1 := qvec3.scale p1 (qvec4.y norm) in
  let p2 := qvec3.scale p2 (qvec4.z norm) in
  let p3 := qvec3.scale p3 (qvec4.w norm) in
  let m := qvec4.map (fun a => max (0.5 - a) 0)
             (qvec4.mk (qvec3.dot x0 x0) (qvec3.dot x1 x1) (qvec3.dot x2 x2)
                       (qvec3.dot x3 x3)) in
  let m := qvec4.mul m m in
  105 * qvec4.dot (qvec4.mul m m)
          (qvec4.mk (qvec3.dot p0 x0) (qvec3.dot p1 x1) (qvec3.dot p2 x2) (qvec3.dot p3 x3)).
End Rational.


(** ** The feedback loop: class [ShaderCalendar] *)

(** The WebGL state the calendar works on: textures, and draws of a
    fragment program over the full viewport.  [setupPrograms] and
    [setupGeometry] are taken to succeed (the four programs are the fragment
    shaders above, drawn on the two triangles that cover the viewport), and
    the uniforms reach the programs with the values [draw] is given. *)

Module GL.
Local Open Scope R_scope.

(** A texture of RGBA texels; the texels outside [0 .. width-1] x
    [0 .. height-1] are never read. *)
Record Texture := { tex_width : Z; tex_height : Z; texel : Z -> Z -> vec4.t }.

Definition clamp_index (n i : Z) : Z := Z.max 0 (Z.min (n - 1) i).

Definition weighted (c : vec4.t) (k : R) : vec4.t := vec4.scale c k.

(** [texture2D(tex, uv)] on a texture with [LINEAR] filters and
    [CLAMP_TO_EDGE] wrapping, as every texture of the calendar is set up:
    the bilinear blend of the four texels around [uv]. *)
Definition texture2D (t : Texture) : GLSL.sampler2D :=
  fun uv =>
    let w := IZR (tex_width t) in
    let h := IZR (tex_height t) in
    let s := GLSL.clamp (vec2.x uv) (1 / (2 * w)) (1 - 1 / (2 * w)) in
    let t' := GLSL.clamp (vec2.y uv) (1 / (2 * h)) (1 - 1 / (2 * h)) in
    let u := s * w - 0.5 in
    let v := t' * h - 0.5 in
    let i0 := Zfloor u in
    let j0 := Zfloor v in
    let alpha := u - IZR i0 in
    let beta := v - IZR j0 in
    let tx i j := texel t (clamp_index (tex_width t) i) (clamp_index (tex_height t) j) in
    vec4.add
      (vec4.add (weighted (tx i0 j0) ((1 - alpha) * (1 - beta)))
                (weighted (tx (i0 + 1)%Z j0) (alpha * (1 - beta))))
      (vec4.add (weighted (tx i0 (j0 + 1)%Z) ((1 - alpha) * beta))
                (weighted (tx (i0 + 1)%Z (j0 + 1)%Z) (alpha * beta))).

(** A colour written to an [RGBA] / [UNSIGNED_BYTE] attachment: clamped to
    [0, 1] and rounded to a multiple of 1/255. *)
Definition to_unorm8 (c : R) : R := IZR (Zfloor (GLSL.clamp c 0 1 * 255 + 0.5)) / 255.

Definition in_viewport (w h : Z) (t : Texture) (x y : Z) : bool :=
  ((0 <=? x) && (x <? Z.min w (tex_width t)) && (0 <=? y) && (y <? Z.min h (tex_height t)))%Z.

(** [drawArrays] of the two triangles that cover the viewport
    [0, 0, w, h]: the fragment shader runs at the centre of every pixel,
    where [vUV.xy = position.xy * 0.5 + 0.5] is
    [((x + 0.5) / w, (y + 0.5) / h)]. *)
Definition rasterize (frag : vec2.t -> vec4.t) (w h : Z) (target : Texture) : Texture :=
  {| tex_width := tex_width target;
     tex_height := tex_height target;
     texel := fun x y =>
       if in_viewport w h target x y
       then vec4.map to_unorm8
              (frag (vec2.mk ((IZR x + 0.5) / IZR w) ((IZR y + 0.5) / IZR h)))
       else texel target x y |}.

(** [texImage2D(..., width, height, ..., null)]: a zero-filled texture. *)
Definition blank (w h : Z) : Texture :=
  {| tex_width := w; tex_height := h; texel := fun _ _ => vec4.mk 0 0 0 0 |}.

(** What sampling an unbound texture unit yields. *)
Definition unbound : GLSL.sampler2D := fun _ => vec4.mk 0 0 0 1.
End GL.

Module FBOs.
(** [this.fbos]: each entry is [null] or a framebuffer with its texture. *)
Record t := {
  source : option GL.Texture;
  image : option GL.Texture;
  map : option GL.Texture;
  displace : option GL.Texture
}.
End FBOs.

Module ShaderCalendar.
Import JSNumber.

(** A decoded [Image]: its resolved [src], its size and its pixels, row 0
    at the top. *)
Record Image := {
  src : string;
  img_width : Z;
  img_height : Z;
  pixel : Z -> Z -> vec4.t
}.

Record State := {
  time : float;
  animationId : option nat;
  currentDay : float;
  currentImage : option Image;
  seed : float;
  lastImageSrc : option string;         (* [undefined] until the first load *)
  sourceTexture : option GL.Texture;    (* [undefined] until the first load *)
  width : Z;
  height : Z;
  fbos : FBOs.t;
  canvas : GL.Texture                   (* the drawing buffer *)
}.

(** What a method leaves behind: it returned, or it raised a [TypeError]
    on the way. *)
Inductive Outcome :=
| Done (s : State)
| TypeError (s : State).

Definition state_of (o : Outcome) : State :=
  match o with Done s | TypeError s => s end.

(** The real number a uniform receives from a finite JavaScript number. *)
Definition uniform1f (f : float) : R :=
  match Prim2SF f with
  | S754_finite sign m e => ((if sign then -1 else 1) * IZR (Z.pos m) * powerRZ 2 e)%R
  | _ => 0%R
  end.

Definition with_time (t : float) (s : State) : State :=
  {| time := t; animationId := animationId s; currentDay := currentDay s;
     currentImage := currentImage s; seed := seed s; lastImageSrc := lastImageSrc s;
     sourceTexture := sourceTexture s; width := width s; height := height s;
     fbos := fbos s; canvas := canvas s |}.

Definition with_animationId (a : option nat) (s : State) : State :=
  {| time := time s; animationId := a; currentDay := currentDay s;
     currentImage := currentImage s; seed := seed s; lastImageSrc := lastImageSrc s;
     sourceTexture := sourceTexture s; width := width s; height := height s;
     fbos := fbos s; canvas := canvas s |}.

Definition with_fbos (f : FBOs.t) (s : State) : State :=
  {| time := time s; animationId := animationId s; currentDay := currentDay s;
     currentImage := currentImage s; seed := seed s; lastImageSrc := lastImageSrc s;
     sourceTexture := sourceTexture s; width := width s; height := height s;
     fbos := f; canvas := canvas s |}.

Definition with_canvas (c : GL.Texture) (s : State) : State :=
  {| time := time s; animationId := animationId s; currentDay := currentDay s;
     currentImage := currentImage s; seed := seed s; lastImageSrc := lastImageSrc s;
     sourceTexture := sourceTexture s; width := width s; height := height s;
     fbos := fbos s; canvas := c |}.

Definition with_lastImageSrc (l : option string) (s : State) : State :=
  {| time := time s; animationId := animationId s; currentDay := currentDay s;
     currentImage := currentImage s; seed := seed s; lastImageSrc := l;
     sourceTexture := sourceTexture s; width := width s; height := height s;
     fbos := fbos s; canvas := canvas s |}.

(** [new ShaderCalendar(canvasId)] on a canvas that has a WebGL context;
    [seed] is the result of [Math.random()]. *)
Definition constructor (seed : float) (canvas : GL.Texture) : State :=
  {| time := 0; animationId := None; currentDay := 1; currentImage := None;
     seed := seed; lastImageSrc := None; sourceTexture := None;
     width := 0; height := 0;
     fbos := {| FBOs.source := None; FBOs.image := None; FBOs.map := None;
                FBOs.displace := None |};
     canvas := canvas |}.

(** [setupFramebuffers()] *)
Definition setupFramebuffers (s : State) : State :=
  with_fbos {| FBOs.source := None; FBOs.image := None; FBOs.map := None;
               FBOs.displace := None |} s.

(** [resizeFramebuffers(width, height)] *)
Definition resizeFramebuffers (w h : Z) (s : State) : State :=
  with_fbos {| FBOs.source := Some (GL.blank w h); FBOs.image := Some (GL.blank w h);
               FBOs.map := Some (GL.blank w h); FBOs.displace := Some (GL.blank w h) |} s.

(** [createTexture(img)]: the upload flips the rows
    ([UNPACK_FLIP_Y_WEBGL]); the canvas and the four buffers take the size
    [min(img.width, img.height)]. *)
Definition createTexture (img : Image) (s : State) : State :=
  let texture :=
    {| GL.tex_width := img_width img; GL.tex_height := img_height img;
       GL.texel := fun x y => pixel img x (img_height img - 1 - y) |} in
  let size := Z.min (img_width img) (img_height img) in
  resizeFramebuffers size size
    {| time := time s; animationId := animationId s; currentDay := currentDay s;
       currentImage := currentImage s; seed := seed s; lastImageSrc := lastImageSrc s;
       sourceTexture := Some texture; width := size; height := size;
       fbos := fbos s; canvas := GL.blank size size |}.

(** [draw(program, fbo, uniforms)] with the fragment program [frag]:
    into the texture of [fbo], or into the canvas when [fbo] is [null]. *)
Definition draw_canvas (frag : vec2.t -> vec4.t) (s : State) : State :=
  with_canvas (GL.rasterize frag (width s) (height s) (canvas s)) s.

Definition sampler (t : option GL.Texture) : GLSL.sampler2D :=
  match t with Some t => GL.texture2D t | None => GL.unbound end.

Definition res (s : State) : vec2.t := vec2.mk (IZR (width s)) (IZR (height s)).

(** The blit of [initialize] and [render]: [fit] and [nearest] are false. *)
Definition blit (tex : option GL.Texture) (tex_res : vec2.t) (s : State)
    : vec2.t -> vec4.t :=
  GLSL.blitShader (sampler tex) tex_res (res s) false false.

(** [initialize()] *)
Definition initialize (s : State) : Outcome :=
  let s := with_time 0 s in
  match currentImage s with
  | None => TypeError s                       (* [this.currentImage.width] *)
  | Some img =>
      let tex_res := vec2.mk (IZR (img_width img)) (IZR (img_height img)) in
      match FBOs.source (fbos s) with
      | None =>
          (* drawn to the canvas; then [this.fbos.source.texture] *)
          TypeError (draw_canvas (blit (sourceTexture s) tex_res s) s)
      | Some fbo_source =>
          let fbo_source :=
            GL.rasterize (blit (sourceTexture s) tex_res s) (width s) (height s)
              fbo_source in
          let f := fbos s in
          let s :=
            with_fbos {| FBOs.source := Some fbo_source; FBOs.image := FBOs.image f;
                         FBOs.map := FBOs.map f; FBOs.displace := FBOs.displace f |} s in
          let copy := blit (Some fbo_source) (res s) s in
          match FBOs.image (fbos s) with
          | None => Done (draw_canvas copy s)
          | Some fbo_image =>
              let f := fbos s in
              Done (with_fbos
                      {| FBOs.source := FBOs.source f;
                         FBOs.image := Some (GL.rasterize copy (width s) (height s) fbo_image);
                         FBOs.map := FBOs.map f; FBOs.displace := FBOs.displace f |} s)
          end
      end
  end.

(** The outcome of [loadImage(src, day)]: the promise resolves; it is
    rejected ([img.onerror]); or the [onload] handler raises and the
    promise stays pending. *)
Inductive LoadOutcome :=
| Resolved (s : State)
| Rejected (s : State)
| Pending (s : State).

(** [loadImage(src, day)], with [decoded] what the browser makes of
    [src]: the image, or [None] when it cannot be loaded. *)
Definition loadImage (decoded : option Image) (day : float) (s : State) : LoadOutcome :=
  match decoded with
  | None => Rejected s
  | Some img =>
      let dayChanged := negb (currentDay s =? day)%float in
      let s :=
        {| time := time s; animationId := animationId s; currentDay := day;
           currentImage := Some img; seed := seed s; lastImageSrc := lastImageSrc s;
           sourceTexture := sourceTexture s; width := width s; height := height s;
           fbos := fbos s; canvas := canvas s |} in
      let same_src :=
        match lastImageSrc s with
        | Some l => String.eqb (src img) l
        | None => false
        end in
      let initialized :=
        match sourceTexture s with
        | Some _ => if same_src && dayChanged then initialize s
                    else initialize (createTexture img s)
        | None => initialize (createTexture img s)
        end in
      match initialized with
      | Done s => Resolved (with_lastImageSrc (Some (src img)) s)
      | TypeError s => Pending s
      end
  end.

(** [render()] *)
Definition render (s : State) : Outcome :=
  match sourceTexture s with
  | None => Done s
  | Some _ =>
      let params := Curve.getParams (currentDay s) in
      let f := fbos s in
      (* the four buffers exist together: invariant [consistent] *)
      match FBOs.source f, FBOs.image f, FBOs.map f, FBOs.displace f with
      | Some fbo_source, Some fbo_image, Some fbo_map, Some fbo_displace =>
          let fbo_map :=
            GL.rasterize
              (GLSL.mapShader
                 {| GLSL.map_source := GL.texture2D fbo_source;
                    GLSL.map_image := GL.texture2D fbo_image;
                    GLSL.time := uniform1f (time s + seed s * 1000.0)%float;
                    GLSL.uv_scale :=
                      vec3.mk (uniform1f (Curve.uv_scale params))
                              (uniform1f (Curve.uv_scale params))
                              (uniform1f (Curve.depth_scale params));
                    GLSL.map_weight := uniform1f (Curve.rgb_scale params);
                    GLSL.src_weight := uniform1f (Curve.src_weight params);
                    GLSL.rgb_mix := uniform1f (Curve.rgb_mix params);
                    GLSL.hard_level := uniform1f (Curve.hard_level params);
                    GLSL.hard_contrast := uniform1f (Curve.hard_contrast params);
                    GLSL.mask_level := uniform1f (Curve.mask_level params);
                    GLSL.mask_contrast := uniform1f (Curve.mask_contrast params);
                    GLSL.mask_weight := uniform1f (Curve.mask_weight params);
                    GLSL.map_res := res s;
                    GLSL.map_blur_size := uniform1f (Curve.image_blur params);
                    GLSL.time_scale := uniform1f (Curve.time_scale params) |})
              (width s) (height s) fbo_map in
          let fbo_displace :=
            GL.rasterize
              (GLSL.displaceShader
                 {| GLSL.source := GL.texture2D fbo_source;
                    GLSL.image := GL.texture2D fbo_image;
                    GLSL.map := GL.texture2D fbo_map;
                    GLSL.res := res s;
                    GLSL.hard_weight := uniform1f (Curve.hard_weight params);
                    GLSL.soft_weight := uniform1f (Curve.soft_weight params);
                    GLSL.blur_size := uniform1f (Curve.map_blur params) |})
              (width s) (height s) fbo_displace in
          let fbo_image :=
            GL.rasterize (blit (Some fbo_displace) (res s) s) (width s) (height s)
              fbo_image in
          let s :=
            with_fbos {| FBOs.source := Some fbo_source; FBOs.image := Some fbo_image;
                         FBOs.map := Some fbo_map; FBOs.displace := Some fbo_displace |} s in
          let s := draw_canvas (blit (Some fbo_image) (res s) s) s in
          Done (with_time (time s + 1 / 60)%float s)
      | _, _, _, _ => TypeError s
      end
  end.

(** [setDay(day)] *)
Definition setDay (day : float) (s : State) : State :=
  {| time := time s; animationId := animationId s; currentDay := day;
     currentImage := currentImage s; seed := seed s; lastImageSrc := lastImageSrc s;
     sourceTexture := sourceTexture s; width := width s; height := height s;
     fbos := fbos s; canvas := canvas s |}.

(** [animate()] of [startAnimation]: one frame, and the next one
    requested under the handle [id]. *)
Definition animate (id : nat) (s : State) : Outcome :=
  match render s with
  | Done s => Done (with_animationId (Some id) s)
  | TypeError s => TypeError s
  end.

Definition stopAnimation (s : State) : State := with_animationId None s.

(** The [webglcontextrestored] handler. *)
Definition contextRestored (id : nat) (s : State) : Outcome :=
  let s := setupFramebuffers s in
  match currentImage s with
  | None => Done s
  | Some img =>
      match initialize (createTexture img s) with
      | Done s => animate id s
      | TypeError s => TypeError s
      end
  end.

(** *** The calendar in use *)

Inductive Action :=
| LoadImage (decoded : option Image) (day : Z)
| Render
| SetDay (day : Z)
| Animate (id : nat)
| StopAnimation
| ContextRestored (id : nat).

Definition perform (a : Action) (s : State) : State :=
  match a with
  | LoadImage decoded day =>
      match loadImage decoded (of_int day) s with
      | Resolved s | Rejected s | Pending s => s
      end
  | Render => state_of (render s)
  | SetDay day => setDay (of_int day) s
  | Animate id => state_of (animate id s)
  | StopAnimation => stopAnimation s
  | ContextRestored id => state_of (contextRestored id s)
  end.

Definition reachable (s : State) : Prop :=
  exists seed canvas l, s = fold_left (fun s a => perform a s) l (constructor seed canvas).

(** Once an image was loaded the image, its texture and the four buffers,
    of the size of the viewport, are all there. *)
Definition sized (s : State) (t : option GL.Texture) : Prop :=
  exists t', t = Some t' /\ GL.tex_width t' = width s /\ GL.tex_height t' = height s.

Definition consistent (s : State) : Prop :=
  (sourceTexture s = None /\ currentImage s = None)
  \/ (sourceTexture s <> None /\ currentImage s <> None
      /\ sized s (FBOs.source (fbos s)) /\ sized s (FBOs.image (fbos s))
      /\ sized s (FBOs.map (fbos s)) /\ sized s (FBOs.displace (fbos s))).

(** The working field equals the source field, pixel for pixel. *)
Definition accumulator_reset (s : State) : Prop :=
  exists fbo_source fbo_image,
    FBOs.source (fbos s) = Some fbo_source /\ FBOs.image (fbos s) = Some fbo_image
    /\ GL.tex_width fbo_source = width s /\ GL.tex_height fbo_source = height s
    /\ GL.tex_width fbo_image = width s /\ GL.tex_height fbo_image = height s
    /\ forall x y, (0 <= x < width s)%Z -> (0 <= y < height s)%Z ->
         GL.texel fbo_image x y = GL.texel fbo_source x y.

(** A 2 x 2 image, for examples. *)
Definition sample_image : Image :=
  {| src := "memory_01/1.jpg"; img_width := 2; img_height := 2;
     pixel := fun x y => vec4.mk (IZR x / 255) (IZR y / 255) 0.5 1 |}.
End ShaderCalendar.

(** ** The sound engine: class [DementiaSound] *)

Module DementiaSound.
Import JSNumber Curve.
Local Open Scope float_scope.

(** One entry of [this.oscillators]: the object literal
    [{osc, lfo, gain, filter, reverbGain, lfoGain, baseFreq, detuneOffset, isPad}]
    pushed by [start]. *)
Record OscData := {
  osc : Oscillator.t;
  lfo : Oscillator.t;
  gain : Gain.t;
  filter : BiquadFilter.t;
  reverbGain : Gain.t;
  lfoGain : Gain.t;
  baseFreq : float;
  detuneOffset : float;
  isPad : bool
}.

Definition with_osc (f : Oscillator.t -> Oscillator.t) (d : OscData) : OscData :=
  {| osc := f (osc d); lfo := lfo d; gain := gain d; filter := filter d;
     reverbGain := reverbGain d; lfoGain := lfoGain d; baseFreq := baseFreq d;
     detuneOffset := detuneOffset d; isPad := isPad d |}.
Definition with_lfo (f : Oscillator.t -> Oscillator.t) (d : OscData) : OscData :=
  {| osc := osc d; lfo := f (lfo d); gain := gain d; filter := filter d;
     reverbGain := reverbGain d; lfoGain := lfoGain d; baseFreq := baseFreq d;
     detuneOffset := detuneOffset d; isPad := isPad d |}.
Definition with_gain (f : Gain.t -> Gain.t) (d : OscData) : OscData :=
  {| osc := osc d; lfo := lfo d; gain := f (gain d); filter := filter d;
     reverbGain := reverbGain d; lfoGain := lfoGain d; baseFreq := baseFreq d;
     detuneOffset := detuneOffset d; isPad := isPad d |}.
Definition with_filter (f : BiquadFilter.t -> BiquadFilter.t) (d : OscData) : OscData :=
  {| osc := osc d; lfo := lfo d; gain := gain d; filter := f (filter d);
     reverbGain := reverbGain d; lfoGain := lfoGain d; baseFreq := baseFreq d;
     detuneOffset := detuneOffset d; isPad := isPad d |}.
Definition with_reverbGain (f : Gain.t -> Gain.t) (d : OscData) : OscData :=
  {| osc := osc d; lfo := lfo d; gain := gain d; filter := filter d;
     reverbGain := f (reverbGain d); lfoGain := lfoGain d; baseFreq := baseFreq d;
     detuneOffset := detuneOffset d; isPad := isPad d |}.
Definition with_lfoGain (f : Gain.t -> Gain.t) (d : OscData) : OscData :=
  {| osc := osc d; lfo := lfo d; gain := gain d; filter := filter d;
     reverbGain := reverbGain d; lfoGain := f (lfoGain d); baseFreq := baseFreq d;
     detuneOffset := detuneOffset d; isPad := isPad d |}.

(** The values a property of the instance can hold. *)
Inductive Value :=
| VUndefined
| VNull
| VBool (b : bool)
| VNum (n : float)
| VArray (elems : list Value)
| VNote (freq duration : float)            (* [{ freq, duration }] *)
| VVoice (d : OscData)
| VContext (c : AudioContext.t)
| VGain (g : Gain.t)
| VConvolver (c : Convolver.t).

(** The nodes one call of [playNote] creates; they are referenced by the
    audio graph only, never by the instance. *)
Record MelodyVoice := {
  note_osc : Oscillator.t;
  note_gain : Gain.t;
  note_filter : BiquadFilter.t;
  note_reverbGain : Gain.t
}.

(** A pending [setTimeout(() => playNote(nextNoteIndex), ...)], with the
    variables its closure captured: [params] and the running [currentTime]
    of the [playMelody] call it belongs to. *)
Record Timer := {
  nextNoteIndex : nat;
  melodyTime : float;
  melodyParams : SoundParams;
  delay : float
}.

Record Machine := {
  this : gmap string Value;            (* own properties of the instance *)
  melodyVoices : list MelodyVoice;
  timers : list Timer;
  frames : nat;                        (* pending [requestAnimationFrame(modulate)] *)
  draws : nat                          (* calls of [Math.random] made by [start] *)
}.

Definition with_this (f : gmap string Value -> gmap string Value) (m : Machine) : Machine :=
  {| this := f (this m); melodyVoices := melodyVoices m; timers := timers m;
     frames := frames m; draws := draws m |}.

Inductive Error := TypeError | DOMException.

Inductive Completion (A : Type) :=
| Normal (a : A)
| Throw (e : Error).
Arguments Normal {A}.
Arguments Throw {A}.

(** Statements run on the machine; what was written before a [throw]
    stays written. *)
Definition M (A : Type) : Type := Machine -> Completion A * Machine.

Definition ret {A} (a : A) : M A := fun m => (Normal a, m).
Definition throw {A} (e : Error) : M A := fun m => (Throw e, m).
Definition bind {A B} (c : M A) (k : A -> M B) : M B :=
  fun m => match c m with
           | (Normal a, m') => k a m'
           | (Throw e, m') => (Throw e, m')
           end.

Notation "x <- c ;; k" := (bind c (fun x => k))
  (at level 100, c at next level, right associativity).
Notation "c ;; k" := (bind c (fun _ => k))
  (at level 100, right associativity).

(** [try { c } catch (error) { console.error(...) }] *)
Definition try_catch (c : M unit) : M unit :=
  fun m => match c m with
           | (Normal a, m') => (Normal a, m')
           | (Throw _, m') => (Normal tt, m')
           end.

(** [this.key]: [None] is a property that was never assigned. *)
Definition get (key : string) : M (option Value) :=
  fun m => (Normal (this m !! key), m).

(** [this.key = v] *)
Definition set (key : string) (v : Value) : M unit :=
  fun m => (Normal tt, with_this (insert key v) m).

(** Truthiness, as [if (x)] and [!x] test it. *)
Definition truthy (v : option Value) : bool :=
  match v with
  | None | Some VUndefined | Some VNull => false
  | Some (VBool b) => b
  | Some (VNum n) => negb (is_nan n || is_zero n)
  | Some _ => true
  end.

(** [day === x] for a number [day]. *)
Definition strict_equal_num (day : float) (v : option Value) : bool :=
  match v with
  | Some (VNum n) => day =? n
  | _ => false
  end.

(** [x.length]: reading a property of [undefined] or [null] throws; a
    value without a [length] yields [undefined], [NaN] as a number. *)
Definition length_of (v : option Value) : M float :=
  match v with
  | None | Some VUndefined | Some VNull => throw TypeError
  | Some (VArray l) => ret (of_nat (List.length l))
  | Some _ => ret nan
  end.

(** Uses of a value as an object of a given class.  [undefined] and [null]
    throw as in the engine; the other mismatches do not arise (invariant
    [shaped] below) and are rejected. *)
Definition as_context (v : option Value) : M AudioContext.t :=
  match v with Some (VContext c) => ret c | _ => throw TypeError end.
Definition as_gain (v : option Value) : M Gain.t :=
  match v with Some (VGain g) => ret g | _ => throw TypeError end.
Definition as_convolver (v : option Value) : M Convolver.t :=
  match v with Some (VConvolver c) => ret c | _ => throw TypeError end.
Definition as_array (v : option Value) : M (list Value) :=
  match v with Some (VArray l) => ret l | _ => throw TypeError end.
Definition as_number (v : option Value) : M float :=
  match v with Some (VNum n) => ret n | _ => throw TypeError end.
Definition as_voice (v : option Value) : M OscData :=
  match v with Some (VVoice d) => ret d | _ => throw TypeError end.

(** [this.audioContext.currentTime] *)
Definition currentTime : M float :=
  c <- get "audioContext" ;; ctx <- as_context c ;; ret (AudioContext.currentTime ctx).

(** [this.oscillators[i]], and the write-back of the object mutated in place. *)
Definition voice_at (i : nat) : M OscData :=
  a <- get "oscillators" ;; l <- as_array a ;; as_voice (l !! i).
Definition set_voice (i : nat) (d : OscData) : M unit :=
  a <- get "oscillators" ;; l <- as_array a ;;
  set "oscillators" (VArray (<[i := VVoice d]> l)).

(** [array.forEach((x, index) => body)] *)
Fixpoint forEach (body : Value -> nat -> M unit) (l : list Value) (index : nat) : M unit :=
  match l with
  | [] => ret tt
  | x :: rest => body x index ;; forEach body rest (S index)
  end.

Definition constructor : Machine :=
  {| this :=
       <["padFrequencies" := VArray [VNum 130.81; VNum 164.81; VNum 196.00]]>
       (<["melodyNotes" := VArray [
            VNote 261.63 2.0; VNote 329.63 1.5; VNote 392.00 1.5; VNote 329.63 1.0;
            VNote 293.66 2.0; VNote 261.63 2.0; VNote 220.00 3.0; VNote 261.63 2.5]]>
       (<["currentDay" := VNum 1]>
       (<["isPlaying" := VBool false]>
       (<["noiseNode" := VNull]>
       (<["reverbNode" := VNull]>
       (<["filters" := VArray []]>
       (<["oscillators" := VArray []]>
       (<["masterGain" := VNull]>
       (<["audioContext" := VNull]> ∅)))))))));
     melodyVoices := []; timers := []; frames := 0; draws := 0 |}.
Definition add_melodyVoice (v : MelodyVoice) : M unit :=
  fun m => (Normal tt,
            {| this := this m; melodyVoices := melodyVoices m ++ [v]; timers := timers m;
               frames := frames m; draws := draws m |}).

(** [setTimeout(() => playNote(nextNoteIndex), noteDuration * 1000)] *)
Definition setTimeout (t : Timer) : M unit :=
  fun m => (Normal tt,
            {| this := this m; melodyVoices := melodyVoices m; timers := timers m ++ [t];
               frames := frames m; draws := draws m |}).

(** [requestAnimationFrame(modulate)] *)
Definition requestAnimationFrame : M unit :=
  fun m => (Normal tt,
            {| this := this m; melodyVoices := melodyVoices m; timers := timers m;
               frames := S (frames m); draws := draws m |}).

Definition transitionTime : float := 1.0.

(** The nodes the callback of [this.padFrequencies.forEach] creates and
    sets up for the pad tone [freq], as pushed on [this.oscillators]: [n] is
    [this.padFrequencies.length] and [r] the result of [Math.random()]. *)
Definition padVoice (params : SoundParams) (now n freq r : float) : OscData :=
  let osc :=
    Oscillator.update_frequency (AudioParam.set_value freq)
      (Oscillator.with_type "sine" Oscillator.create) in
  let lfo :=
    Oscillator.update_frequency (AudioParam.set_value (vibratoSpeed params * 0.5))
      (Oscillator.with_type "sine" Oscillator.create) in
  let lfoGain := Gain.update (AudioParam.set_value (vibratoDepth params * 0.5)) Gain.create in
  let filter :=
    BiquadFilter.update_Q (AudioParam.set_value (filterQ params))
      (BiquadFilter.update_frequency (AudioParam.set_value (filterFrequency params))
         (BiquadFilter.with_type "lowpass" BiquadFilter.create)) in
  let volume := 0.06 / n in
  let gain :=
    Gain.update (AudioParam.linearRampToValueAtTime (volume * dryGain params) (now + 3.0))
      (Gain.update (AudioParam.set_value 0) Gain.create) in
  let reverbGain := Gain.update (AudioParam.set_value (reverbMix params * 0.7)) Gain.create in
  let osc := Oscillator.start now osc in
  let lfo := Oscillator.start now lfo in
  {| osc := osc; lfo := lfo; gain := gain; filter := filter;
     reverbGain := reverbGain; lfoGain := lfoGain; baseFreq := freq;
     detuneOffset := r * Math_PI * 2; isPad := true |}.

(** The nodes [playNote] creates and schedules for one note. *)
Definition noteVoice (params : SoundParams) (currentTime freq noteDuration : float)
    : MelodyVoice :=
  let osc :=
    Oscillator.update_frequency (AudioParam.set_value freq)
      (Oscillator.with_type "sine" Oscillator.create) in
  let filter :=
    BiquadFilter.update_Q (AudioParam.set_value (filterQ params))
      (BiquadFilter.update_frequency (AudioParam.set_value (filterFrequency params))
         (BiquadFilter.with_type "lowpass" BiquadFilter.create)) in
  let attackTime := 0.1 in
  let decayTime := 0.2 in
  let sustainLevel := melodyGain params * 0.7 in
  let releaseTime := 0.5 in
  let gain :=
    Gain.update (AudioParam.linearRampToValueAtTime 0 (currentTime + noteDuration))
    (Gain.update (AudioParam.setValueAtTime sustainLevel
                    (currentTime + noteDuration - releaseTime))
    (Gain.update (AudioParam.linearRampToValueAtTime sustainLevel
                    (currentTime + attackTime + decayTime))
    (Gain.update (AudioParam.linearRampToValueAtTime (melodyGain params)
                    (currentTime + attackTime))
    (Gain.update (AudioParam.set_value 0) Gain.create)))) in
  let reverbGain := Gain.update (AudioParam.set_value (reverbMix params)) Gain.create in
  let osc := Oscillator.stop (currentTime + noteDuration)
               (Oscillator.start currentTime osc) in
  {| note_osc := osc; note_gain := gain; note_filter := filter;
     note_reverbGain := reverbGain |}.

(** The voice after the two filter ramps of [updateDay]. *)
Definition ramped (params : SoundParams) (now : float) (d : OscData) : OscData :=
  with_filter
    (BiquadFilter.update_Q
       (AudioParam.linearRampToValueAtTime (filterQ params) (now + transitionTime)))
    (with_filter
       (BiquadFilter.update_frequency
          (AudioParam.linearRampToValueAtTime (filterFrequency params)
             (now + transitionTime)))
       d).

Section Methods.
(** [Math.sin], and the results of the successive calls of
    [Math.random()], are the platform's. *)
Variable Math_sin : float -> float.
Variable Math_random : nat -> float.

Definition random : M float :=
  fun m => (Normal (Math_random (draws m)),
            {| this := this m; melodyVoices := melodyVoices m; timers := timers m;
               frames := frames m; draws := S (draws m) |}).

Definition createReverb : M unit :=
  c <- get "audioContext" ;; ctx <- as_context c ;;
  set "reverbNode" (VConvolver Convolver.create) ;;
  set "reverbGain" (VGain Gain.create) ;;
  let sampleRate := AudioContext.sampleRate ctx in
  let length := sampleRate * 3 in
  let impulse :=
    {| Convolver.numberOfChannels := 2; Convolver.length := length;
       Convolver.sampleRate := sampleRate |} in
  r <- get "reverbNode" ;; _ <- as_convolver r ;;
  set "reverbNode" (VConvolver {| Convolver.buffer := Some impulse |}) ;;
  g <- get "reverbGain" ;; _ <- as_gain g ;;
  ret tt.

(** [platform] is what [new AudioContext()] yields: a context, or [None]
    when the constructor throws.  [resume()] is taken to resolve. *)
Definition init (platform : option AudioContext.t) : M unit :=
  a <- get "audioContext" ;;
  if truthy a then ret tt
  else
    try_catch (
      match platform with
      | None => throw DOMException
      | Some ctx =>
          set "audioContext" (VContext ctx) ;;
          match AudioContext.state ctx with
          | AudioContext.suspended => set "audioContext" (VContext (AudioContext.resume ctx))
          | AudioContext.running => ret tt
          end ;;
          set "masterGain" (VGain (Gain.update (AudioParam.set_value 0.2) Gain.create)) ;;
          createReverb
      end).

(** The callback of [this.padFrequencies.forEach] in [start]. *)
Definition createPad (params : SoundParams) (now : float) (freq : Value) (index : nat)
    : M unit :=
  freq <- as_number (Some freq) ;;
  pads <- get "padFrequencies" ;; n <- length_of pads ;;
  mg <- get "masterGain" ;; _ <- as_gain mg ;;
  rn <- get "reverbNode" ;; _ <- as_convolver rn ;;
  r <- random ;;
  a <- get "oscillators" ;; l <- as_array a ;;
  set "oscillators" (VArray (l ++ [VVoice (padVoice params now n freq r)])).

(** [playNote(noteIndex)] inside [playMelody(params)], whose variable
    [currentTime] the notes of one melody share. *)
Definition playNote (params : SoundParams) (currentTime : float) (noteIndex : nat)
    : M unit :=
  p <- get "isPlaying" ;;
  if negb (truthy p) then ret tt
  else
    notes <- get "melodyNotes" ;; l <- as_array notes ;;
    match l !! noteIndex with
    | Some (VNote freq duration) =>
        let nextNoteIndex := ((noteIndex + 1) mod List.length l)%nat in
        let noteDuration := duration * playbackRate params in
        mg <- get "masterGain" ;; _ <- as_gain mg ;;
        rn <- get "reverbNode" ;; _ <- as_convolver rn ;;
        add_melodyVoice (noteVoice params currentTime freq noteDuration) ;;
        setTimeout {| nextNoteIndex := nextNoteIndex;
                      melodyTime := currentTime + noteDuration;
                      melodyParams := params;
                      delay := noteDuration * 1000 |}
    | _ => throw TypeError
    end.

Definition playMelody (params : SoundParams) : M unit :=
  now <- currentTime ;;
  playNote params (now + 1.0) 0.

(** [modulate()] inside [startDetuneModulation]. *)
Definition modulate : M unit :=
  p <- get "isPlaying" ;;
  if negb (truthy p) then ret tt
  else
    d <- get "currentDay" ;; day <- as_number d ;;
    let params := getSoundParams day in
    time <- currentTime ;;
    a <- get "oscillators" ;; l <- as_array a ;;
    forEach (fun _ index =>
      oscData <- voice_at index ;;
      let drift :=
        Math_sin (time * detuneSpeed params + detuneOffset oscData) * detuneAmount params in
      set_voice index
        (with_osc (Oscillator.update_detune (AudioParam.set_value drift)) oscData)) l 0 ;;
    requestAnimationFrame.

Definition startDetuneModulation : M unit := modulate.

(** The callback of [this.oscillators.forEach] in [updateDay]. *)
Definition updateDay_voice (params : SoundParams) (now : float) (_ : Value) (index : nat)
    : M unit :=
  oscData <- voice_at index ;;
  let ramp v := AudioParam.linearRampToValueAtTime v (now + transitionTime) in
  let oscData := ramped params now oscData in
  set_voice index oscData ;;
  b <- get "baseFrequencies" ;; n <- length_of b ;;
  let volume := 0.15 / n in
  set_voice index
    (with_lfoGain (Gain.update (ramp (vibratoDepth params)))
    (with_lfo (Oscillator.update_frequency (ramp (vibratoSpeed params)))
    (with_reverbGain (Gain.update (ramp (reverbMix params)))
    (with_gain (Gain.update (ramp (volume * dryGain params))) oscData)))).

(** [if (this.noiseNode) { ... }]: [noiseNode] is [null] throughout; the
    guarded statements dereference [noiseNode.gain.gain] and
    [noiseNode.source], which no value of the instance provides. *)
Definition noise_branch : M unit :=
  n <- get "noiseNode" ;;
  if truthy n then throw TypeError else ret tt.

Definition updateDay (day : float) : M unit :=
  p <- get "isPlaying" ;; d <- get "currentDay" ;;
  if negb (truthy p) || strict_equal_num day d then ret tt
  else
    set "currentDay" (VNum day) ;;
    let params := getSoundParams day in
    now <- currentTime ;;
    a <- get "oscillators" ;; l <- as_array a ;;
    forEach (updateDay_voice params now) l 0 ;;
    noise_branch ;;
    rg <- get "reverbGain" ;; g <- as_gain rg ;;
    set "reverbGain"
      (VGain (Gain.update
         (AudioParam.linearRampToValueAtTime (reverbDecay params) (now + transitionTime)) g)).

Definition start (day : float) : M unit :=
  p <- get "isPlaying" ;;
  if truthy p then updateDay day
  else
    c <- get "audioContext" ;;
    if negb (truthy c) then ret tt
    else
      ctx <- as_context c ;;
      match AudioContext.state ctx with
      | AudioContext.suspended => set "audioContext" (VContext (AudioContext.resume ctx))
      | AudioContext.running => ret tt
      end ;;
      set "currentDay" (VNum day) ;;
      set "isPlaying" (VBool true) ;;
      let params := getSoundParams day in
      now <- currentTime ;;
      pf <- get "padFrequencies" ;; pads <- as_array pf ;;
      forEach (createPad params now) pads 0 ;;
      playMelody params ;;
      startDetuneModulation.

Definition stop : M unit :=
  p <- get "isPlaying" ;;
  if negb (truthy p) then ret tt
  else
    now <- currentTime ;;
    let fadeTime := 2.0 in
    a <- get "oscillators" ;; l <- as_array a ;;
    forEach (fun _ index =>
      oscData <- voice_at index ;;
      set_voice index
        (with_lfo (Oscillator.stop (now + fadeTime))
        (with_osc (Oscillator.stop (now + fadeTime))
        (with_gain (Gain.update (AudioParam.linearRampToValueAtTime 0 (now + fadeTime)))
           oscData)))) l 0 ;;
    noise_branch ;;
    set "oscillators" (VArray []) ;;
    set "isPlaying" (VBool false).

Definition toggle (day : float) : M unit :=
  p <- get "isPlaying" ;;
  if truthy p then stop else start day.

Definition setVolume (volume : float) : M unit :=
  mg <- get "masterGain" ;;
  if truthy mg then
    g <- as_gain mg ;;
    set "masterGain"
      (VGain (Gain.update (AudioParam.set_value (Math_max 0 (Math_min 1 volume))) g))
  else ret tt.

(** *** The engine in use *)

(** What happens to an instance: the calls of its interface, the
    callbacks it scheduled, and the audio clock moving on.  A call runs
    to its end before the next action: the [await]s of [init] and
    [start] are not interleaved with other calls. *)
Inductive Action :=
| Init (platform : option AudioContext.t)
| Start (day : Z)
| UpdateDay (day : Z)
| Stop
| Toggle (day : Z)
| SetVolume (volume : float)
| TimerFires (k : nat)
| FrameFires
| ClockReads (time : float).

Definition timer_fires (k : nat) : M unit :=
  fun m =>
    match timers m !! k with
    | None => (Normal tt, m)
    | Some t =>
        playNote (melodyParams t) (melodyTime t) (nextNoteIndex t)
          {| this := this m; melodyVoices := melodyVoices m;
             timers := take k (timers m) ++ drop (S k) (timers m);
             frames := frames m; draws := draws m |}
    end.

Definition frame_fires : M unit :=
  fun m =>
    match frames m with
    | O => (Normal tt, m)
    | S n =>
        modulate {| this := this m; melodyVoices := melodyVoices m; timers := timers m;
                    frames := n; draws := draws m |}
    end.

Definition clock_reads (time : float) : M unit :=
  c <- get "audioContext" ;;
  match c with
  | Some (VContext ctx) => set "audioContext" (VContext (AudioContext.at_time time ctx))
  | _ => ret tt
  end.

Definition perform (a : Action) : M unit :=
  match a with
  | Init platform => init platform
  | Start day => start (of_int day)
  | UpdateDay day => updateDay (of_int day)
  | Stop => stop
  | Toggle day => toggle (of_int day)
  | SetVolume volume => setVolume volume
  | TimerFires k => timer_fires k
  | FrameFires => frame_fires
  | ClockReads time => clock_reads time
  end.

(** The inputs the engine is meant for: days 1 to 31, a volume that is a
    number, a clock that is finite and not negative. *)
Definition valid_day (day : Z) : bool := ((1 <=? day) && (day <=? 31))%Z.

Definition valid_time (time : float) : bool := (0 <=? time) && (time <? infinity).

Definition valid (a : Action) : bool :=
  match a with
  | Init (Some ctx) =>
      valid_time (AudioContext.currentTime ctx)
      && valid_time (AudioContext.sampleRate ctx)
  | Init None => true
  | Start day | UpdateDay day | Toggle day => valid_day day
  | SetVolume volume => negb (is_nan volume)
  | ClockReads time => valid_time time
  | Stop | TimerFires _ | FrameFires => true
  end.

(** The machine after a sequence of actions; an action that throws leaves
    the machine as it was when the error was raised. *)
Fixpoint perform_all (l : list Action) (m : Machine) : Machine :=
  match l with
  | [] => m
  | a :: rest => perform_all rest (snd (perform a m))
  end.

Definition reachable (m : Machine) : Prop :=
  exists l, forallb valid l = true /\ m = perform_all l constructor.
End Methods.
(** *** The shape of the instance

    What every method can rely on, on any instance it can meet: the
    properties hold values of the kinds the constructor and [init] gave
    them, no property [baseFrequencies] exists, the three pad voices exist
    exactly while the engine plays, and the nodes made by [init] exist as
    soon as the context does. *)
Definition padFrequencies : Value :=
  VArray [VNum 130.81; VNum 164.81; VNum 196.00].

Definition melodyNotes : Value :=
  VArray [VNote 261.63 2.0; VNote 329.63 1.5; VNote 392.00 1.5; VNote 329.63 1.0;
          VNote 293.66 2.0; VNote 261.63 2.0; VNote 220.00 3.0; VNote 261.63 2.5].

Definition initialized (t : gmap string Value) : Prop :=
  exists c g rn rg,
    t !! "audioContext" = Some (VContext c) /\ t !! "masterGain" = Some (VGain g)
    /\ t !! "reverbNode" = Some (VConvolver rn) /\ t !! "reverbGain" = Some (VGain rg).

Definition uninitialized (t : gmap string Value) : Prop :=
  t !! "audioContext" = Some VNull /\ t !! "masterGain" = Some VNull
  /\ t !! "reverbNode" = Some VNull /\ t !! "isPlaying" = Some (VBool false).

Record shaped (m : Machine) : Prop := {
  shaped_baseFrequencies : this m !! "baseFrequencies" = None;
  shaped_noiseNode : this m !! "noiseNode" = Some VNull;
  shaped_padFrequencies : this m !! "padFrequencies" = Some padFrequencies;
  shaped_melodyNotes : this m !! "melodyNotes" = Some melodyNotes;
  shaped_currentDay : exists d, this m !! "currentDay" = Some (VNum d);
  shaped_oscillators :
    exists (b : bool) (ds : list OscData),
      this m !! "isPlaying" = Some (VBool b)
      /\ this m !! "oscillators" = Some (VArray (map VVoice ds))
      /\ List.length ds = if b then 3%nat else 0%nat;
  shaped_nodes : uninitialized (this m) \/ initialized (this m)
}.
(** *** Observations and a sample run *)

(** The cutoff parameters of the lowpass filters of the voices in
    [this.oscillators], and of the melody notes created so far. *)
Definition padFilterFrequencies (m : Machine) : list AudioParam.t :=
  match this m !! "oscillators" with
  | Some (VArray l) =>
      flat_map (fun v => match v with
                         | VVoice d => [BiquadFilter.frequency (filter d)]
                         | _ => []
                         end) l
  | _ => []
  end.

Definition noteFilterFrequencies (m : Machine) : list AudioParam.t :=
  List.map (fun v => BiquadFilter.frequency (note_filter v)) (melodyVoices m).

(** A platform: a context created suspended at time 0, a sine that is
    flat and a random source that always draws 0.5. *)
Definition sample_context : AudioContext.t :=
  {| AudioContext.state := AudioContext.suspended;
     AudioContext.currentTime := 0;
     AudioContext.sampleRate := 48000 |}.
Definition sample_sin (x : float) : float := 0.
Definition sample_random (k : nat) : float := 0.5.

(** [init()], [start(1)], five seconds of playing. *)
Definition sample_playing : Machine :=
  perform_all sample_sin sample_random
    [Init (Some sample_context); Start 1; ClockReads 5] constructor.

(** [init()] alone. *)
Definition sample_initialized : Machine :=
  perform_all sample_sin sample_random [Init (Some sample_context)] constructor.
End DementiaSound.


(** ** What the consumers of the curve need *)

Module Domain.
Import Curve.
Local Open Scope float_scope.

(** The map shader divides by the distance of the two edges of each
    [smoothstep], [1 - contrast]; it blends with [rgb_mix] and
    [mask_weight]; the blurs take a radius. *)
Definition shader_domain (p : VisualParams) : bool :=
  (0 <? hard_contrast p) && (hard_contrast p <? 1)
  && (0 <? mask_contrast p) && (mask_contrast p <? 1)
  && (0 <=? rgb_mix p) && (rgb_mix p <=? 1)
  && (0 <=? mask_weight p) && (mask_weight p <=? 1)
  && (0 <=? image_blur p) && (0 <=? map_blur p).

(** The gains are attenuations, the cutoff and the resonance of the
    lowpass filters are positive, and a note lasts: [playbackRate] scales
    the duration of every note and the delay of its timeout. *)
Definition audio_domain (p : SoundParams) : bool :=
  (0 <? filterFrequency p) && (0 <? filterQ p)
  && (0 <=? dryGain p) && (dryGain p <=? 1)
  && (0 <=? melodyGain p) && (melodyGain p <=? 1)
  && (0 <=? reverbMix p) && (reverbMix p <=? 1)
  && (0 <? playbackRate p).

Definition in_domain (d : Z) : bool :=
  shader_domain (getParams (JSNumber.of_int d))
  && audio_domain (getSoundParams (JSNumber.of_int d)).
End Domain.

(** ** Frames of the animation *)

Module Animation.
Import ShaderCalendar.

(** The actions of a running animation: frames, and the day set from the
    page; no image is loaded and the context is not restored. *)
Definition frame_action (a : Action) : bool :=
  match a with
  | Render | SetDay _ | Animate _ | StopAnimation => true
  | LoadImage _ _ | ContextRestored _ => false
  end.

Definition run (l : list Action) (s : State) : State :=
  fold_left (fun s a => perform a s) l s.

(** Every texel of the texture is [c]. *)
Definition flat_texture (t : GL.Texture) (c : vec4.t) : Prop :=
  forall x y, (0 <= x < GL.tex_width t)%Z -> (0 <= y < GL.tex_height t)%Z ->
    GL.texel t x y = c.

(** Every pixel of the image is [p]. *)
Definition flat_image (img : Image) (p : vec4.t) : Prop :=
  forall x y, (0 <= x < img_width img)%Z -> (0 <= y < img_height img)%Z ->
    pixel img x y = p.

(** The source buffer holds the texture [tex], drawn over the viewport:
    the texel [(x, y)] is [tex] sampled at the centre of the pixel and
    stored in eight bits a channel. *)
Definition source_blitted (s : State) (tex : GL.Texture) : Prop :=
  exists fbo_source,
    FBOs.source (fbos s) = Some fbo_source
    /\ forall x y, (0 <= x < width s)%Z -> (0 <= y < height s)%Z ->
         GL.texel fbo_source x y
         = vec4.map GL.to_unorm8
             (GL.texture2D tex
                (vec2.mk ((IZR x + 0.5) / IZR (width s)) ((IZR y + 0.5) / IZR (height s)))).

(** The image buffer holds what the displace buffer holds, over the
    viewport. *)
Definition copied_back (s : State) : Prop :=
  exists fbo_image fbo_displace,
    FBOs.image (fbos s) = Some fbo_image /\ FBOs.displace (fbos s) = Some fbo_displace
    /\ forall x y, (0 <= x < width s)%Z -> (0 <= y < height s)%Z ->
         GL.texel fbo_image x y = GL.texel fbo_displace x y.

(** The viewport is not empty, the buffers are in place and of its size,
    and the source and image buffers hold the colour [c] everywhere. *)
Definition flat_field (s : State) (c : vec4.t) : Prop :=
  (1 <= width s)%Z /\ (1 <= height s)%Z /\ sourceTexture s <> None
  /\ exists fs fi fm fd,
       fbos s = {| FBOs.source := Some fs; FBOs.image := Some fi; FBOs.map := Some fm;
                   FBOs.displace := Some fd |}
       /\ (GL.tex_width fs = width s /\ GL.tex_height fs = height s)
       /\ (GL.tex_width fi = width s /\ GL.tex_height fi = height s)
       /\ (GL.tex_width fm = width s /\ GL.tex_height fm = height s)
       /\ (GL.tex_width fd = width s /\ GL.tex_height fd = height s)
       /\ flat_texture fs c /\ flat_texture fi c.

(** The texture [createTexture] uploads: the rows of the image, flipped. *)
Definition uploaded (img : Image) : GL.Texture :=
  {| GL.tex_width := img_width img; GL.tex_height := img_height img;
     GL.texel := fun x y => pixel img x (img_height img - 1 - y) |}.

(** A grey 3 x 2 image, for examples. *)
Definition sample_flat_image : Image :=
  {| src := "memory_01/2.jpg"; img_width := 3; img_height := 2;
     pixel := fun _ _ => vec4.mk 0.5 0.5 0.5 1 |}.

(** The calendar after the first image was loaded for day 7 and two
    frames were drawn. *)
Definition sample_rendered : State :=
  run [LoadImage (Some sample_image) 7; Render; Render]
    (constructor 0.5 (GL.blank 300 150)).

(** The calendar after the first image was loaded for day 7. *)
Definition sample_loaded : State :=
  run [LoadImage (Some sample_image) 7] (constructor 0.5 (GL.blank 300 150)).
End Animation.

(** ** The sound engine while it plays *)

Module Playing.
Import JSNumber Curve DementiaSound.
Local Open Scope float_scope.

(** The voice after [modulate] assigned the drift to
    [oscData.osc.detune.value]. *)
Definition drifted (Math_sin : float -> float) (params : SoundParams) (time : float)
    (d : OscData) : OscData :=
  with_osc
    (Oscillator.update_detune
       (AudioParam.set_value
          (Math_sin (time * detuneSpeed params + detuneOffset d) * detuneAmount params)))
    d.

(** The voice after the fade-out of [stop]. *)
Definition faded (now : float) (d : OscData) : OscData :=
  with_lfo (Oscillator.stop (now + 2.0))
    (with_osc (Oscillator.stop (now + 2.0))
       (with_gain (Gain.update (AudioParam.linearRampToValueAtTime 0 (now + 2.0))) d)).

(** [this.melodyNotes[i]] *)
Definition note_at (i : nat) : option Value :=
  match melodyNotes with
  | VArray l => l !! i
  | _ => None
  end.

(** The timer [playNote(i)] sets for the next note, in a melody that runs
    with [params] and has reached [time]. *)
Definition nextTimer (params : SoundParams) (time : float) (i : nat) (duration : float)
    : Timer :=
  {| nextNoteIndex := ((i + 1) mod 8)%nat;
     melodyTime := time + duration * playbackRate params;
     melodyParams := params;
     delay := duration * playbackRate params * 1000 |}.

(** The pending timeouts without the one that fired. *)
Definition without (k : nat) (ts : list Timer) : list Timer := take k ts ++ drop (S k) ts.

(** The oscillator of the voice is as [start] created it for the tone
    [freq]: a sine whose frequency parameter holds [freq] with nothing
    scheduled on it; [baseFreq] is [freq] and [isPad] is set. *)
Definition as_created (freq : float) (d : OscData) : Prop :=
  Oscillator.type (osc d) = "sine"
  /\ Oscillator.frequency (osc d) = AudioParam.make freq
  /\ baseFreq d = freq /\ isPad d = true.

(** [this.oscillators] is empty, or holds three voices whose oscillators
    are as created for C3, E3 and G3. *)
Definition pads_as_created (m : Machine) : Prop :=
  this m !! "oscillators" = Some (VArray [])
  \/ exists d1 d2 d3,
       this m !! "oscillators" = Some (VArray [VVoice d1; VVoice d2; VVoice d3])
       /\ as_created 130.81 d1 /\ as_created 164.81 d2 /\ as_created 196.00 d3.

(** Every pending timeout is set for one of the eight notes. *)
Definition timers_in_range (m : Machine) : Prop :=
  Forall (fun t => (nextNoteIndex t < 8)%nat) (timers m).

(** The calls that reach the body of [updateDay]: [updateDay(day)], and
    [start(day)] on an engine that plays. *)
Definition reaches_updateDay (a : Action) : option Z :=
  match a with
  | UpdateDay day | Start day => Some day
  | _ => None
  end.

(** Every action but an [init()] that obtains an audio context. *)
Definition no_context (a : Action) : bool :=
  match a with
  | Init (Some _) => false
  | _ => true
  end.
End Playing.

(** ** The page: [displayImage]

    The page holds one calendar and, once [initSoundSystem] has run, one
    sound engine; [displayImage(day)] drives both. *)

Module Page.
Import JSNumber.

Record t := {
  shaderCalendar : ShaderCalendar.State;
  soundSystem : option DementiaSound.Machine     (* [null] until [initSoundSystem] *)
}.

(** How the promise of an [async] function ends. *)
Inductive Settled :=
| Fulfilled (p : t)
| Rejected (p : t)
| Pending (p : t).

Definition page_of (r : Settled) : t :=
  match r with Fulfilled p | Rejected p | Pending p => p end.

(** [displayImage(day)] on a page whose calendar exists: [decoded] is what
    the browser makes of [memory_01/${day}.jpg], [id] the handle
    [requestAnimationFrame] returns should the animation be started. *)
Definition displayImage (decoded : option ShaderCalendar.Image) (id : nat) (day : Z)
    (p : t) : Settled :=
  let sound := soundSystem p in
  match ShaderCalendar.loadImage decoded (of_int day) (shaderCalendar p) with
  | ShaderCalendar.Rejected s => Rejected {| shaderCalendar := s; soundSystem := sound |}
  | ShaderCalendar.Pending s => Pending {| shaderCalendar := s; soundSystem := sound |}
  | ShaderCalendar.Resolved s =>
      let started :=
        match ShaderCalendar.animationId s with
        | None => ShaderCalendar.animate id s
        | Some _ => ShaderCalendar.Done s
        end in
      match started with
      | ShaderCalendar.TypeError s => Rejected {| shaderCalendar := s; soundSystem := sound |}
      | ShaderCalendar.Done s =>
          match sound with
          | None => Fulfilled {| shaderCalendar := s; soundSystem := None |}
          | Some m =>
              if DementiaSound.truthy (DementiaSound.this m !! "isPlaying")
              then
                match DementiaSound.updateDay (of_int day) m with
                | (DementiaSound.Normal _, m) =>
                    Fulfilled {| shaderCalendar := s; soundSystem := Some m |}
                | (DementiaSound.Throw _, m) =>
                    Rejected {| shaderCalendar := s; soundSystem := Some m |}
                end
              else Fulfilled {| shaderCalendar := s; soundSystem := Some m |}
          end
      end
  end.

(** The sound engine plays and is on another day than [day]. *)
Definition plays_other_day (day : Z) (p : t) : bool :=
  match soundSystem p with
  | None => false
  | Some m =>
      DementiaSound.truthy (DementiaSound.this m !! "isPlaying")
      && negb (DementiaSound.strict_equal_num (of_int day)
                 (DementiaSound.this m !! "currentDay"))
  end.

(** A page as a visitor can bring it about. *)
Definition reachable (Math_sin : float -> float) (Math_random : nat -> float) (p : t)
    : Prop :=
  ShaderCalendar.reachable (shaderCalendar p)
  /\ match soundSystem p with
     | None => True
     | Some m => DementiaSound.reachable Math_sin Math_random m
     end.

(** The page with the first image shown and the sound playing for five
    seconds. *)
Definition sample_page : t :=
  {| shaderCalendar :=
       Animation.run
         [ShaderCalendar.LoadImage (Some ShaderCalendar.sample_image) 7;
          ShaderCalendar.Animate 1]
         (ShaderCalendar.constructor 0.5 (GL.blank 300 150));
     soundSystem := Some DementiaSound.sample_playing |}.
End Page.

(** ** The page: which day is shown

    [selectedDay] and the item [dementiaMaxDay] of [localStorage], which
    holds what the page stored there on an earlier visit, or nothing.  The
    clock enters through [currentDay] and [daysInMonth], the date picker
    through the day it yields and whether its date lies in the current
    month. *)

Module Navigation.
Local Open Scope Z_scope.

Record t := {
  selectedDay : Z;
  dementiaMaxDay : option Z
}.

(** [savedMaxDay ? parseInt(savedMaxDay) : 0] *)
Definition maxDayReached (p : t) : Z :=
  match dementiaMaxDay p with
  | Some d => d
  | None => 0
  end.

Definition with_selectedDay (d : Z) (p : t) : t :=
  {| selectedDay := d; dementiaMaxDay := dementiaMaxDay p |}.

(** [updateUI()]: the page after it, and the day it hands to
    [displayImage]. *)
Definition updateUI (p : t) : t * Z :=
  let p :=
    if maxDayReached p <? selectedDay p
    then {| selectedDay := selectedDay p; dementiaMaxDay := Some (selectedDay p) |}
    else p in
  (p, selectedDay p).

(** [nextBtn.disabled], as [updateUI] sets it; [prevBtn.disabled] is set
    to [true] by every [updateUI]. *)
Definition nextBtn_disabled (p : t) : bool := 31 <=? selectedDay p.

Definition shown (r : t * Z) : t * option Z := (fst r, Some (snd r)).

Definition goToPreviousDay (p : t) : t * option Z :=
  if 1 <? selectedDay p then shown (updateUI (with_selectedDay (selectedDay p - 1) p))
  else (p, None).

Definition goToNextDay (p : t) : t * option Z :=
  if selectedDay p <? 31 then shown (updateUI (with_selectedDay (selectedDay p + 1) p))
  else (p, None).

(** [goToDate(dateString)]: [sameMonth] is
    [selectedDate.getFullYear() === year && selectedDate.getMonth() === month]
    and [requestedDay] is [selectedDate.getDate()]. *)
Definition goToDate (sameMonth : bool) (requestedDay : Z) (p : t) : t * option Z :=
  if sameMonth && (maxDayReached p <=? requestedDay) && (requestedDay <=? 31)
  then shown (updateUI (with_selectedDay requestedDay p))
  else (p, None).

(** [init()], up to the day it shows. *)
Definition init (currentDay daysInMonth : Z) (saved : option Z) : t * Z :=
  let maxDayReached := match saved with Some d => d | None => 0 end in
  let selectedDay := Z.max currentDay maxDayReached in
  let selectedDay := if daysInMonth <? selectedDay then daysInMonth else selectedDay in
  updateUI {| selectedDay := selectedDay; dementiaMaxDay := Some selectedDay |}.

(** What a visitor can do once [init] has run: the previous-day button is
    disabled. *)
Inductive Event :=
| NextClick
| DateChange (sameMonth : bool) (requestedDay : Z).

Definition handle (e : Event) (p : t) : t * option Z :=
  match e with
  | NextClick => goToNextDay p
  | DateChange sameMonth requestedDay => goToDate sameMonth requestedDay p
  end.

Definition reachable (p : t) : Prop :=
  exists currentDay daysInMonth saved events,
    1 <= currentDay <= daysInMonth /\ daysInMonth <= 31
    /\ p = fold_left (fun p e => fst (handle e p)) events
             (fst (init currentDay daysInMonth saved)).
End Navigation.
(* ===================================================================== *)
(** * Part II: properties                                                  *)
(* ===================================================================== *)

Module CurveFacts.
Import JSNumber Curve.
Local Open Scope float_scope.

Lemma in_days (d : Z) : (1 <= d <= 31)%Z -> In d days.
Proof.
  intros H. unfold days. apply in_map_iff. exists (Z.to_nat d). split.
  - lia.
  - apply in_seq. lia.
Qed.

Lemma monotone_on_days_sound {P} (curve : float -> P) fields :
  monotone_on_days curve fields = true ->
  forall d1 d2, (1 <= d1 <= d2 /\ d2 <= 31)%Z ->
  Forall (fun nf => monotone_between (fun d => snd nf (curve d)) d1 d2 = true) fields.
Proof.
  intros Hall d1 d2 [[H1 H12] H2]. unfold monotone_on_days in Hall.
  rewrite forallb_forall in Hall.
  specialize (Hall d1 (in_days d1 ltac:(lia))).
  rewrite forallb_forall in Hall.
  specialize (Hall d2 (in_days d2 ltac:(lia))).
  destruct (Z.leb_spec d1 d2) as [_|Hlt]; [|lia].
  rewrite forallb_forall in Hall. apply List.Forall_forall. exact Hall.
Qed.

Lemma visual_monotone_on_days : monotone_on_days getParams visual_fields = true.
Proof. vm_compute. reflexivity. Qed.

Lemma sound_monotone_on_days : monotone_on_days getSoundParams sound_fields = true.
Proof. vm_compute. reflexivity. Qed.

(** C1, as stated, fails at day 31 for [mask_weight]: [0.8 - 1 * 0.5]
    rounds to the double just above [0.3], so the value differs from the
    documented endpoint. *)
Lemma mask_weight_day31_off_endpoint :
  ~ Forall (hits_endpoints getParams) documented_visual.
Proof.
  intros H. rewrite List.Forall_forall in H.
  destruct (H {| ep_name := "mask_weight"; ep_field := mask_weight;
                 ep_day1 := 0.8; ep_day31 := 0.3 |}) as [_ E].
  - unfold documented_visual. do 10 right. left. reflexivity.
  - assert (Hb : (mask_weight (getParams 31) =? 0.3) = true)
      by (cbv [ep_field ep_day31] in E; rewrite E; reflexivity).
    vm_compute in Hb. discriminate Hb.
Qed.

(** C1 (amended): at day 1 and day 31 every documented endpoint of the
    audio curve is hit exactly (reverbMix 0.10 and 0.75 among them), and
    so is every documented endpoint of the visual curve (image_blur 0.1 and
    32.0 among them) except [mask_weight] at day 31, which evaluates to
    0.30000000000000004, the double next above the documented 0.3. *)
Theorem endpoints_documented :
  Forall (hits_endpoints getSoundParams) documented_sound
  /\ Forall (hits_endpoints getParams)
       (List.filter (fun e => negb (is_named "mask_weight" e)) documented_visual)
  /\ mask_weight (getParams 1) = 0.8
  /\ mask_weight (getParams 31) = 0.30000000000000004
  /\ next_up 0.3 = 0.30000000000000004.
Proof.
  repeat split; try (vm_compute; reflexivity).
  - repeat (apply List.Forall_cons; [split; vm_compute; reflexivity|]).
    apply List.Forall_nil.
  - cbv [List.filter documented_visual is_named ep_name String.eqb Ascii.eqb Bool.eqb negb].
    repeat (apply List.Forall_cons; [split; vm_compute; reflexivity|]).
    apply List.Forall_nil.
Qed.

(** The parameters of the audio curve that carry no documented endpoints,
    at day 1 and day 31. *)
Lemma undocumented_sound_endpoints :
  let first := getSoundParams 1 in
  let last := getSoundParams 31 in
  (filterQ first, detuneSpeed first, melodyGain first, vibratoDepth first)
    = (0.7, 0.05, 0.3, 0.3)
  /\ (filterQ last, detuneSpeed last, melodyGain last, vibratoDepth last)
    = (0.7, 0.2, 0.19999999999999998, 1).
Proof. split; vm_compute; reflexivity. Qed.

(** C2: between any two days [1 <= d1 <= d2 <= 31] every parameter of
    [getParams] and of [getSoundParams] moves in the direction of its
    endpoints: it does not decrease when its day-31 value exceeds its day-1
    value, and does not increase otherwise. *)
Theorem curve_monotone (d1 d2 : Z) (H : (1 <= d1 <= d2 /\ d2 <= 31)%Z) :
  Forall (fun nf => monotone_between (fun d => snd nf (getParams d)) d1 d2 = true)
    visual_fields
  /\ Forall (fun nf => monotone_between (fun d => snd nf (getSoundParams d)) d1 d2 = true)
    sound_fields.
Proof.
  split.
  - apply monotone_on_days_sound; [exact visual_monotone_on_days | exact H].
  - apply monotone_on_days_sound; [exact sound_monotone_on_days | exact H].
Qed.

Lemma curve_monotone_witness :
  (1 <= 3 <= 17 /\ 17 <= 31)%Z
  /\ Forall (fun nf => monotone_between (fun d => snd nf (getParams d)) 3 17 = true)
       visual_fields
  /\ Forall (fun nf => monotone_between (fun d => snd nf (getSoundParams d)) 3 17 = true)
       sound_fields.
Proof. split; [lia | apply (curve_monotone 3 17); lia]. Defined.
End CurveFacts.

(** ** The sound engine *)

Module SoundFacts.
Import JSNumber Curve DementiaSound.
Local Open Scope float_scope.

(** *** Clamping *)

Lemma Prim2SF_zero : Prim2SF 0 = S754_zero false.
Proof. vm_compute. reflexivity. Qed.

Lemma Prim2SF_one : Prim2SF 1 = S754_finite false 4503599627370496 (-52).
Proof. vm_compute. reflexivity. Qed.

Lemma not_nan_Prim2SF (v : float) : is_nan v = false -> Prim2SF v <> S754_nan.
Proof.
  unfold is_nan. rewrite FloatAxioms.eqb_spec. intros H E. rewrite E in H. discriminate H.
Qed.

Lemma above_one_positive (v : float) : (1 <? v) = true -> (0 <? v) = true.
Proof.
  rewrite !FloatAxioms.ltb_spec, Prim2SF_zero, Prim2SF_one.
  destruct (Prim2SF v) as [s|s| |s m e]; try discriminate.
  - destruct s; [discriminate | reflexivity].
  - destruct s; [discriminate | reflexivity].
Qed.

Lemma positive_nonneg (v : float) : (0 <? v) = true -> (0 <=? v) = true.
Proof.
  rewrite FloatAxioms.ltb_spec, FloatAxioms.leb_spec, Prim2SF_zero.
  destruct (Prim2SF v) as [s|s| |s m e]; try discriminate.
  - destruct s; [discriminate | reflexivity].
  - destruct s; [discriminate | reflexivity].
Qed.

Lemma not_above_one (v : float) :
  is_nan v = false -> (1 <? v) = false -> (v <=? 1) = true.
Proof.
  intros Hnan. apply not_nan_Prim2SF in Hnan. revert Hnan.
  rewrite FloatAxioms.ltb_spec, FloatAxioms.leb_spec, Prim2SF_one.
  destruct (Prim2SF v) as [s|s| |s m e]; intros Hnan; try congruence.
  - reflexivity.
  - destruct s; [reflexivity | discriminate].
  - destruct s; [reflexivity |].
    unfold SFltb, SFleb, SFcompare.
    rewrite (Z.compare_antisym e (-52)%Z).
    destruct (e ?= -52)%Z; try reflexivity; try discriminate.
    unfold CompOpp.
    rewrite !Pos.compare_cont_spec.
    rewrite (Pos.compare_antisym m 4503599627370496%positive).
    destruct (m ?= 4503599627370496)%positive; try reflexivity; discriminate.
Qed.

Lemma Math_min_one (v : float) :
  is_nan v = false -> Math_min 1 v = if 1 <? v then 1 else v.
Proof.
  intros Hnan. unfold Math_min. rewrite Hnan.
  change (is_nan 1) with false. change (is_neg_zero 1) with false.
  cbv [orb]. destruct (1 <? v); [reflexivity |]. destruct (v <? 1); reflexivity.
Qed.

Lemma Math_max_zero (v : float) :
  is_nan v = false -> Math_max 0 v = if 0 <? v then v else 0.
Proof.
  intros Hnan. unfold Math_max. rewrite Hnan.
  change (is_nan 0) with false. change (is_neg_zero 0) with false.
  cbv [orb]. destruct (0 <? v); [reflexivity |]. destruct (v <? 0); reflexivity.
Qed.

(** The clamp as the code writes it, [Math.max(0, Math.min(1, v))] *)
Lemma clamp_value (v : float) :
  is_nan v = false ->
  Math_max 0 (Math_min 1 v) = if 1 <? v then 1 else if 0 <? v then v else 0.
Proof.
  intros Hnan. rewrite (Math_min_one v Hnan).
  destruct (1 <? v) eqn:A.
  - vm_compute. reflexivity.
  - apply Math_max_zero, Hnan.
Qed.

(** ... is the clamp [min(1, max(0, v))]. *)
Lemma clamp_commutes (v : float) :
  is_nan v = false -> Math_max 0 (Math_min 1 v) = Math_min 1 (Math_max 0 v).
Proof.
  intros Hnan. rewrite (clamp_value v Hnan), (Math_max_zero v Hnan).
  destruct (0 <? v) eqn:C.
  - symmetry. apply Math_min_one, Hnan.
  - destruct (1 <? v) eqn:A.
    + apply above_one_positive in A. congruence.
    + vm_compute. reflexivity.
Qed.

Lemma clamp_range (v : float) :
  is_nan v = false ->
  (0 <=? Math_max 0 (Math_min 1 v)) = true /\ (Math_max 0 (Math_min 1 v) <=? 1) = true.
Proof.
  intros Hnan. rewrite (clamp_value v Hnan).
  destruct (1 <? v) eqn:A; [split; reflexivity |].
  destruct (0 <? v) eqn:C; [| split; reflexivity].
  split; [apply positive_nonneg, C | apply not_above_one; assumption].
Qed.

(** C10: for every number [v] that is not [NaN], [setVolume(v)] on an
    engine whose master gain exists stores [min(1, max(0, v))] in the gain
    and changes nothing else, and that value lies in [0, 1]; on an engine
    that was not initialized ([masterGain] is [null]) nothing changes. *)
Theorem setVolume_clamps (m : Machine) (v : float) (g : Gain.t)
    (Hv : is_nan v = false) :
  (this m !! "masterGain" = Some (VGain g) ->
     setVolume v m =
       (Normal tt,
        with_this (insert "masterGain"
          (VGain {| Gain.gain := AudioParam.set_value (Math_min 1 (Math_max 0 v)) (Gain.gain g) |}))
          m)
     /\ (0 <=? Math_min 1 (Math_max 0 v)) = true
     /\ (Math_min 1 (Math_max 0 v) <=? 1) = true)
  /\ (this m !! "masterGain" = Some VNull -> setVolume v m = (Normal tt, m)).
Proof.
  split; intros Hg.
  - rewrite <- (clamp_commutes v Hv). split; [| apply clamp_range, Hv].
    unfold setVolume, bind, get. rewrite Hg. reflexivity.
  - unfold setVolume, bind, get. rewrite Hg. reflexivity.
Qed.
(** *** Running the statements of a method *)

Section Run.
Context {A B : Type}.

Lemma run_get (k : string) (f : option Value -> M B) (m : Machine) :
  bind (get k) f m = f (this m !! k) m.
Proof. reflexivity. Qed.

Lemma run_set (k : string) (v : Value) (f : unit -> M B) (m : Machine) :
  bind (set k v) f m = f tt (with_this (insert k v) m).
Proof. reflexivity. Qed.

Lemma run_ret (a : A) (f : A -> M B) (m : Machine) : bind (ret a) f m = f a m.
Proof. reflexivity. Qed.

Lemma run_throw (e : Error) (f : A -> M B) (m : Machine) :
  bind (throw e) f m = (Throw e, m).
Proof. reflexivity. Qed.

Lemma run_bind {C} (c : M C) (g : C -> M A) (f : A -> M B) (m : Machine) :
  bind (bind c g) f m = bind c (fun x => bind (g x) f) m.
Proof. unfold bind. destruct (c m) as [[x|e] m']; reflexivity. Qed.
End Run.

Lemma run_random {B} (R : nat -> float) (f : float -> M B) (m : Machine) :
  bind (random R) f m =
    f (R (draws m))
      {| this := this m; melodyVoices := melodyVoices m; timers := timers m;
         frames := frames m; draws := S (draws m) |}.
Proof. reflexivity. Qed.

Lemma run_add_melodyVoice {B} (v : MelodyVoice) (f : unit -> M B) (m : Machine) :
  bind (add_melodyVoice v) f m =
    f tt {| this := this m; melodyVoices := melodyVoices m ++ [v]; timers := timers m;
            frames := frames m; draws := draws m |}.
Proof. reflexivity. Qed.

Lemma run_setTimeout {B} (t : Timer) (f : unit -> M B) (m : Machine) :
  bind (setTimeout t) f m =
    f tt {| this := this m; melodyVoices := melodyVoices m; timers := timers m ++ [t];
            frames := frames m; draws := draws m |}.
Proof. reflexivity. Qed.

Lemma this_with_this f m : this (with_this f m) = f (this m).
Proof. reflexivity. Qed.

Lemma lookup_head {X} (x : X) (l : list X) : (x :: l) !! 0%nat = Some x.
Proof. reflexivity. Qed.

Lemma lookup_tail {X} (x : X) (l : list X) (i : nat) : (x :: l) !! S i = l !! i.
Proof. reflexivity. Qed.

Lemma insert_head {X} (x y : X) (l : list X) : <[0%nat := y]> (x :: l) = y :: l.
Proof. reflexivity. Qed.

Lemma insert_tail {X} (x y : X) (l : list X) (i : nat) :
  <[S i := y]> (x :: l) = x :: <[i := y]> l.
Proof. reflexivity. Qed.

Ltac look :=
  repeat first
    [ rewrite this_with_this
    | progress cbn [this melodyVoices timers frames draws]
    | rewrite lookup_insert_eq
    | rewrite lookup_insert_ne by done
    | rewrite lookup_head
    | rewrite lookup_tail
    | rewrite insert_head
    | rewrite insert_tail
    | match goal with
      | H : this ?m !! ?k = _ |- context [this ?m !! ?k] => rewrite H
      end ].

Ltac exec :=
  repeat first
    [ rewrite run_bind
    | rewrite run_get
    | rewrite run_set
    | rewrite run_ret
    | rewrite run_throw
    | rewrite run_random
    | rewrite run_add_melodyVoice
    | rewrite run_setTimeout
    | progress look
    | progress cbn [truthy strict_equal_num length_of as_context as_gain as_convolver
                    as_array as_number as_voice negb orb andb forEach List.map List.app
                    fst snd]
    | progress unfold currentTime, voice_at, set_voice, noise_branch ].

(** The last statement of a method. *)
Ltac finish :=
  repeat first
    [ progress unfold ret, throw, set, get
    | progress look
    | progress cbn [truthy strict_equal_num length_of as_context as_gain as_convolver
                    as_array as_number as_voice negb orb andb fst snd] ].

Lemma constructor_shaped : shaped constructor.
Proof.
  split; try (vm_compute; reflexivity).
  - exists 1. reflexivity.
  - exists false, []. repeat split; reflexivity.
  - left. repeat split; reflexivity.
Qed.

(** [updateDay] on a playing engine, for a new day: the callback of the
    first voice schedules the two filter ramps and raises at
    [this.baseFrequencies.length]. *)
Lemma updateDay_throws (m : Machine) (day : float) (c : AudioContext.t)
    (d1 : OscData) (rest : list Value) :
  this m !! "isPlaying" = Some (VBool true) ->
  strict_equal_num day (this m !! "currentDay") = false ->
  this m !! "audioContext" = Some (VContext c) ->
  this m !! "oscillators" = Some (VArray (VVoice d1 :: rest)) ->
  this m !! "baseFrequencies" = None ->
  updateDay day m =
    (Throw TypeError,
     with_this
       (insert "oscillators"
          (VArray (VVoice (ramped (getSoundParams day) (AudioContext.currentTime c) d1)
                   :: rest)))
       (with_this (insert "currentDay" (VNum day)) m)).
Proof.
  intros Hp Hd Hc Ho Hb. unfold updateDay. exec. rewrite Hd. exec.
  unfold updateDay_voice at 1. exec. reflexivity.
Qed.
Lemma three_voices (ds : list OscData) :
  List.length ds = 3%nat -> exists d1 d2 d3, ds = [d1; d2; d3].
Proof.
  destruct ds as [|d1 [|d2 [|d3 [|d4 ds]]]]; try discriminate. intros _. eauto.
Qed.

Lemma playing_initialized (m : Machine) :
  this m !! "isPlaying" = Some (VBool true) ->
  uninitialized (this m) \/ initialized (this m) -> initialized (this m).
Proof. intros Hp [(_ & _ & _ & Hx)|Hi]; [congruence | exact Hi]. Qed.

Lemma updateDay_shaped (m : Machine) (day : float) :
  shaped m -> shaped (snd (updateDay day m)).
Proof.
  intros Hm. pose proof Hm as [Hb Hn Hp Hno [d Hd] (b & ds & Hpl & Ho & Hlen) Hnodes].
  destruct b.
  - destruct (strict_equal_num day (this m !! "currentDay")) eqn:E.
    + unfold updateDay. exec. rewrite Hd in E. cbn [strict_equal_num] in E.
      rewrite E. exact Hm.
    + destruct (three_voices ds Hlen) as (d1 & d2 & d3 & ->).
      destruct (playing_initialized m Hpl Hnodes) as (c & g & rn & rg & Hc & Hg & Hrn & Hrg).
      rewrite (updateDay_throws m day c d1 _ Hpl E Hc Ho Hb). cbn [snd].
      split; cbn [this with_this]; look; try reflexivity.
      * eauto.
      * exists true, [ramped (getSoundParams day) (AudioContext.currentTime c) d1; d2; d3].
        look. repeat split; reflexivity.
      * right. exists c, g, rn, rg. look. repeat split; reflexivity.
  - unfold updateDay. exec. exact Hm.
Qed.

Lemma setVolume_shaped (m : Machine) (v : float) :
  shaped m -> shaped (snd (setVolume v m)).
Proof.
  intros Hm. pose proof Hm as [Hb Hn Hp Hno [d Hd] (b & ds & Hpl & Ho & Hlen) Hnodes].
  unfold setVolume.
  destruct Hnodes as [(Hc & Hg & Hrn & Hx)|(c & g & rn & rg & Hc & Hg & Hrn & Hrg)]; exec.
  - exact Hm.
  - finish. cbn [snd]. split; cbn [this with_this]; look; try reflexivity.
    + eauto.
    + exists b, ds. look. repeat split; assumption.
    + right. do 4 eexists. look. repeat split; reflexivity.
Qed.

Lemma clock_reads_shaped (m : Machine) (time : float) :
  shaped m -> shaped (snd (clock_reads time m)).
Proof.
  intros Hm. pose proof Hm as [Hb Hn Hp Hno [d Hd] (b & ds & Hpl & Ho & Hlen) Hnodes].
  unfold clock_reads.
  destruct Hnodes as [(Hc & Hg & Hrn & Hx)|(c & g & rn & rg & Hc & Hg & Hrn & Hrg)]; exec.
  - exact Hm.
  - finish. cbn [snd]. split; cbn [this with_this]; look; try reflexivity.
    + eauto.
    + exists b, ds. look. repeat split; assumption.
    + right. do 4 eexists. look. repeat split; reflexivity.
Qed.
Lemma shaped_this (m m' : Machine) : this m' = this m -> shaped m -> shaped m'.
Proof. intros E [Hb Hn Hp Hno Hd Ho Hnodes]. split; rewrite E; assumption. Qed.

Lemma no_voices (ds : list OscData) : List.length ds = 0%nat -> ds = [].
Proof. destruct ds; [reflexivity | discriminate]. Qed.

Lemma init_shaped (m : Machine) (platform : option AudioContext.t) :
  shaped m -> shaped (snd (init platform m)).
Proof.
  intros Hm. pose proof Hm as [Hb Hn Hp Hno [d Hd] (b & ds & Hpl & Ho & Hlen) Hnodes].
  unfold init.
  destruct Hnodes as [(Hc & Hg & Hrn & Hx)|(c & g & rn & rg & Hc & Hg & Hrn & Hrg)]; exec.
  2: exact Hm.
  unfold try_catch. destruct platform as [ctx|]; [| exact Hm].
  assert (b = false) as -> by congruence.
  destruct (AudioContext.state ctx); unfold createReverb; exec; finish; cbn [snd].
  all: split; cbn [this with_this]; look; try reflexivity.
  all: first [ solve [eauto]
             | exists false, ds; look; repeat split; assumption
             | right; do 4 eexists; look; repeat split; reflexivity ].
Qed.

Lemma stop_shaped (m : Machine) : shaped m -> shaped (snd (stop m)).
Proof.
  intros Hm. pose proof Hm as [Hb Hn Hp Hno [d Hd] (b & ds & Hpl & Ho & Hlen) Hnodes].
  unfold stop. exec. destruct b; exec; [| exact Hm].
  destruct (three_voices ds Hlen) as (d1 & d2 & d3 & ->).
  destruct (playing_initialized m Hpl Hnodes) as (c & g & rn & rg & Hc & Hg & Hrn & Hrg).
  exec. finish. cbn [snd].
  split; cbn [this with_this]; look; try reflexivity.
  - eauto.
  - exists false, []. look. repeat split; reflexivity.
  - right. exists c, g, rn, rg. look. repeat split; reflexivity.
Qed.

Lemma playNote_this (params : SoundParams) (time : float) (i : nat) (m : Machine) :
  this (snd (playNote params time i m)) = this m.
Proof.
  unfold playNote. exec.
  destruct (truthy (this m !! "isPlaying")); cbn [negb]; [| reflexivity].
  exec.
  destruct (this m !! "melodyNotes") as [[| |?|?|elems|? ?|?|?|?|?]|]; exec;
    try reflexivity.
  destruct (elems !! i) as [[]|]; exec; try reflexivity.
  destruct (this m !! "masterGain") as [[]|]; exec; try reflexivity.
  destruct (this m !! "reverbNode") as [[]|]; exec; reflexivity.
Qed.

Lemma timer_fires_shaped (m : Machine) (k : nat) :
  shaped m -> shaped (snd (timer_fires k m)).
Proof.
  intros Hm. unfold timer_fires. destruct (timers m !! k) as [t|]; [| exact Hm].
  eapply shaped_this; [| exact Hm]. rewrite playNote_this. reflexivity.
Qed.
Lemma playMelody_this (params : SoundParams) (m : Machine) :
  this (snd (playMelody params m)) = this m.
Proof.
  unfold playMelody. exec.
  destruct (this m !! "audioContext") as [[]|]; exec; try reflexivity.
  apply playNote_this.
Qed.

Lemma bind_shaped {A B} (c : M A) (f : A -> M B) (m : Machine) :
  shaped (snd (c m)) -> (forall a m', shaped m' -> shaped (snd (f a m'))) ->
  shaped (snd (bind c f m)).
Proof.
  intros Hc Hf. unfold bind. destruct (c m) as [[a|e] m']; cbn [snd] in *; auto.
Qed.

Section Platform.
Variable Math_sin : float -> float.
Variable Math_random : nat -> float.

Lemma modulate_shaped (m : Machine) : shaped m -> shaped (snd (modulate Math_sin m)).
Proof.
  intros Hm. pose proof Hm as [Hb Hn Hp Hno [d Hd] (b & ds & Hpl & Ho & Hlen) Hnodes].
  unfold modulate. exec. destruct b; exec; [| exact Hm].
  destruct (three_voices ds Hlen) as (d1 & d2 & d3 & ->).
  destruct (playing_initialized m Hpl Hnodes) as (c & g & rn & rg & Hc & Hg & Hrn & Hrg).
  exec. unfold requestAnimationFrame. cbn [snd].
  split; cbn [this with_this]; look; try reflexivity.
  - eauto.
  - exists true. eexists [_; _; _]. look. repeat split; reflexivity.
  - right. exists c, g, rn, rg. look. repeat split; reflexivity.
Qed.

Lemma frame_fires_shaped (m : Machine) :
  shaped m -> shaped (snd (frame_fires Math_sin m)).
Proof.
  intros Hm. unfold frame_fires. destruct (frames m); [exact Hm |].
  apply modulate_shaped. eapply shaped_this; [| exact Hm]. reflexivity.
Qed.
Lemma start_shaped (m : Machine) (day : float) :
  shaped m -> shaped (snd (start Math_sin Math_random day m)).
Proof.
  intros Hm. pose proof Hm as [Hb Hn Hp Hno [d Hd] (b & ds & Hpl & Ho & Hlen) Hnodes].
  unfold start. exec. destruct b; exec; [apply updateDay_shaped, Hm |].
  apply no_voices in Hlen. subst ds.
  destruct Hnodes as [(Hc & Hg & Hrn & Hx)|(c & g & rn & rg & Hc & Hg & Hrn & Hrg)]; exec.
  - exact Hm.
  - unfold padFrequencies in Hp.
    destruct (AudioContext.state c); exec; unfold createPad; exec.
    all: apply bind_shaped; [| intros _ m'; apply modulate_shaped].
    all: eapply shaped_this; [apply playMelody_this |].
    all: split; cbn [this with_this]; look; try reflexivity.
    all: first [ solve [eauto]
               | exists true; eexists [_; _; _]; look; repeat split; reflexivity
               | right; do 4 eexists; look; repeat split; reflexivity ].
Qed.

Lemma toggle_shaped (m : Machine) (day : float) :
  shaped m -> shaped (snd (toggle Math_sin Math_random day m)).
Proof.
  intros Hm. unfold toggle. exec.
  destruct (truthy (this m !! "isPlaying")); [apply stop_shaped | apply start_shaped];
    exact Hm.
Qed.

Lemma perform_shaped (a : Action) (m : Machine) :
  shaped m -> shaped (snd (perform Math_sin Math_random a m)).
Proof.
  intros Hm. destruct a; cbn [perform].
  - apply init_shaped, Hm.
  - apply start_shaped, Hm.
  - apply updateDay_shaped, Hm.
  - apply stop_shaped, Hm.
  - apply toggle_shaped, Hm.
  - apply setVolume_shaped, Hm.
  - apply timer_fires_shaped, Hm.
  - apply frame_fires_shaped, Hm.
  - apply clock_reads_shaped, Hm.
Qed.

Lemma perform_all_shaped (l : list Action) (m : Machine) :
  shaped m -> shaped (perform_all Math_sin Math_random l m).
Proof.
  revert m. induction l as [|a l IH]; intros m Hm; cbn [perform_all].
  - exact Hm.
  - apply IH, perform_shaped, Hm.
Qed.

Lemma reachable_shaped (m : Machine) :
  reachable Math_sin Math_random m -> shaped m.
Proof.
  intros (l & _ & ->). apply perform_all_shaped, constructor_shaped.
Qed.
(** C8: [baseFrequencies] is a property no reachable instance has (no
    constructor or method assigns it), and [updateDay], called while the
    engine plays with a day other than [currentDay], dereferences it:
    the callback of the first voice schedules its two filter ramps and
    then raises a [TypeError] at [this.baseFrequencies.length].  The call
    ends there: the gain, reverb and vibrato ramps of the first voice,
    every ramp of the two other voices and the ramp of the shared reverb
    gain are never scheduled. *)
Theorem updateDay_dereferences_baseFrequencies (m : Machine) (day : Z)
    (Hm : reachable Math_sin Math_random m) (Hday : valid_day day = true) :
  this m !! "baseFrequencies" = None
  /\ (truthy (this m !! "isPlaying") = true ->
      strict_equal_num (of_int day) (this m !! "currentDay") = false ->
      exists c d1 d2 d3,
        this m !! "audioContext" = Some (VContext c)
        /\ this m !! "oscillators" = Some (VArray [VVoice d1; VVoice d2; VVoice d3])
        /\ updateDay (of_int day) m =
             (Throw TypeError,
              with_this
                (insert "oscillators"
                   (VArray [VVoice (ramped (getSoundParams (of_int day))
                                      (AudioContext.currentTime c) d1);
                            VVoice d2; VVoice d3]))
                (with_this (insert "currentDay" (VNum (of_int day))) m))).
Proof.
  apply reachable_shaped in Hm.
  destruct Hm as [Hb Hn Hp Hno [d Hd] (b & ds & Hpl & Ho & Hlen) Hnodes].
  split; [exact Hb |]. intros Hplaying Hother.
  rewrite Hpl in Hplaying. cbn [truthy] in Hplaying. subst b.
  destruct (three_voices ds Hlen) as (d1 & d2 & d3 & ->).
  destruct (playing_initialized m Hpl Hnodes) as (c & g & rn & rg & Hc & Hg & Hrn & Hrg).
  exists c, d1, d2, d3. split; [exact Hc |]. split; [exact Ho |].
  apply (updateDay_throws m (of_int day) c d1 _ Hpl Hother Hc Ho Hb).
Qed.
End Platform.

Lemma sample_playing_reachable : reachable sample_sin sample_random sample_playing.
Proof.
  exists [Init (Some sample_context); Start 1; ClockReads 5]. split; reflexivity.
Qed.

Lemma updateDay_dereferences_baseFrequencies_witness :
  this sample_playing !! "baseFrequencies" = None
  /\ exists c d1 d2 d3,
       this sample_playing !! "audioContext" = Some (VContext c)
       /\ this sample_playing !! "oscillators"
          = Some (VArray [VVoice d1; VVoice d2; VVoice d3])
       /\ updateDay (of_int 31) sample_playing =
            (Throw TypeError,
             with_this
               (insert "oscillators"
                  (VArray [VVoice (ramped (getSoundParams (of_int 31))
                                     (AudioContext.currentTime c) d1);
                           VVoice d2; VVoice d3]))
               (with_this (insert "currentDay" (VNum (of_int 31))) sample_playing)).
Proof.
  destruct (updateDay_dereferences_baseFrequencies sample_sin sample_random
              sample_playing 31 sample_playing_reachable eq_refl) as [Hb Hthrow].
  split; [exact Hb |]. apply Hthrow; vm_compute; reflexivity.
Defined.

(** C7, at [start(1)] then [updateDay(31)]: the call raises a [TypeError];
    the filter of the first pad voice has its ramp to 4000 Hz scheduled for
    one second later, the filters of the two other pad voices and of the
    melody note stay at 12000 Hz with nothing scheduled. *)
Theorem updateDay_31_ramps_first_voice_only :
  let r := perform sample_sin sample_random (UpdateDay 31) sample_playing in
  fst r = Throw TypeError
  /\ padFilterFrequencies sample_playing
     = [ AudioParam.make 12000; AudioParam.make 12000; AudioParam.make 12000 ]
  /\ padFilterFrequencies (snd r)
     = [ {| AudioParam.value := 12000;
            AudioParam.events := [AudioParam.LinearRampToValueAtTime 4000 6] |};
         AudioParam.make 12000;
         AudioParam.make 12000 ]
  /\ noteFilterFrequencies (snd r) = [ AudioParam.make 12000 ].
Proof. vm_compute. repeat split; reflexivity. Qed.

Lemma setVolume_clamps_witness :
  (setVolume 1.5 sample_initialized =
     (Normal tt,
      with_this (insert "masterGain"
        (VGain {| Gain.gain := AudioParam.set_value (Math_min 1 (Math_max 0 1.5))
                                 (AudioParam.make 0.2) |}))
        sample_initialized)
   /\ (0 <=? Math_min 1 (Math_max 0 1.5)) = true
   /\ (Math_min 1 (Math_max 0 1.5) <=? 1) = true)
  /\ setVolume (-3) constructor = (Normal tt, constructor).
Proof.
  split.
  - apply (setVolume_clamps sample_initialized 1.5 {| Gain.gain := AudioParam.make 0.2 |});
      reflexivity.
  - apply (setVolume_clamps constructor (-3) Gain.create); reflexivity.
Defined.
End SoundFacts.

(** ** The fragment shaders *)

(** *** The noise on rational coordinates *)

Module NoiseFacts.
Import QArith.QArith_base QArith.Qround Qreals.
Local Open Scope R_scope.























End NoiseFacts.

Module ShaderFacts.
Import GLSL.
Local Open Scope R_scope.

Lemma vec2_add_zero (uv : vec2.t) : vec2.add uv (vec2.mk 0 0) = uv.
Proof. destruct uv as [a b]. unfold vec2.add, vec2.map2. cbn. f_equal; ring. Qed.

Lemma mix_same (a k : R) : mix a a k = a.
Proof. unfold mix. ring. Qed.

Lemma mix4_same (a : vec4.t) (k : R) : mix4 a a k = a.
Proof.
  destruct a as [p q r s]. unfold mix4, vec4.map2. cbn. f_equal; apply mix_same.
Qed.

Lemma floor_half : floor (0 + 0.5) = 0.
Proof. unfold floor. rewrite (Zfloor_eq 0); [reflexivity | lra]. Qed.

(** *** Blur *)

Lemma blur_sample_zero (tex : sampler2D) (uv : vec2.t) (d i : nat) :
  blur_sample tex uv (vec2.mk 0 0) d i = tex uv.
Proof.
  unfold blur_sample. f_equal. destruct uv as [a b].
  unfold vec2.add, vec2.scale, vec2.mul, vec2.map2, vec2.map. cbn. f_equal; ring.
Qed.

Lemma add_samples (c : vec4.t) (f : nat -> vec4.t) (l : list nat) (acc : vec4.t) :
  (forall i, f i = c) ->
  fold_left (fun Color i => vec4.add Color (f i)) l acc
  = vec4.add acc (vec4.scale c (INR (List.length l))).
Proof.
  intros Hf. revert acc. induction l as [|i l IH]; intros acc.
  - destruct acc, c. unfold vec4.add, vec4.scale, vec4.map2, vec4.map. cbn.
    f_equal; ring.
  - cbn [fold_left]. rewrite IH, Hf. change (List.length (i :: l)) with (S (List.length l)).
    rewrite S_INR. destruct acc, c.
    unfold vec4.add, vec4.scale, vec4.map2, vec4.map. cbn. f_equal; ring.
Qed.

Lemma add_directions (c : vec4.t) (f : nat -> nat -> vec4.t) (li l : list nat)
    (acc : vec4.t) :
  (forall d i, f d i = c) ->
  fold_left (fun Color d =>
    fold_left (fun Color i => vec4.add Color (f d i)) li Color) l acc
  = vec4.add acc (vec4.scale c (INR (List.length li) * INR (List.length l))).
Proof.
  intros Hf. revert acc. induction l as [|d l IH]; intros acc.
  - destruct acc, c. unfold vec4.add, vec4.scale, vec4.map2, vec4.map. cbn.
    f_equal; ring.
  - cbn [fold_left]. rewrite IH, (add_samples c (f d)) by (intros i; apply Hf).
    change (List.length (d :: l)) with (S (List.length l)).
    rewrite S_INR. destruct acc, c.
    unfold vec4.add, vec4.scale, vec4.map2, vec4.map. cbn. f_equal; ring.
Qed.

Lemma blur_zero (tex : sampler2D) (uv res : vec2.t) : blur 0 tex uv res = tex uv.
Proof.
  unfold blur. replace (0 / vec2.x res) with 0 by (unfold Rdiv; ring).
  replace (0 / vec2.y res) with 0 by (unfold Rdiv; ring).
  rewrite (add_directions (tex uv)) by (intros d i; apply blur_sample_zero).
  rewrite !length_seq.
  replace (INR (Quality * Directions + 1)) with 49
    by (unfold Quality, Directions; cbn [Nat.mul Nat.add]; rewrite !S_INR; cbn; ring).
  replace (INR Quality) with 3 by (unfold Quality; rewrite !S_INR; cbn; ring).
  replace (INR Directions) with 16 by (unfold Directions; rewrite !S_INR; cbn; ring).
  destruct (tex uv). unfold vec4.add, vec4.scale, vec4.map2, vec4.map. cbn.
  f_equal; field.
Qed.
(** C6: with radius [size = 0] every one of the 16 * 3 directional samples
    is the centre sample, and the blur (their mean with the centre over
    49 samples) returns exactly the centre sample [texture2D(tex, uv)], for
    any field and any position. *)
Theorem blur_zero_radius_identity (tex : sampler2D) (uv res : vec2.t)
    (Hres : 0 < vec2.x res /\ 0 < vec2.y res) :
  (forall d i : nat,
     blur_sample tex uv (vec2.mk (0 / vec2.x res) (0 / vec2.y res)) d i = tex uv)
  /\ blurShader tex res 0 uv = tex uv.
Proof.
  split.
  - intros d i. replace (0 / vec2.x res) with 0 by (unfold Rdiv; ring).
    replace (0 / vec2.y res) with 0 by (unfold Rdiv; ring).
    apply blur_sample_zero.
  - unfold blurShader. apply blur_zero.
Qed.

Lemma blur_zero_radius_identity_witness :
  let tex := fun uv : vec2.t => vec4.mk (vec2.x uv) (vec2.y uv) 0.5 1 in
  let uv := vec2.mk 0.25 0.75 in
  let res := vec2.mk 64 64 in
  (forall d i : nat,
     blur_sample tex uv (vec2.mk (0 / vec2.x res) (0 / vec2.y res)) d i = tex uv)
  /\ blurShader tex res 0 uv = tex uv.
Proof.
  intros tex uv res. apply (blur_zero_radius_identity tex uv res).
  unfold res. cbn [vec2.x vec2.y]. split; lra.
Defined.

(** *** The compositor *)

Lemma zero_offset (a w r : R) : w = 0 -> (a - 0.5) * w * 2 / r = 0.
Proof. intros ->. unfold Rdiv. ring. Qed.

Lemma dsp_soft_zero (u : DisplaceUniforms) (uv : vec2.t) :
  soft_weight u = 0 -> dsp_soft u uv = vec2.mk 0 0.
Proof.
  intros Hw. unfold dsp_soft, vec2.div, vec2.scale, vec2.map2, vec2.map.
  cbn [vec2.x vec2.y]. f_equal; apply zero_offset, Hw.
Qed.

Lemma dsp_hard_zero (u : DisplaceUniforms) (uv : vec2.t) :
  hard_weight u = 0 -> dsp_hard u uv = vec2.mk 0 0.
Proof.
  intros Hw. unfold dsp_hard, vec2.div, vec2.scale, vec2.mul, vec2.floor, vec2.map2, vec2.map.
  cbn [vec2.x vec2.y]. rewrite !(zero_offset _ _ _ Hw), !Rmult_0_l.
  fold (floor (0 + 0.5)). rewrite floor_half. f_equal; unfold Rdiv; ring.
Qed.

(** C4: with [hard_weight = 0] and [soft_weight = 0] the quantized hard
    offset and the soft offset are both exactly zero, and the pixel the
    compositor writes is [mix(image(uv), source(uv), 1 - map(uv).w)]: the
    working field blended with the source by the unblurred map's fourth
    channel, without any spatial shift. *)
Theorem displace_zero_weights (u : DisplaceUniforms) (uv : vec2.t)
    (Hres : 0 < vec2.x (res u) /\ 0 < vec2.y (res u))
    (Hhard : hard_weight u = 0) (Hsoft : soft_weight u = 0) :
  dsp_hard u uv = vec2.mk 0 0
  /\ dsp_soft u uv = vec2.mk 0 0
  /\ displaceShader u uv = masked_blend u uv.
Proof.
  pose proof (dsp_hard_zero u uv Hhard) as Hh.
  pose proof (dsp_soft_zero u uv Hsoft) as Hs.
  repeat split; [exact Hh | exact Hs |].
  unfold displaceShader, masked_blend. rewrite Hh, Hs, vec2_add_zero, mix4_same.
  reflexivity.
Qed.

Lemma displace_zero_weights_witness :
  let u := {| source := flat (vec4.mk 0.2 0.4 0.6 1);
              image := fun uv => vec4.mk (vec2.x uv) (vec2.y uv) 0 1;
              map := fun uv => vec4.mk (vec2.y uv) (vec2.x uv) 0.5 0.25;
              res := vec2.mk 64 64;
              hard_weight := 0; soft_weight := 0; blur_size := 2 |} in
  let uv := vec2.mk 0.25 0.75 in
  dsp_hard u uv = vec2.mk 0 0
  /\ dsp_soft u uv = vec2.mk 0 0
  /\ displaceShader u uv = masked_blend u uv.
Proof.
  intros u uv. apply (displace_zero_weights u uv); [| reflexivity | reflexivity].
  unfold u. cbn [res vec2.x vec2.y]. split; lra.
Defined.

(** *** The displacement map *)







Section SamplePixel.
Import QArith.QArith_base.
Local Open Scope R_scope.






End SamplePixel.


End ShaderFacts.

(** ** The feedback loop *)

Module CalendarFacts.
Import ShaderCalendar.
Local Open Scope R_scope.

(** *** Writing and reading back a texel *)

Lemma clamp_inside (a lo hi : R) : lo <= a <= hi -> GLSL.clamp a lo hi = a.
Proof.
  intros [Hlo Hhi]. unfold GLSL.clamp.
  rewrite (Rmax_left a lo Hlo). apply Rmin_left, Hhi.
Qed.

Lemma clamp_bounds (a lo hi : R) : lo <= hi -> lo <= GLSL.clamp a lo hi <= hi.
Proof.
  intros H. unfold GLSL.clamp. split.
  - apply Rmin_glb; [apply Rmax_r | exact H].
  - apply Rmin_r.
Qed.

Lemma unorm8_level (c : R) :
  (0 <= Zfloor (GLSL.clamp c 0 1 * 255 + 0.5) <= 255)%Z.
Proof.
  pose proof (clamp_bounds c 0 1 ltac:(lra)) as Hc.
  pose proof (Zfloor_bound (GLSL.clamp c 0 1 * 255 + 0.5)) as [Hlo Hhi].
  split.
  - apply Zfloor_lub. lra.
  - assert (IZR (Zfloor (GLSL.clamp c 0 1 * 255 + 0.5)) < IZR 256) as H by lra.
    apply lt_IZR in H. lia.
Qed.

Lemma to_unorm8_level (k : Z) : (0 <= k <= 255)%Z -> GL.to_unorm8 (IZR k / 255) = IZR k / 255.
Proof.
  intros [H0 H255]. apply IZR_le in H0, H255. unfold GL.to_unorm8.
  rewrite clamp_inside by (split; lra).
  replace (IZR k / 255 * 255) with (IZR k) by field.
  rewrite (Zfloor_eq k); [reflexivity | lra].
Qed.

(** A colour that was stored once is stored unchanged. *)
Lemma to_unorm8_idempotent (c : R) : GL.to_unorm8 (GL.to_unorm8 c) = GL.to_unorm8 c.
Proof. unfold GL.to_unorm8 at 2 3. apply to_unorm8_level, unorm8_level. Qed.

Lemma clamp_index_inside (n i : Z) : (0 <= i < n)%Z -> GL.clamp_index n i = i.
Proof. unfold GL.clamp_index. lia. Qed.

Lemma centre_coordinate (n i : Z) :
  (0 <= i < n)%Z ->
  GLSL.clamp ((IZR i + 0.5) / IZR n) (1 / (2 * IZR n)) (1 - 1 / (2 * IZR n)) * IZR n - 0.5
  = IZR i.
Proof.
  intros [H0 Hn].
  assert (0 < IZR n) as Hpos by (apply IZR_lt; lia).
  assert (IZR i <= IZR n - 1) as Hle by (rewrite <- minus_IZR; apply IZR_le; lia).
  apply IZR_le in H0.
  replace 0.5 with (1 / 2) by lra.
  rewrite clamp_inside.
  - field. lra.
  - split.
    + apply Rmult_le_reg_r with (IZR n); [exact Hpos |].
      replace (1 / (2 * IZR n) * IZR n) with (1 / 2) by (field; lra).
      replace ((IZR i + 1 / 2) / IZR n * IZR n) with (IZR i + 1 / 2) by (field; lra).
      lra.
    + apply Rmult_le_reg_r with (IZR n); [exact Hpos |].
      replace ((1 - 1 / (2 * IZR n)) * IZR n) with (IZR n - 1 / 2) by (field; lra).
      replace ((IZR i + 1 / 2) / IZR n * IZR n) with (IZR i + 1 / 2) by (field; lra).
      lra.
Qed.

(** Sampled at the centre of a texel, a texture yields that texel. *)
Lemma texture2D_centre (t : GL.Texture) (x y : Z) :
  (0 <= x < GL.tex_width t)%Z -> (0 <= y < GL.tex_height t)%Z ->
  GL.texture2D t
    (vec2.mk ((IZR x + 0.5) / IZR (GL.tex_width t)) ((IZR y + 0.5) / IZR (GL.tex_height t)))
  = GL.texel t x y.
Proof.
  intros Hx Hy. unfold GL.texture2D. cbn [vec2.x vec2.y].
  rewrite (centre_coordinate _ _ Hx), (centre_coordinate _ _ Hy), !ZfloorZ.
  rewrite (clamp_index_inside _ _ Hx), (clamp_index_inside _ _ Hy).
  destruct (GL.texel t x y) as [r g b a].
  destruct (GL.texel t (GL.clamp_index (GL.tex_width t) (x + 1)) y) as [r1 g1 b1 a1].
  destruct (GL.texel t x (GL.clamp_index (GL.tex_height t) (y + 1))) as [r2 g2 b2 a2].
  destruct (GL.texel t (GL.clamp_index (GL.tex_width t) (x + 1))
              (GL.clamp_index (GL.tex_height t) (y + 1))) as [r3 g3 b3 a3].
  unfold GL.weighted, vec4.add, vec4.scale, vec4.map2, vec4.map. cbn.
  f_equal; ring.
Qed.
Lemma rasterize_inside (frag : vec2.t -> vec4.t) (t : GL.Texture) (x y : Z) :
  (0 <= x < GL.tex_width t)%Z -> (0 <= y < GL.tex_height t)%Z ->
  GL.texel (GL.rasterize frag (GL.tex_width t) (GL.tex_height t) t) x y
  = vec4.map GL.to_unorm8
      (frag (vec2.mk ((IZR x + 0.5) / IZR (GL.tex_width t))
                     ((IZR y + 0.5) / IZR (GL.tex_height t)))).
Proof.
  intros Hx Hy. cbn [GL.rasterize GL.texel]. unfold GL.in_viewport.
  rewrite !Z.min_id.
  destruct (Z.leb_spec 0 x); [| lia]. destruct (Z.ltb_spec x (GL.tex_width t)); [| lia].
  destruct (Z.leb_spec 0 y); [| lia]. destruct (Z.ltb_spec y (GL.tex_height t)); [| lia].
  reflexivity.
Qed.

Lemma stored_twice (c : vec4.t) :
  vec4.map GL.to_unorm8 (vec4.map GL.to_unorm8 c) = vec4.map GL.to_unorm8 c.
Proof.
  destruct c. unfold vec4.map. cbn. f_equal; apply to_unorm8_idempotent.
Qed.

(** The second blit of [initialize] copies a buffer of the viewport's size
    texel for texel. *)
Lemma blit_copy (frag : vec2.t -> vec4.t) (tex_res res : vec2.t) (a b : GL.Texture)
    (x y : Z) :
  GL.tex_width b = GL.tex_width a -> GL.tex_height b = GL.tex_height a ->
  (0 <= x < GL.tex_width a)%Z -> (0 <= y < GL.tex_height a)%Z ->
  let a' := GL.rasterize frag (GL.tex_width a) (GL.tex_height a) a in
  GL.texel
    (GL.rasterize (GLSL.blitShader (GL.texture2D a') tex_res res false false)
       (GL.tex_width a) (GL.tex_height a) b) x y
  = GL.texel a' x y.
Proof.
  intros Hw Hh Hx Hy a'.
  rewrite <- Hw, <- Hh. rewrite rasterize_inside by lia. rewrite Hw, Hh.
  unfold GLSL.blitShader.
  change (GL.tex_width a) with (GL.tex_width a').
  change (GL.tex_height a) with (GL.tex_height a').
  rewrite texture2D_centre by assumption.
  unfold a'. rewrite rasterize_inside by assumption. apply stored_twice.
Qed.

(** *** [initialize] *)

Lemma initialize_resets (s : State) (img : Image) (fbo_source fbo_image : GL.Texture) :
  currentImage s = Some img ->
  FBOs.source (fbos s) = Some fbo_source -> FBOs.image (fbos s) = Some fbo_image ->
  GL.tex_width fbo_source = width s -> GL.tex_height fbo_source = height s ->
  GL.tex_width fbo_image = width s -> GL.tex_height fbo_image = height s ->
  exists s',
    initialize s = Done s'
    /\ time s' = 0%float
    /\ accumulator_reset s'
    /\ currentDay s' = currentDay s /\ currentImage s' = currentImage s
    /\ sourceTexture s' = sourceTexture s /\ lastImageSrc s' = lastImageSrc s
    /\ width s' = width s /\ height s' = height s
    /\ FBOs.map (fbos s') = FBOs.map (fbos s)
    /\ FBOs.displace (fbos s') = FBOs.displace (fbos s).
Proof.
  intros Himg Hs Hi Hsw Hsh Hiw Hih.
  destruct s as [t0 anim day cimg sd last stex w h [fs fi fm fd] cv].
  cbn [currentImage fbos width height FBOs.source FBOs.image] in *. subst cimg fs fi.
  eexists. split; [reflexivity |].
  cbn [with_fbos with_time time currentDay currentImage sourceTexture lastImageSrc
       width height fbos FBOs.map FBOs.displace FBOs.source FBOs.image animationId seed
       canvas].
  split; [reflexivity |]. split; [| repeat split; reflexivity].
  unfold accumulator_reset.
  cbn [with_fbos with_time time currentDay currentImage sourceTexture lastImageSrc
       width height fbos FBOs.map FBOs.displace FBOs.source FBOs.image animationId seed
       canvas].
  do 2 eexists. split; [reflexivity |]. split; [reflexivity |].
  cbn [GL.rasterize GL.tex_width GL.tex_height].
  repeat (split; [assumption |]).
  intros x y Hx Hy. subst w h.
  apply blit_copy; congruence.
Qed.
(** *** The buffers are there once an image is *)

Lemma sized_blank (s : State) (w h : Z) :
  width s = w -> height s = h -> sized s (Some (GL.blank w h)).
Proof. intros <- <-. eexists. repeat split. Qed.

Lemma sized_rasterize (s : State) (frag : vec2.t -> vec4.t) (w h : Z) (t : GL.Texture) :
  sized s (Some t) -> sized s (Some (GL.rasterize frag w h t)).
Proof.
  intros (t' & [= <-] & Hw & Hh). eexists. split; [reflexivity |]. split; assumption.
Qed.

Ltac fields :=
  cbn [with_fbos with_time with_canvas with_animationId with_lastImageSrc time currentDay
       currentImage sourceTexture lastImageSrc width height fbos animationId seed canvas
       FBOs.map FBOs.displace FBOs.source FBOs.image] in *.

Lemma consistent_intro (s : State) (tex : GL.Texture) (img : Image)
    (fs fi fm fd : GL.Texture) :
  sourceTexture s = Some tex -> currentImage s = Some img ->
  fbos s = {| FBOs.source := Some fs; FBOs.image := Some fi; FBOs.map := Some fm;
              FBOs.displace := Some fd |} ->
  GL.tex_width fs = width s -> GL.tex_height fs = height s ->
  GL.tex_width fi = width s -> GL.tex_height fi = height s ->
  GL.tex_width fm = width s -> GL.tex_height fm = height s ->
  GL.tex_width fd = width s -> GL.tex_height fd = height s ->
  consistent s.
Proof.
  intros Ht Hi Hf. intros. right. rewrite Ht, Hi, Hf. cbn [FBOs.source FBOs.image FBOs.map FBOs.displace].
  split; [discriminate |]. split; [discriminate |].
  repeat split; eexists; (split; [reflexivity |]); split; assumption.
Qed.

Lemma consistent_loaded (s : State) :
  consistent s -> sourceTexture s <> None ->
  exists tex img fs fi fm fd,
    sourceTexture s = Some tex /\ currentImage s = Some img
    /\ fbos s = {| FBOs.source := Some fs; FBOs.image := Some fi; FBOs.map := Some fm;
                   FBOs.displace := Some fd |}
    /\ (GL.tex_width fs = width s /\ GL.tex_height fs = height s)
    /\ (GL.tex_width fi = width s /\ GL.tex_height fi = height s)
    /\ (GL.tex_width fm = width s /\ GL.tex_height fm = height s)
    /\ (GL.tex_width fd = width s /\ GL.tex_height fd = height s).
Proof.
  intros [[Hn _] | (Ht & Hi & (fs & Hfs & Hs) & (fi & Hfi & Hi') & (fm & Hfm & Hm)
                    & (fd & Hfd & Hd))] Hne; [congruence |].
  destruct (sourceTexture s) as [tex|]; [| congruence].
  destruct (currentImage s) as [img|]; [| congruence].
  exists tex, img, fs, fi, fm, fd. destruct (fbos s) as [a b c d].
  cbn [FBOs.source FBOs.image FBOs.map FBOs.displace] in *. subst a b c d.
  repeat split; tauto.
Qed.

(** [initialize] on a state whose image and buffers are in place. *)
Lemma initialize_loaded (s : State) (tex : GL.Texture) (img : Image)
    (fs fi fm fd : GL.Texture) :
  sourceTexture s = Some tex -> currentImage s = Some img ->
  fbos s = {| FBOs.source := Some fs; FBOs.image := Some fi; FBOs.map := Some fm;
              FBOs.displace := Some fd |} ->
  (GL.tex_width fs = width s /\ GL.tex_height fs = height s) ->
  (GL.tex_width fi = width s /\ GL.tex_height fi = height s) ->
  (GL.tex_width fm = width s /\ GL.tex_height fm = height s) ->
  (GL.tex_width fd = width s /\ GL.tex_height fd = height s) ->
  exists s',
    initialize s = Done s'
    /\ time s' = 0%float /\ accumulator_reset s' /\ consistent s'
    /\ currentDay s' = currentDay s /\ currentImage s' = Some img.
Proof.
  intros Ht Hi Hf [Hsw Hsh] [Hiw Hih] [Hmw Hmh] [Hdw Hdh].
  destruct (initialize_resets s img fs fi) as (s' & E & Htime & Hr & R);
    try assumption; try (rewrite Hf; reflexivity).
  destruct R as (Hday & Himg & Htex & _ & Hw & Hh & Hm & Hdis).
  exists s'. split; [exact E |]. split; [exact Htime |]. split; [exact Hr |].
  split; [| split; [exact Hday | congruence]].
  destruct Hr as (fs' & fi' & Hfs' & Hfi' & Hsw' & Hsh' & Hiw' & Hih' & _).
  rewrite Hf in Hm, Hdis. cbn [FBOs.map FBOs.displace] in Hm, Hdis.
  apply (consistent_intro s' tex img fs' fi' fm fd); try congruence.
  destruct (fbos s') as [a b c d].
  cbn [FBOs.source FBOs.image FBOs.map FBOs.displace] in *. congruence.
Qed.

Lemma initialize_createTexture (s : State) (img : Image) :
  currentImage s = Some img ->
  exists s',
    initialize (createTexture img s) = Done s'
    /\ time s' = 0%float /\ accumulator_reset s' /\ consistent s'
    /\ currentDay s' = currentDay s /\ currentImage s' = Some img.
Proof.
  intros Hi.
  eapply (initialize_loaded (createTexture img s)); try reflexivity; try (split; reflexivity).
  exact Hi.
Qed.

Lemma loadImage_resets (s : State) (img : Image) (day : float) :
  consistent s ->
  exists s',
    loadImage (Some img) day s = Resolved s'
    /\ time s' = 0%float /\ accumulator_reset s' /\ consistent s'
    /\ currentDay s' = day /\ currentImage s' = Some img.
Proof.
  intros Hs. unfold loadImage.
  set (s1 := {| time := time s; animationId := animationId s; currentDay := day;
                currentImage := Some img; seed := seed s; lastImageSrc := lastImageSrc s;
                sourceTexture := sourceTexture s; width := width s; height := height s;
                fbos := fbos s; canvas := canvas s |}).
  assert (exists s2,
            match sourceTexture s1 with
            | Some _ =>
                if match lastImageSrc s1 with
                   | Some l => String.eqb (src img) l
                   | None => false
                   end && negb (currentDay s =? day)%float
                then initialize s1 else initialize (createTexture img s1)
            | None => initialize (createTexture img s1)
            end = Done s2
            /\ time s2 = 0%float /\ accumulator_reset s2 /\ consistent s2
            /\ currentDay s2 = day /\ currentImage s2 = Some img) as (s2 & -> & H).
  { pose proof (initialize_createTexture s1 img eq_refl) as Hfresh.
    destruct (sourceTexture s1) as [tex|] eqn:Etex; [| exact Hfresh].
    destruct (match lastImageSrc s1 with
              | Some l => String.eqb (src img) l
              | None => false
              end && negb (currentDay s =? day)%float); [| exact Hfresh].
    destruct (consistent_loaded s Hs) as (tex' & img' & fs & fi & fm & fd & Ht & _ & Hf & D).
    { unfold s1 in Etex. cbn [sourceTexture] in Etex. congruence. }
    destruct D as (Ds & Di & Dm & Dd).
    apply (initialize_loaded s1 tex' img fs fi fm fd); try assumption; reflexivity. }
  destruct H as (Ht & (fs & fi & Hr) & Hc & Hd & Hi).
  eexists. split; [reflexivity |]. fields.
  split; [exact Ht |]. split; [exists fs, fi; exact Hr |].
  split; [| split; assumption].
  destruct Hc as [[Hn Hn'] | Hc]; [left | right]; fields; [split |]; assumption.
Qed.
Lemma consistent_same (s s' : State) :
  sourceTexture s' = sourceTexture s -> currentImage s' = currentImage s ->
  fbos s' = fbos s -> width s' = width s -> height s' = height s ->
  consistent s -> consistent s'.
Proof.
  unfold consistent, sized. intros -> -> -> -> ->. tauto.
Qed.

Lemma render_consistent (s : State) : consistent s -> consistent (state_of (render s)).
Proof.
  intros Hs. unfold render.
  destruct (sourceTexture s) as [tex|] eqn:Etex; [| exact Hs].
  destruct (consistent_loaded s Hs) as (tex' & img & fs & fi & fm & fd & Ht & Hi & Hf & D).
  { congruence. }
  destruct D as ([? ?] & [? ?] & [? ?] & [? ?]).
  rewrite Hf. cbn [FBOs.source FBOs.image FBOs.map FBOs.displace state_of].
  eapply consistent_intro.
  3: unfold draw_canvas; fields; reflexivity.
  all: unfold draw_canvas; fields; cbn [GL.rasterize GL.tex_width GL.tex_height];
    eassumption.
Qed.

Lemma animate_consistent (s : State) (id : nat) :
  consistent s -> consistent (state_of (animate id s)).
Proof.
  intros Hs. apply render_consistent in Hs. unfold animate.
  destruct (render s) as [s'|s']; cbn [state_of] in *; [| exact Hs].
  eapply consistent_same; [.. | exact Hs]; reflexivity.
Qed.

Lemma contextRestored_consistent (s : State) (id : nat) :
  consistent s -> consistent (state_of (contextRestored id s)).
Proof.
  intros Hs. unfold contextRestored.
  destruct (currentImage (setupFramebuffers s)) as [img|] eqn:Ei.
  - destruct (initialize_createTexture (setupFramebuffers s) img Ei)
      as (s' & -> & _ & _ & Hc & _).
    apply animate_consistent, Hc.
  - cbn [state_of]. left. unfold setupFramebuffers in *. fields.
    destruct Hs as [[Hn _] | (_ & Hne & _)]; [split; assumption | congruence].
Qed.

Lemma perform_consistent (a : Action) (s : State) :
  consistent s -> consistent (perform a s).
Proof.
  intros Hs. destruct a as [decoded day| |day|id| |id]; cbn [perform].
  - destruct decoded as [img|]; [| exact Hs].
    destruct (loadImage_resets s img (JSNumber.of_int day) Hs) as (s' & -> & _ & _ & Hc & _).
    exact Hc.
  - apply render_consistent, Hs.
  - eapply consistent_same; [.. | exact Hs]; reflexivity.
  - apply animate_consistent, Hs.
  - eapply consistent_same; [.. | exact Hs]; reflexivity.
  - apply contextRestored_consistent, Hs.
Qed.

Lemma reachable_consistent (s : State) : reachable s -> consistent s.
Proof.
  intros (seed & canvas & l & ->).
  assert (consistent (constructor seed canvas)) as H0 by (left; split; reflexivity).
  revert H0. generalize (constructor seed canvas).
  induction l as [|a l IH]; intros s0 H0; cbn [fold_left].
  - exact H0.
  - apply IH, perform_consistent, H0.
Qed.

(** *** The source buffer after a load *)

Lemma initialize_blits (s : State) (img : Image) (tex fs fi : GL.Texture) :
  currentImage s = Some img -> sourceTexture s = Some tex ->
  FBOs.source (fbos s) = Some fs -> FBOs.image (fbos s) = Some fi ->
  GL.tex_width fs = width s -> GL.tex_height fs = height s ->
  forall s', initialize s = Done s' -> Animation.source_blitted s' tex.
Proof.
  intros Himg Htex Hs Hi Hw Hh s' E.
  destruct s as [t0 anim day cimg sd last stex w h [f1 f2 fm fd] cv].
  cbn [currentImage sourceTexture fbos width height FBOs.source FBOs.image] in *.
  subst cimg stex f1 f2 w h. injection E as <-.
  unfold Animation.source_blitted.
  cbn [with_fbos with_time time currentDay currentImage sourceTexture lastImageSrc
       width height fbos FBOs.map FBOs.displace FBOs.source FBOs.image animationId seed
       canvas].
  eexists. split; [reflexivity |]. intros x y Hx Hy.
  rewrite rasterize_inside by assumption. reflexivity.
Qed.

Lemma loadImage_uploads (s : State) (img : Image) (day : float) :
  consistent s ->
  exists s' tex,
    loadImage (Some img) day s = Resolved s'
    /\ time s' = 0%float
    /\ sourceTexture s' = Some tex
    /\ (tex = Animation.uploaded img
        \/ (sourceTexture s = Some tex /\ lastImageSrc s = Some (src img)
            /\ (currentDay s =? day)%float = false))
    /\ Animation.source_blitted s' tex
    /\ accumulator_reset s'.
Proof.
  intros Hs.
  destruct (loadImage_resets s img day Hs) as (s' & E & Ht & Hr & _).
  exists s'. revert E. unfold loadImage.
  set (s1 := {| time := time s; animationId := animationId s; currentDay := day;
                currentImage := Some img; seed := seed s; lastImageSrc := lastImageSrc s;
                sourceTexture := sourceTexture s; width := width s; height := height s;
                fbos := fbos s; canvas := canvas s |}).
  assert (forall s2 tex,
            (forall s3, initialize s2 = Done s3 ->
               sourceTexture s3 = Some tex /\ Animation.source_blitted s3 tex) ->
            match initialize s2 with
            | Done s3 => Resolved (with_lastImageSrc (Some (src img)) s3)
            | TypeError s3 => Pending s3
            end = Resolved s' ->
            sourceTexture s' = Some tex /\ Animation.source_blitted s' tex) as Hend.
  { intros s2 tex H R. destruct (initialize s2) as [s3|s3]; [| discriminate R].
    injection R as <-. destruct (H s3 eq_refl) as [H1 H2]. split; [exact H1 | exact H2]. }
  assert (forall s3, initialize (createTexture img s1) = Done s3 ->
            sourceTexture s3 = Some (Animation.uploaded img)
            /\ Animation.source_blitted s3 (Animation.uploaded img)) as Hfresh.
  { intros s3 E3. split.
    - assert (sourceTexture (state_of (initialize (createTexture img s1)))
              = Some (Animation.uploaded img)) as H by reflexivity.
      rewrite E3 in H. exact H.
    - eapply (initialize_blits (createTexture img s1) img); try reflexivity. exact E3. }
  intros E.
  assert (sourceTexture s' = Some (Animation.uploaded img)
          /\ Animation.source_blitted s' (Animation.uploaded img)
          \/ exists tex,
               sourceTexture s = Some tex /\ lastImageSrc s = Some (src img)
               /\ (currentDay s =? day)%float = false
               /\ sourceTexture s' = Some tex /\ Animation.source_blitted s' tex) as H.
  { destruct (sourceTexture s1) as [tex|] eqn:Etex.
    2: left; exact (Hend _ _ Hfresh E).
    destruct (match lastImageSrc s1 with
              | Some l => String.eqb (src img) l
              | None => false
              end) eqn:Esrc; cbn [andb] in E.
    2: left; exact (Hend _ _ Hfresh E).
    destruct (currentDay s =? day)%float eqn:Eday; cbn [negb] in E.
    1: left; exact (Hend _ _ Hfresh E).
    right. exists tex.
    change (sourceTexture s1) with (sourceTexture s) in Etex.
    change (lastImageSrc s1) with (lastImageSrc s) in Esrc.
    destruct (lastImageSrc s) as [l|]; [| discriminate Esrc].
    apply String.eqb_eq in Esrc. subst l.
    split; [exact Etex |]. split; [reflexivity |]. split; [reflexivity |].
    destruct (consistent_loaded s Hs) as (tex' & img' & fs & fi & fm & fd & Ht' & _ & Hf
                                          & [Hsw Hsh] & _).
    { congruence. }
    assert (tex' = tex) as -> by congruence.
    apply (Hend s1 tex); [| exact E].
    intros s3 E3. split.
    - assert (sourceTexture (state_of (initialize s1)) = sourceTexture s1) as H.
      { clear. destruct s1 as [t0 anim d [i|] sd last stex w h [[f1|] [f2|] fm fd] cv];
          reflexivity. }
      rewrite E3 in H. cbn [state_of] in H. rewrite H. exact Etex.
    - apply (initialize_blits s1 img tex fs fi); try assumption; try reflexivity;
        unfold s1; fields; rewrite Hf; reflexivity. }
  destruct H as [[H1 H2]|(tex & H0 & Hl & Hd & H1 & H2)].
  - exists (Animation.uploaded img). repeat (split; [first [assumption | reflexivity] |]).
    split; [left; reflexivity |]. split; assumption.
  - exists tex. repeat (split; [first [assumption | reflexivity] |]).
    split; [right; repeat split; assumption |]. split; assumption.
Qed.

Lemma sample_rendered_consistent : consistent Animation.sample_rendered.
Proof.
  apply reachable_consistent.
  exists 0.5%float, (GL.blank 300 150), [LoadImage (Some sample_image) 7; Render; Render].
  reflexivity.
Qed.

(** C3: from any state in which the calendar's buffers are in step with
    its image (every state it can reach, frames drawn or not),
    [loadImage] of an image that decodes resolves, for any day, and leaves
    the time accumulator at 0, the source buffer holding the source
    texture drawn over the viewport, and the image buffer equal to the
    source buffer, texel for texel: [initialize] has reset the feedback
    accumulation before any [render].  The source texture is the upload of
    the image, unless an image of the same [src] was loaded before for
    another day: then the texture of that load is kept. *)
Theorem loadImage_resets_accumulator (s : State) (img : Image) (day : float)
    (Hs : consistent s) :
  exists s' tex,
    loadImage (Some img) day s = Resolved s'
    /\ time s' = 0%float
    /\ sourceTexture s' = Some tex
    /\ (tex = Animation.uploaded img
        \/ (sourceTexture s = Some tex /\ lastImageSrc s = Some (src img)
            /\ (currentDay s =? day)%float = false))
    /\ Animation.source_blitted s' tex
    /\ accumulator_reset s'.
Proof. exact (loadImage_uploads s img day Hs). Qed.

Lemma loadImage_resets_accumulator_witness :
  exists s' tex,
    loadImage (Some Animation.sample_flat_image) 8 Animation.sample_rendered = Resolved s'
    /\ time s' = 0%float
    /\ sourceTexture s' = Some tex
    /\ (tex = Animation.uploaded Animation.sample_flat_image
        \/ (sourceTexture Animation.sample_rendered = Some tex
            /\ lastImageSrc Animation.sample_rendered
               = Some (src Animation.sample_flat_image)
            /\ (currentDay Animation.sample_rendered =? 8)%float = false))
    /\ Animation.source_blitted s' tex
    /\ accumulator_reset s'.
Proof.
  apply (loadImage_resets_accumulator Animation.sample_rendered
           Animation.sample_flat_image 8).
  exact sample_rendered_consistent.
Defined.

(** C9: [setDay] writes [currentDay] and nothing else: the image buffer
    (the feedback accumulator), the source buffer, the map and displace
    buffers, the time accumulator and every other field of the calendar are
    those of the state before. *)
Theorem setDay_frame (s : State) (day : float) :
  currentDay (setDay day s) = day
  /\ fbos (setDay day s) = fbos s
  /\ time (setDay day s) = time s
  /\ sourceTexture (setDay day s) = sourceTexture s
  /\ currentImage (setDay day s) = currentImage s
  /\ lastImageSrc (setDay day s) = lastImageSrc s
  /\ seed (setDay day s) = seed s
  /\ animationId (setDay day s) = animationId s
  /\ width (setDay day s) = width s
  /\ height (setDay day s) = height s
  /\ canvas (setDay day s) = canvas s.
Proof. repeat split. Qed.
End CalendarFacts.

(** ** More on the fragment shaders *)

Module ShaderMore.
Import GLSL.
Local Open Scope R_scope.

Lemma mix_second (a b : R) : mix a b 1 = b.
Proof. unfold mix. ring. Qed.

Lemma smoothstep_range (edge0 edge1 a : R) : 0 <= smoothstep edge0 edge1 a <= 1.
Proof.
  unfold smoothstep.
  pose proof (CalendarFacts.clamp_bounds ((a - edge0) / (edge1 - edge0)) 0 1 ltac:(lra))
    as Ht.
  cbv zeta. set (t := clamp ((a - edge0) / (edge1 - edge0)) 0 1) in *.
  assert (Hsq : 0 <= t * t) by (apply Rmult_le_pos; lra).
  assert (Hco : 0 <= (1 - t) * (1 - t)) by (apply Rmult_le_pos; lra).
  split.
  - apply Rmult_le_pos; lra.
  - assert (H : 0 <= (1 - t) * (1 - t) * (1 + 2 * t)) by (apply Rmult_le_pos; lra).
    replace (t * t * (3 - 2 * t)) with (1 - (1 - t) * (1 - t) * (1 + 2 * t)) by ring.
    lra.
Qed.

(** X1: The blur of a field of one colour is that colour, whatever the
    radius, the position and the resolution. *)
Theorem blur_flat_field (Size : R) (tex : sampler2D) (c : vec4.t) (uv res : vec2.t)
    (Hflat : forall p, tex p = c) :
  blur Size tex uv res = c.
Proof.
  unfold blur.
  rewrite (ShaderFacts.add_directions c) by (intros d i; apply Hflat).
  rewrite Hflat, !length_seq.
  replace (INR (Quality * Directions + 1)) with 49
    by (unfold Quality, Directions; cbn [Nat.mul Nat.add]; rewrite !S_INR; cbn; ring).
  replace (INR Quality) with 3 by (unfold Quality; rewrite !S_INR; cbn; ring).
  replace (INR Directions) with 16 by (unfold Directions; rewrite !S_INR; cbn; ring).
  destruct c. unfold vec4.add, vec4.scale, vec4.map2, vec4.map. cbn.
  f_equal; field.
Qed.

Lemma blur_flat_field_witness :
  blur 32 (flat (vec4.mk 0.5 0.25 0.125 1)) (vec2.mk 0.3 0.9) (vec2.mk 64 64)
  = vec4.mk 0.5 0.25 0.125 1.
Proof.
  apply (blur_flat_field 32 (flat (vec4.mk 0.5 0.25 0.125 1))). intros p. reflexivity.
Defined.

Lemma uv_norm_identity (uv res tex_res : vec2.t) :
  vec2.x res / vec2.y res = vec2.x tex_res / vec2.y tex_res ->
  vec2.x tex_res / vec2.y tex_res <> 0 ->
  uv_norm uv res tex_res = uv.
Proof.
  intros Haspect Hnz. unfold uv_norm. rewrite Haspect.
  set (a := vec2.x tex_res / vec2.y tex_res) in *.
  destruct (Rlt_dec a a) as [H|_]; [lra |].
  destruct uv as [x y]. cbn [vec2.x vec2.y]. f_equal. field. exact Hnz.
Qed.

(** X3: The masks of the displacement map: the hard mask (B) lies in [0, 1],
    and with [mask_weight] in [0, 1] the stored source mask (A) lies in
    [1 - mask_weight, 1], so the compositor lets at most [mask_weight] of
    the clean source through. *)
Theorem map_masks_range (u : MapUniforms) (uv : vec2.t)
    (Hweight : 0 <= mask_weight u <= 1) :
  0 <= vec4.z (mapShader u uv) <= 1
  /\ 1 - mask_weight u <= vec4.w (mapShader u uv) <= 1.
Proof.
  unfold mapShader. cbn [vec4.z vec4.w]. split.
  - apply smoothstep_range.
  - match goal with
    | |- context [smoothstep ?e0 ?e1 ?a] =>
        pose proof (smoothstep_range e0 e1 a) as Hs; set (sm := smoothstep e0 e1 a) in *
    end.
    clearbody sm. unfold mix.
    assert (Hp : 0 <= sm * mask_weight u) by (apply Rmult_le_pos; lra).
    assert (Hq : 0 <= (1 - sm) * mask_weight u) by (apply Rmult_le_pos; lra).
    replace ((1 - sm) * mask_weight u) with (mask_weight u - sm * mask_weight u) in Hq
      by ring.
    replace ((sm * (1 - 0) + 1 * 0) * (1 - (1 - mask_weight u)) + 0 * (1 - mask_weight u))
      with (sm * mask_weight u) by ring.
    split; lra.
Qed.

Lemma map_masks_range_witness :
  let u := {| map_source := flat (vec4.mk 0.2 0.4 0.6 1);
              map_image := flat (vec4.mk 0.2 0.4 0.6 1);
              time := 0; uv_scale := vec3.mk 0.5 0.5 0.2; map_weight := 0.3;
              src_weight := 6; rgb_mix := 0.1; hard_level := 0.2; hard_contrast := 0.98;
              mask_level := 1; mask_contrast := 0.9; mask_weight := 0.8;
              map_res := vec2.mk 64 64; map_blur_size := 0.1; time_scale := 0.005 |} in
  let uv := vec2.mk 0.25 0.75 in
  0 <= vec4.z (mapShader u uv) <= 1
  /\ 1 - mask_weight u <= vec4.w (mapShader u uv) <= 1.
Proof.
  intros u uv. apply (map_masks_range u uv). unfold u. cbn [mask_weight]. lra.
Defined.

(** X4: Where the map's fourth channel is 0 the compositor writes the clean
    source pixel, whatever the displacement weights and the working
    field. *)
Theorem displace_unmasked_is_source (u : DisplaceUniforms) (uv : vec2.t)
    (Hw : vec4.w (map u uv) = 0) :
  displaceShader u uv = source u uv.
Proof.
  unfold displaceShader. rewrite Hw. replace (1 - 0) with 1 by ring.
  destruct (source u uv) as [a b c d]. unfold mix4 at 1, vec4.map2.
  cbn [vec4.x vec4.y vec4.z vec4.w]. f_equal; apply mix_second.
Qed.

Lemma displace_unmasked_is_source_witness :
  let u := {| source := flat (vec4.mk 0.2 0.4 0.6 1);
              image := fun uv => vec4.mk (vec2.x uv) (vec2.y uv) 0 1;
              map := flat (vec4.mk 0.5 0.5 0.5 0);
              res := vec2.mk 64 64;
              hard_weight := 8; soft_weight := 7.5; blur_size := 22 |} in
  displaceShader u (vec2.mk 0.25 0.75) = vec4.mk 0.2 0.4 0.6 1.
Proof.
  intros u. apply (displace_unmasked_is_source u (vec2.mk 0.25 0.75)). reflexivity.
Defined.

(** X5: A field of one colour is a fixed point of the compositor: when the
    working field and the source are both flat [c], every pixel written is
    [c], for any map and any displacement weights. *)
Theorem displace_flat_field (u : DisplaceUniforms) (c : vec4.t) (uv : vec2.t)
    (Himage : forall p, image u p = c) (Hsource : forall p, source u p = c) :
  displaceShader u uv = c.
Proof.
  unfold displaceShader. rewrite !Himage, Hsource, !ShaderFacts.mix4_same. reflexivity.
Qed.

Lemma displace_flat_field_witness :
  let u := {| source := flat (vec4.mk 0.5 0.5 0.5 1);
              image := flat (vec4.mk 0.5 0.5 0.5 1);
              map := fun uv => vec4.mk (vec2.x uv) (vec2.y uv) 0.5 0.25;
              res := vec2.mk 64 64;
              hard_weight := 8; soft_weight := 7.5; blur_size := 22 |} in
  displaceShader u (vec2.mk 0.25 0.75) = vec4.mk 0.5 0.5 0.5 1.
Proof.
  intros u. apply (displace_flat_field u (vec4.mk 0.5 0.5 0.5 1)); intros p; reflexivity.
Defined.
End ShaderMore.

(** ** More on the feedback loop *)

Module CalendarMore.
Import ShaderCalendar Animation CalendarFacts.
Local Open Scope R_scope.

Ltac fields :=
  cbn [with_fbos with_time with_canvas with_animationId with_lastImageSrc time currentDay
       currentImage sourceTexture lastImageSrc width height fbos animationId seed canvas
       FBOs.map FBOs.displace FBOs.source FBOs.image] in *.

(** *** One frame *)

(** [render] on a state whose image and buffers are in place. *)
Lemma render_loaded (s : State) (tex : GL.Texture) (fs fi fm fd : GL.Texture) :
  sourceTexture s = Some tex ->
  fbos s = {| FBOs.source := Some fs; FBOs.image := Some fi; FBOs.map := Some fm;
              FBOs.displace := Some fd |} ->
  GL.tex_width fi = width s -> GL.tex_height fi = height s ->
  GL.tex_width fd = width s -> GL.tex_height fd = height s ->
  exists s' u fm' fi',
    render s = Done s'
    /\ fbos s' = {| FBOs.source := Some fs; FBOs.image := Some fi'; FBOs.map := Some fm';
                    FBOs.displace :=
                      Some (GL.rasterize (GLSL.displaceShader u) (width s) (height s) fd) |}
    /\ GLSL.source u = GL.texture2D fs /\ GLSL.image u = GL.texture2D fi
    /\ GL.tex_width fm' = GL.tex_width fm /\ GL.tex_height fm' = GL.tex_height fm
    /\ GL.tex_width fi' = width s /\ GL.tex_height fi' = height s
    /\ (forall x y, (0 <= x < width s)%Z -> (0 <= y < height s)%Z ->
          GL.texel fi' x y
          = GL.texel (GL.rasterize (GLSL.displaceShader u) (width s) (height s) fd) x y)
    /\ time s' = (time s + 1 / 60)%float
    /\ currentDay s' = currentDay s /\ currentImage s' = currentImage s
    /\ sourceTexture s' = sourceTexture s /\ lastImageSrc s' = lastImageSrc s
    /\ width s' = width s /\ height s' = height s
    /\ animationId s' = animationId s /\ seed s' = seed s.
Proof.
  intros Ht Hf Hiw Hih Hdw Hdh.
  destruct s as [t0 anim day cimg sd last stex w h f cv]. fields. subst stex f.
  unfold render. fields.
  eexists. eexists. eexists. eexists.
  split; [reflexivity |]. unfold draw_canvas. fields.
  split; [reflexivity |].
  split; [reflexivity |]. split; [reflexivity |].
  cbn [GL.rasterize GL.tex_width GL.tex_height].
  split; [reflexivity |]. split; [reflexivity |].
  split; [exact Hiw |]. split; [exact Hih |].
  split; [| repeat split; reflexivity].
  intros x y Hx Hy. unfold blit, sampler, res. fields. subst w h.
  rewrite <- Hdw, <- Hdh in *.
  apply blit_copy; congruence.
Qed.

(** [loadImage] of an image whose [src] is not that of the last one. *)
Lemma loadImage_fresh (s : State) (img : Image) (day : float) :
  lastImageSrc s <> Some (src img) ->
  let size := Z.min (img_width img) (img_height img) in
  exists s' fs fi,
    loadImage (Some img) day s = Resolved s'
    /\ sourceTexture s' = Some (uploaded img)
    /\ width s' = size /\ height s' = size
    /\ fbos s' = {| FBOs.source := Some fs; FBOs.image := Some fi;
                    FBOs.map := Some (GL.blank size size);
                    FBOs.displace := Some (GL.blank size size) |}
    /\ (GL.tex_width fs = size /\ GL.tex_height fs = size)
    /\ (GL.tex_width fi = size /\ GL.tex_height fi = size)
    /\ (forall x y, (0 <= x < size)%Z -> (0 <= y < size)%Z ->
          GL.texel fs x y
          = vec4.map GL.to_unorm8
              (GL.texture2D (uploaded img)
                 (vec2.mk ((IZR x + 0.5) / IZR size) ((IZR y + 0.5) / IZR size))))
    /\ (forall x y, (0 <= x < size)%Z -> (0 <= y < size)%Z ->
          GL.texel fi x y = GL.texel fs x y)
    /\ time s' = 0%float /\ currentDay s' = day /\ currentImage s' = Some img
    /\ lastImageSrc s' = Some (src img) /\ canvas s' = GL.blank size size
    /\ animationId s' = animationId s /\ seed s' = seed s.
Proof.
  intros Hnew size.
  destruct s as [t0 anim day0 cimg sd last stex w h f cv]. fields.
  assert (match last with Some l => String.eqb (src img) l | None => false end = false)
    as Hsame.
  { destruct last as [l|]; [| reflexivity]. apply String.eqb_neq. congruence. }
  unfold loadImage. fields. rewrite Hsame. cbn [andb].
  assert (forall (A : Type) (a : A), (match stex with Some _ => a | None => a end) = a)
    as Hboth by (intros; destruct stex; reflexivity).
  rewrite Hboth.
  unfold createTexture, resizeFramebuffers, initialize. fields.
  fold size. eexists. eexists. eexists.
  split; [reflexivity |]. fields.
  split; [reflexivity |]. split; [reflexivity |]. split; [reflexivity |].
  split; [reflexivity |].
  cbn [GL.rasterize GL.tex_width GL.tex_height GL.blank].
  split; [split; reflexivity |]. split; [split; reflexivity |].
  split; [| split; [| repeat split; reflexivity]].
  - intros x y Hx Hy.
    apply (rasterize_inside _ (GL.blank size size) x y); assumption.
  - intros x y Hx Hy. unfold blit, sampler, res. fields.
    apply (blit_copy _ _ _ (GL.blank size size) (GL.blank size size)); try reflexivity;
      assumption.
Qed.

(** *** The viewport is square *)

Lemma initialize_size (s : State) :
  width (state_of (initialize s)) = width s /\ height (state_of (initialize s)) = height s.
Proof.
  destruct s as [t0 anim day [img|] sd last stex w h [[fs|] [fi|] fm fd] cv];
    split; reflexivity.
Qed.

Lemma render_size (s : State) :
  width (state_of (render s)) = width s /\ height (state_of (render s)) = height s.
Proof.
  destruct s as [t0 anim day img sd last [stex|] w h [[fs|] [fi|] [fm|] [fd|]] cv];
    split; reflexivity.
Qed.

Lemma animate_size (s : State) (id : nat) :
  width (state_of (animate id s)) = width s /\ height (state_of (animate id s)) = height s.
Proof.
  pose proof (render_size s) as H. unfold animate.
  destruct (render s) as [s'|s']; exact H.
Qed.

Lemma loaded_square (s2 : State) (l : option string) :
  width s2 = height s2 ->
  let s' := match match initialize s2 with
                  | Done s3 => Resolved (with_lastImageSrc l s3)
                  | TypeError s3 => Pending s3
                  end with
            | Resolved s | Rejected s | Pending s => s
            end in
  width s' = height s'.
Proof.
  intros H. pose proof (initialize_size s2) as [Hw Hh].
  destruct (initialize s2) as [s3|s3]; cbn [state_of] in *; cbv zeta; fields; congruence.
Qed.

Lemma perform_square (a : Action) (s : State) :
  width s = height s -> width (perform a s) = height (perform a s).
Proof.
  intros H. destruct a as [[img|] day| |day|id| |id]; cbn [perform].
  - unfold loadImage.
    set (s1 := {| time := time s; animationId := animationId s;
                  currentDay := JSNumber.of_int day;
                  currentImage := Some img; seed := seed s; lastImageSrc := lastImageSrc s;
                  sourceTexture := sourceTexture s; width := width s; height := height s;
                  fbos := fbos s; canvas := canvas s |}).
    destruct (sourceTexture s1) as [tex|]; [destruct (_ && _) |];
      apply loaded_square; first [exact H | reflexivity].
  - exact H.
  - destruct (render_size s) as [-> ->]. exact H.
  - exact H.
  - destruct (animate_size s id) as [-> ->]. exact H.
  - exact H.
  - unfold contextRestored. destruct (currentImage (setupFramebuffers s)) as [img|].
    + pose proof (initialize_size (createTexture img (setupFramebuffers s))) as [Hw Hh].
      destruct (initialize (createTexture img (setupFramebuffers s))) as [s3|s3];
        cbn [state_of] in *.
      * destruct (animate_size s3 id) as [-> ->]. rewrite Hw, Hh. reflexivity.
      * rewrite Hw, Hh. reflexivity.
    + exact H.
Qed.

Lemma reachable_square (s : State) : reachable s -> width s = height s.
Proof.
  intros (sd & cv & l & ->).
  assert (width (constructor sd cv) = height (constructor sd cv)) as H0 by reflexivity.
  revert H0. generalize (constructor sd cv).
  induction l as [|a l IH]; intros s H; cbn [fold_left].
  - exact H.
  - apply IH, perform_square, H.
Qed.

(** X2: [uv_norm] returns [uv] unchanged whenever the viewport and the
    texture have the same aspect ratio.  The viewport of the calendar is
    always square ([createTexture] gives it the smaller side of the
    image), so once it is not empty the coordinates [uvn] that the map
    shader of [render] derives from [res = [width, height]] against the
    2048 x 2048 reference are [uv] itself. *)
Theorem uv_norm_same_aspect (uv res tex_res : vec2.t) (s : State)
    (Haspect : (vec2.x res / vec2.y res = vec2.x tex_res / vec2.y tex_res)%R)
    (Hnz : (vec2.x tex_res / vec2.y tex_res <> 0)%R)
    (Hs : reachable s) (Hw : (0 < width s)%Z) :
  GLSL.uv_norm uv res tex_res = uv
  /\ width s = height s
  /\ GLSL.uv_norm uv (ShaderCalendar.res s) (vec2.mk 2048 2048) = uv.
Proof.
  split; [apply ShaderMore.uv_norm_identity; assumption |].
  pose proof (reachable_square s Hs) as Hsq. split; [exact Hsq |].
  assert (0 < IZR (width s)) as Hpos by (apply IZR_lt; exact Hw).
  apply ShaderMore.uv_norm_identity; unfold ShaderCalendar.res; cbn [vec2.x vec2.y];
    rewrite <- ?Hsq.
  - replace (IZR (width s) / IZR (width s)) with 1 by (field; lra). lra.
  - lra.
Qed.

Lemma uv_norm_same_aspect_witness :
  let uv := vec2.mk 0.25 0.75 in
  GLSL.uv_norm uv (vec2.mk 64 32) (vec2.mk 1024 512) = uv
  /\ width sample_loaded = height sample_loaded
  /\ GLSL.uv_norm uv (ShaderCalendar.res sample_loaded) (vec2.mk 2048 2048) = uv.
Proof.
  intros uv.
  apply (uv_norm_same_aspect uv (vec2.mk 64 32) (vec2.mk 1024 512) sample_loaded).
  - cbn [vec2.x vec2.y]. lra.
  - cbn [vec2.x vec2.y]. lra.
  - exists 0.5%float, (GL.blank 300 150), [LoadImage (Some sample_image) 7]. reflexivity.
  - reflexivity.
Defined.

(** *** What a frame leaves alone *)

Lemma frame_consistent (a : Action) (s : State) :
  consistent s -> consistent (perform a s).
Proof. apply perform_consistent. Qed.

Lemma render_source (s : State) :
  consistent s ->
  exists s',
    render s = Done s'
    /\ FBOs.source (fbos s') = FBOs.source (fbos s)
    /\ sourceTexture s' = sourceTexture s /\ currentImage s' = currentImage s
    /\ currentDay s' = currentDay s
    /\ width s' = width s /\ height s' = height s
    /\ ((sourceTexture s = None /\ s' = s)
        \/ (sourceTexture s <> None /\ time s' = (time s + 1 / 60)%float
            /\ copied_back s')).
Proof.
  intros Hs. destruct (sourceTexture s) as [tex|] eqn:Etex.
  - destruct (consistent_loaded s Hs) as (tex' & img & fs & fi & fm & fd & Ht & Hi & Hf & D).
    { congruence. }
    destruct D as (_ & [Hiw Hih] & _ & [Hdw Hdh]).
    destruct (render_loaded s tex' fs fi fm fd Ht Hf Hiw Hih Hdw Hdh)
      as (s' & u & fm' & fi' & E & Hf' & _ & _ & _ & _ & _ & _ & Hcopy & Htime & Hday & Himg
          & Htex & _ & Hw & Hh & _).
    exists s'. split; [exact E |]. rewrite Hf', Hf. cbn [FBOs.source].
    split; [reflexivity |]. split; [congruence |]. split; [exact Himg |].
    split; [exact Hday |]. split; [exact Hw |]. split; [exact Hh |].
    right. split; [discriminate |]. split; [exact Htime |].
    unfold copied_back. rewrite Hf', Hw, Hh. cbn [FBOs.image FBOs.displace].
    eexists. eexists. split; [reflexivity |]. split; [reflexivity |]. exact Hcopy.
  - exists s. unfold render. rewrite Etex. split; [reflexivity |].
    repeat (split; [reflexivity |]). left. split; reflexivity.
Qed.

Lemma frame_source (a : Action) (s : State) :
  consistent s -> frame_action a = true ->
  FBOs.source (fbos (perform a s)) = FBOs.source (fbos s)
  /\ sourceTexture (perform a s) = sourceTexture s
  /\ currentImage (perform a s) = currentImage s
  /\ width (perform a s) = width s /\ height (perform a s) = height s.
Proof.
  intros Hs Ha. destruct a as [decoded day| |day|id| |id]; try discriminate Ha;
    cbn [perform].
  - destruct (render_source s Hs) as (s' & -> & H1 & H2 & H3 & _ & H4 & H5 & _).
    cbn [state_of]. repeat split; assumption.
  - repeat split.
  - unfold animate.
    destruct (render_source s Hs) as (s' & -> & H1 & H2 & H3 & _ & H4 & H5 & _).
    cbn [state_of]. fields. repeat split; assumption.
  - repeat split.
Qed.

(** X6: From the first image on no frame raises: a frame advances the time by
    1/60, leaves the source buffer, the day and the size alone, and ends
    with the displaced field copied back into the image buffer; before the
    first image a frame changes nothing at all. *)
Theorem render_frame (s : State) (Hs : reachable s) :
  exists s',
    render s = Done s'
    /\ FBOs.source (fbos s') = FBOs.source (fbos s)
    /\ currentDay s' = currentDay s
    /\ width s' = width s /\ height s' = height s
    /\ ((sourceTexture s = None /\ s' = s)
        \/ (sourceTexture s <> None /\ time s' = (time s + 1 / 60)%float
            /\ copied_back s')).
Proof.
  destruct (render_source s (reachable_consistent s Hs))
    as (s' & E & H1 & _ & _ & H2 & H3 & H4 & H5).
  exists s'. repeat (split; [assumption |]). exact H5.
Qed.

Lemma render_frame_witness :
  exists s',
    render sample_loaded = Done s'
    /\ FBOs.source (fbos s') = FBOs.source (fbos sample_loaded)
    /\ currentDay s' = currentDay sample_loaded
    /\ width s' = width sample_loaded /\ height s' = height sample_loaded
    /\ ((sourceTexture sample_loaded = None /\ s' = sample_loaded)
        \/ (sourceTexture sample_loaded <> None
            /\ time s' = (time sample_loaded + 1 / 60)%float
            /\ copied_back s')).
Proof.
  apply (render_frame sample_loaded).
  exists 0.5%float, (GL.blank 300 150), [LoadImage (Some sample_image) 7]. reflexivity.
Defined.

(** X7: The clean source is written by [loadImage] and by the restore of the
    context only: over any run of frames, with the day set in between,
    the source buffer, the source texture, the image and the size of the
    viewport stay what they were. *)
Theorem frames_keep_source (s : State) (l : list Action)
    (Hs : reachable s) (Hl : forallb frame_action l = true) :
  FBOs.source (fbos (run l s)) = FBOs.source (fbos s)
  /\ sourceTexture (run l s) = sourceTexture s
  /\ currentImage (run l s) = currentImage s
  /\ width (run l s) = width s /\ height (run l s) = height s.
Proof.
  apply reachable_consistent in Hs. revert s Hs.
  induction l as [|a l IH]; intros s Hs; cbn [run fold_left].
  - repeat split.
  - cbn [forallb] in Hl. apply andb_true_iff in Hl as [Ha Hl].
    destruct (frame_source a s Hs Ha) as (H1 & H2 & H3 & H4 & H5).
    destruct (IH Hl (perform a s) (frame_consistent a s Hs)) as (I1 & I2 & I3 & I4 & I5).
    unfold run in *. repeat split; congruence.
Qed.

Lemma frames_keep_source_witness :
  let l := [Render; SetDay 31; Animate 1; Render; StopAnimation] in
  FBOs.source (fbos (run l sample_loaded)) = FBOs.source (fbos sample_loaded)
  /\ sourceTexture (run l sample_loaded) = sourceTexture sample_loaded
  /\ currentImage (run l sample_loaded) = currentImage sample_loaded
  /\ width (run l sample_loaded) = width sample_loaded
  /\ height (run l sample_loaded) = height sample_loaded.
Proof.
  intros l. apply (frames_keep_source sample_loaded l).
  - exists 0.5%float, (GL.blank 300 150), [LoadImage (Some sample_image) 7]. reflexivity.
  - reflexivity.
Defined.

(** X8: With no image loaded yet (no source texture) the frames of a started
    animation draw nothing and do not advance the time: the canvas, the
    buffers and the time accumulator stay as they were. *)
Theorem frames_before_first_image (s : State) (l : list Action)
    (Hs : sourceTexture s = None) (Hl : forallb frame_action l = true) :
  time (run l s) = time s /\ canvas (run l s) = canvas s /\ fbos (run l s) = fbos s
  /\ sourceTexture (run l s) = None.
Proof.
  revert s Hs. induction l as [|a l IH]; intros s Hs; cbn [run fold_left].
  - repeat split. exact Hs.
  - cbn [forallb] in Hl. apply andb_true_iff in Hl as [Ha Hl].
    assert (time (perform a s) = time s /\ canvas (perform a s) = canvas s
            /\ fbos (perform a s) = fbos s /\ sourceTexture (perform a s) = None)
      as (H1 & H2 & H3 & H4).
    { destruct a as [decoded day| |day|id| |id]; try discriminate Ha;
        cbn [perform]; unfold animate, render; try rewrite Hs; cbn [state_of];
        destruct s; fields; subst; repeat split. }
    destruct (IH Hl (perform a s) H4) as (I1 & I2 & I3 & I4).
    unfold run in *. repeat split; congruence.
Qed.

Lemma frames_before_first_image_witness :
  let s := constructor 0.5 (GL.blank 300 150) in
  let l := [Animate 1; Animate 2; SetDay 5; Render] in
  time (run l s) = time s /\ canvas (run l s) = canvas s /\ fbos (run l s) = fbos s
  /\ sourceTexture (run l s) = None.
Proof.
  intros s l. apply (frames_before_first_image s l); reflexivity.
Defined.

(** *** Loading *)

(** X9: A square image with a new [src] reaches the source buffer and the
    image buffer texel for texel: the texel [(x, y)] of both is the pixel
    [(x, n - 1 - y)] of the image (the rows are flipped), stored in eight
    bits a channel. *)
Theorem square_image_uploaded (s : State) (img : Image) (day : float) (n : Z)
    (Hnew : lastImageSrc s <> Some (src img))
    (Hw : img_width img = n) (Hh : img_height img = n) :
  exists s' fbo_source fbo_image,
    loadImage (Some img) day s = Resolved s'
    /\ width s' = n /\ height s' = n
    /\ FBOs.source (fbos s') = Some fbo_source /\ FBOs.image (fbos s') = Some fbo_image
    /\ forall x y, (0 <= x < n)%Z -> (0 <= y < n)%Z ->
         GL.texel fbo_source x y = vec4.map GL.to_unorm8 (pixel img x (n - 1 - y))
         /\ GL.texel fbo_image x y = vec4.map GL.to_unorm8 (pixel img x (n - 1 - y)).
Proof.
  destruct (loadImage_fresh s img day Hnew)
    as (s' & fs & fi & E & _ & Hsw & Hsh & Hf & _ & _ & Hsrc & Hcopy & _).
  rewrite Hw, Hh, Z.min_id in *.
  exists s', fs, fi. split; [exact E |]. split; [exact Hsw |]. split; [exact Hsh |].
  rewrite Hf. cbn [FBOs.source FBOs.image]. split; [reflexivity |]. split; [reflexivity |].
  intros x y Hx Hy.
  assert (GL.texel fs x y = vec4.map GL.to_unorm8 (pixel img x (n - 1 - y))) as Hfs.
  { rewrite (Hsrc x y Hx Hy).
    pose proof (texture2D_centre (uploaded img) x y) as Hc.
    cbn [uploaded GL.tex_width GL.tex_height GL.texel] in Hc. rewrite Hw, Hh in Hc.
    rewrite Hc by assumption. reflexivity. }
  split; [exact Hfs |]. rewrite (Hcopy x y Hx Hy). exact Hfs.
Qed.

Lemma square_image_uploaded_witness :
  exists s' fbo_source fbo_image,
    loadImage (Some sample_image) 7 (constructor 0.5 (GL.blank 300 150)) = Resolved s'
    /\ width s' = 2%Z /\ height s' = 2%Z
    /\ FBOs.source (fbos s') = Some fbo_source /\ FBOs.image (fbos s') = Some fbo_image
    /\ forall x y, (0 <= x < 2)%Z -> (0 <= y < 2)%Z ->
         GL.texel fbo_source x y = vec4.map GL.to_unorm8 (pixel sample_image x (2 - 1 - y))
         /\ GL.texel fbo_image x y
            = vec4.map GL.to_unorm8 (pixel sample_image x (2 - 1 - y)).
Proof.
  apply (square_image_uploaded (constructor 0.5 (GL.blank 300 150)) sample_image 7 2).
  - discriminate.
  - reflexivity.
  - reflexivity.
Defined.

(** X10: The image of the last load arriving again for another day is not
    uploaded again: the source texture, the size and the map and displace
    buffers are kept, and only the time and the accumulator are reset. *)
Theorem loadImage_same_src (s : State) (img : Image) (day : float)
    (Hs : reachable s) (Hloaded : sourceTexture s <> None)
    (Hsrc : lastImageSrc s = Some (src img))
    (Hday : (currentDay s =? day)%float = false) :
  exists s',
    loadImage (Some img) day s = Resolved s'
    /\ sourceTexture s' = sourceTexture s
    /\ width s' = width s /\ height s' = height s
    /\ FBOs.map (fbos s') = FBOs.map (fbos s)
    /\ FBOs.displace (fbos s') = FBOs.displace (fbos s)
    /\ time s' = 0%float /\ currentDay s' = day /\ accumulator_reset s'.
Proof.
  destruct (consistent_loaded s (reachable_consistent s Hs) Hloaded)
    as (tex & img' & fs & fi & fm & fd & Ht & _ & Hf & [Hsw Hsh] & [Hiw Hih] & _).
  unfold loadImage.
  set (s1 := {| time := time s; animationId := animationId s; currentDay := day;
                currentImage := Some img; seed := seed s; lastImageSrc := lastImageSrc s;
                sourceTexture := sourceTexture s; width := width s; height := height s;
                fbos := fbos s; canvas := canvas s |}).
  change (sourceTexture s1) with (sourceTexture s).
  change (lastImageSrc s1) with (lastImageSrc s).
  rewrite Ht, Hsrc, (String.eqb_refl (src img)), Hday. cbn [negb andb].
  destruct (initialize_resets s1 img fs fi)
    as (s' & -> & Htime & Hr & Hd & _ & Htex & _ & Hw & Hh & Hm & Hdis);
    try assumption; try reflexivity; try (unfold s1; fields; rewrite Hf; reflexivity).
  eexists. split; [reflexivity |]. fields.
  destruct Hr as (fs' & fi' & Hr).
  repeat (split; [first [assumption | rewrite Htex; exact Ht] |]).
  exists fs', fi'. exact Hr.
Qed.

Lemma loadImage_same_src_witness :
  exists s',
    loadImage (Some sample_image) 8 sample_loaded = Resolved s'
    /\ sourceTexture s' = sourceTexture sample_loaded
    /\ width s' = width sample_loaded /\ height s' = height sample_loaded
    /\ FBOs.map (fbos s') = FBOs.map (fbos sample_loaded)
    /\ FBOs.displace (fbos s') = FBOs.displace (fbos sample_loaded)
    /\ time s' = 0%float /\ currentDay s' = 8%float /\ accumulator_reset s'.
Proof.
  apply (loadImage_same_src sample_loaded sample_image 8).
  - exists 0.5%float, (GL.blank 300 150), [LoadImage (Some sample_image) 7]. reflexivity.
  - discriminate.
  - reflexivity.
  - reflexivity.
Defined.

(** X11: When the WebGL context comes back and an image is there, the handler
    uploads it again, rebuilds the four buffers, resets the accumulator and
    restarts the animation, whose first frame is drawn at once: the time
    is one step, the displaced field is in the image buffer and the day is
    the one before.  With no image it only clears the buffers. *)
Theorem context_restored_restarts (s : State) (id : nat) :
  match currentImage s with
  | Some img =>
      exists s',
        contextRestored id s = Done s'
        /\ animationId s' = Some id
        /\ time s' = (0 + 1 / 60)%float
        /\ sourceTexture s' = Some (uploaded img)
        /\ currentDay s' = currentDay s
        /\ copied_back s'
  | None => contextRestored id s = Done (setupFramebuffers s)
  end.
Proof.
  destruct (currentImage s) as [img|] eqn:Ei.
  - unfold contextRestored.
    assert (currentImage (setupFramebuffers s) = Some img) as Ei' by exact Ei.
    rewrite Ei'.
    destruct (initialize_createTexture (setupFramebuffers s) img Ei')
      as (s1 & E1 & Ht & _ & Hc & Hd & Hi).
    assert (sourceTexture s1 = Some (uploaded img)) as Htex.
    { assert (sourceTexture (state_of (initialize (createTexture img (setupFramebuffers s))))
              = Some (uploaded img)) as H.
      { destruct s as [t0 anim day cimg sd last stex w h f cv]. fields. subst cimg.
        reflexivity. }
      rewrite E1 in H. exact H. }
    rewrite E1.
    destruct (render_source s1 Hc)
      as (s2 & Er & _ & Htex2 & _ & Hd2 & _ & _ & [[Hn _]|(_ & Ht2 & Hcopy)]).
    { congruence. }
    change (currentDay (setupFramebuffers s)) with (currentDay s) in Hd.
    unfold animate. rewrite Er. eexists. split; [reflexivity |].
    unfold copied_back in *. fields.
    split; [reflexivity |]. split; [congruence |]. split; [congruence |].
    split; [congruence | exact Hcopy].
  - unfold contextRestored.
    assert (currentImage (setupFramebuffers s) = None) as -> by exact Ei.
    reflexivity.
Qed.

(** *** A field of one colour *)

Lemma clamp_index_range (n i : Z) : (1 <= n)%Z -> (0 <= GL.clamp_index n i < n)%Z.
Proof. unfold GL.clamp_index. lia. Qed.

(** Sampled anywhere, a texture of one colour yields that colour. *)
Lemma texture2D_flat (t : GL.Texture) (c : vec4.t) (uv : vec2.t) :
  (1 <= GL.tex_width t)%Z -> (1 <= GL.tex_height t)%Z -> flat_texture t c ->
  GL.texture2D t uv = c.
Proof.
  intros Hw Hh Hflat.
  assert (forall i j, GL.texel t (GL.clamp_index (GL.tex_width t) i)
                        (GL.clamp_index (GL.tex_height t) j) = c) as Htx.
  { intros i j. apply Hflat; apply clamp_index_range; assumption. }
  unfold GL.texture2D. cbv zeta. rewrite !Htx.
  destruct c as [r g b a].
  unfold GL.weighted, vec4.add, vec4.scale, vec4.map2, vec4.map. cbn.
  f_equal; ring.
Qed.

Lemma render_flat (s : State) (c : vec4.t) :
  vec4.map GL.to_unorm8 c = c -> flat_field s c -> flat_field (state_of (render s)) c.
Proof.
  intros Hc (Hw & Hh & Hne & fs & fi & fm & fd & Hf & [Hsw Hsh] & [Hiw Hih] & [Hmw Hmh]
             & [Hdw Hdh] & Hfs & Hfi).
  destruct (sourceTexture s) as [tex|] eqn:Etex; [| congruence].
  destruct (render_loaded s tex fs fi fm fd Etex Hf Hiw Hih Hdw Hdh)
    as (s' & u & fm' & fi' & -> & Hf' & Hus & Hui & Hmw' & Hmh' & Hiw' & Hih' & Hcopy
        & _ & _ & _ & Htex & _ & Hw' & Hh' & _).
  cbn [state_of]. unfold flat_field. rewrite Hw', Hh', Htex, Hf', Etex.
  split; [exact Hw |]. split; [exact Hh |]. split; [discriminate |].
  do 4 eexists. split; [reflexivity |].
  cbn [GL.rasterize GL.tex_width GL.tex_height].
  split; [split; assumption |]. split; [split; assumption |].
  split; [split; congruence |]. split; [split; assumption |].
  split; [exact Hfs |].
  intros x y Hx Hy. rewrite Hiw' in Hx. rewrite Hih' in Hy. rewrite (Hcopy x y Hx Hy).
  rewrite <- Hdw, <- Hdh in *. rewrite rasterize_inside by assumption.
  unfold GLSL.displaceShader. rewrite Hus, Hui.
  rewrite !(texture2D_flat fi c) by (try assumption; lia).
  rewrite (texture2D_flat fs c) by (try assumption; lia).
  rewrite !ShaderFacts.mix4_same. exact Hc.
Qed.

Lemma flat_same (s s' : State) (c : vec4.t) :
  sourceTexture s' = sourceTexture s -> fbos s' = fbos s ->
  width s' = width s -> height s' = height s ->
  flat_field s c -> flat_field s' c.
Proof. unfold flat_field. intros -> -> -> ->. tauto. Qed.

Lemma frame_flat (a : Action) (s : State) (c : vec4.t) :
  frame_action a = true -> vec4.map GL.to_unorm8 c = c ->
  flat_field s c -> flat_field (perform a s) c.
Proof.
  intros Ha Hc Hs. destruct a as [decoded day| |day|id| |id]; try discriminate Ha;
    cbn [perform].
  - apply render_flat; assumption.
  - eapply flat_same; [.. | exact Hs]; reflexivity.
  - pose proof (render_flat s c Hc Hs) as Hr. unfold animate.
    destruct (render s) as [s'|s']; cbn [state_of] in *; [| exact Hr].
    eapply flat_same; [.. | exact Hr]; reflexivity.
  - eapply flat_same; [.. | exact Hs]; reflexivity.
Qed.

(** X12: An image of one colour is a fixed point of the feedback loop: once it
    is loaded, the source and image buffers hold that colour (as stored in
    eight bits a channel) at every texel, and no number of frames, on
    whatever days, changes that. *)
Theorem flat_image_fixed_point (s : State) (img : Image) (p : vec4.t) (day : float)
    (l : list Action)
    (Hnew : lastImageSrc s <> Some (src img))
    (Hw : (1 <= img_width img)%Z) (Hh : (1 <= img_height img)%Z)
    (Hflat : flat_image img p)
    (Hl : forallb frame_action l = true) :
  exists s',
    loadImage (Some img) day s = Resolved s'
    /\ flat_field (run l s') (vec4.map GL.to_unorm8 p).
Proof.
  destruct (loadImage_fresh s img day Hnew)
    as (s' & fs & fi & E & Htex & Hsw & Hsh & Hf & [Hfw Hfh] & [Hiw Hih] & Hsrc & Hcopy
        & _).
  exists s'. split; [exact E |].
  assert (flat_field s' (vec4.map GL.to_unorm8 p)) as H0.
  { unfold flat_field. rewrite Hsw, Hsh, Htex, Hf.
    split; [lia |]. split; [lia |]. split; [discriminate |].
    do 4 eexists. split; [reflexivity |].
    split; [split; assumption |]. split; [split; assumption |].
    split; [split; reflexivity |]. split; [split; reflexivity |].
    assert (flat_texture fs (vec4.map GL.to_unorm8 p)) as Hfs.
    { intros x y Hx Hy. rewrite Hfw in Hx. rewrite Hfh in Hy. rewrite (Hsrc x y Hx Hy).
      rewrite (texture2D_flat (uploaded img) p); [reflexivity | exact Hw | exact Hh |].
      intros i j Hi Hj. cbn [uploaded GL.tex_width GL.tex_height GL.texel] in *.
      apply Hflat; lia. }
    split; [exact Hfs |].
    intros x y Hx Hy. rewrite Hiw in Hx. rewrite Hih in Hy. rewrite (Hcopy x y Hx Hy).
    apply Hfs; lia. }
  clear - H0 Hl. revert s' H0.
  induction l as [|a l IH]; intros s' H0; cbn [run fold_left].
  - exact H0.
  - cbn [forallb] in Hl. apply andb_true_iff in Hl as [Ha Hl].
    apply (IH Hl).
    apply frame_flat; [exact Ha | apply stored_twice | exact H0].
Qed.

Lemma flat_image_fixed_point_witness :
  exists s',
    loadImage (Some sample_flat_image) 3 (constructor 0.5 (GL.blank 300 150)) = Resolved s'
    /\ flat_field (run [Render; SetDay 31; Animate 1; Render] s')
         (vec4.map GL.to_unorm8 (vec4.mk 0.5 0.5 0.5 1)).
Proof.
  apply (flat_image_fixed_point (constructor 0.5 (GL.blank 300 150)) sample_flat_image
           (vec4.mk 0.5 0.5 0.5 1) 3 [Render; SetDay 31; Animate 1; Render]).
  - discriminate.
  - cbn. lia.
  - cbn. lia.
  - intros x y _ _. reflexivity.
  - reflexivity.
Defined.
End CalendarMore.

(** ** More on the sound engine *)

Module SoundMore.
Import JSNumber Curve DementiaSound Playing SoundFacts.
Local Open Scope float_scope.

Lemma three : of_nat 3 = 3.
Proof. reflexivity. Qed.

(** *** The statements of the methods, run *)

Lemma init_run (m : Machine) (ctx : AudioContext.t) :
  truthy (this m !! "audioContext") = false ->
  init (Some ctx) m =
    (Normal tt,
     with_this
       (fun t =>
          <["reverbGain" := VGain Gain.create]>
          (<["reverbNode" :=
              VConvolver {| Convolver.buffer :=
                              Some {| Convolver.numberOfChannels := 2;
                                      Convolver.length := AudioContext.sampleRate ctx * 3;
                                      Convolver.sampleRate := AudioContext.sampleRate ctx |} |}]>
          (<["masterGain" := VGain (Gain.update (AudioParam.set_value 0.2) Gain.create)]>
          (<["audioContext" := VContext (AudioContext.resume ctx)]> t)))) m).
Proof.
  intros Hc. unfold init. exec. rewrite Hc. unfold try_catch.
  destruct ctx as [[] time rate]; cbn [AudioContext.state]; unfold createReverb; exec;
    finish;
    unfold with_this, AudioContext.resume; cbn [this melodyVoices timers frames draws
      AudioContext.state AudioContext.currentTime AudioContext.sampleRate];
    rewrite ?insert_insert_eq;
    rewrite (insert_insert_ne _ "reverbNode" "reverbGain") by done;
    rewrite ?insert_insert_eq; reflexivity.
Qed.

(** X13: [init] raises nothing, whatever the platform does and whatever the
    state of the instance; when no audio context can be had the instance is
    left as it was. *)
Theorem init_never_throws (m : Machine) (platform : option AudioContext.t) :
  fst (init platform m) = Normal tt /\ snd (init None m) = m.
Proof.
  split.
  - unfold init. exec. destruct (truthy (this m !! "audioContext")) eqn:Hc;
      [reflexivity |].
    destruct platform as [ctx|]; [| reflexivity].
    pose proof (init_run m ctx Hc) as E. unfold init in E. revert E. exec.
    rewrite Hc. intros ->. reflexivity.
  - unfold init. exec. destruct (truthy (this m !! "audioContext")); reflexivity.
Qed.

(** X14: The first [init] that obtains an audio context leaves it running
    and creates the master gain at 0.2, the convolver with a two-channel
    impulse response of three seconds, and the reverb gain; it writes
    nothing else, and every later [init] changes nothing. *)
Theorem init_creates_nodes (m : Machine) (ctx : AudioContext.t)
    (platform : option AudioContext.t)
    (Hc : truthy (this m !! "audioContext") = false) :
  let m' := snd (init (Some ctx) m) in
  this m' !! "audioContext" = Some (VContext (AudioContext.resume ctx))
  /\ this m' !! "masterGain"
     = Some (VGain (Gain.update (AudioParam.set_value 0.2) Gain.create))
  /\ this m' !! "reverbNode"
     = Some (VConvolver
               {| Convolver.buffer :=
                    Some {| Convolver.numberOfChannels := 2;
                            Convolver.length := AudioContext.sampleRate ctx * 3;
                            Convolver.sampleRate := AudioContext.sampleRate ctx |} |})
  /\ this m' !! "reverbGain" = Some (VGain Gain.create)
  /\ (forall k, k <> "audioContext" -> k <> "masterGain" -> k <> "reverbNode" ->
                k <> "reverbGain" -> this m' !! k = this m !! k)
  /\ (melodyVoices m', timers m', frames m', draws m')
     = (melodyVoices m, timers m, frames m, draws m)
  /\ init platform m' = (Normal tt, m').
Proof.
  intros m'. subst m'. rewrite (init_run m ctx Hc). cbn [snd]. look.
  repeat (split; [reflexivity |]).
  split; [| split; [reflexivity |]].
  - intros k H1 H2 H3 H4. rewrite !lookup_insert_ne by congruence. reflexivity.
  - unfold init. exec. reflexivity.
Qed.

Lemma bind_normal {A B} (c : M A) (f : A -> M B) (m m' : Machine) (a : A) :
  c m = (Normal a, m') -> bind c f m = f a m'.
Proof. intros E. unfold bind. rewrite E. reflexivity. Qed.

Lemma playNote_run (params : SoundParams) (time : float) (i : nat) (m : Machine)
    (freq duration : float) (g : Gain.t) (rn : Convolver.t) :
  this m !! "isPlaying" = Some (VBool true) ->
  this m !! "melodyNotes" = Some melodyNotes ->
  note_at i = Some (VNote freq duration) ->
  this m !! "masterGain" = Some (VGain g) ->
  this m !! "reverbNode" = Some (VConvolver rn) ->
  playNote params time i m =
    (Normal tt,
     {| this := this m;
        melodyVoices :=
          melodyVoices m ++ [noteVoice params time freq (duration * playbackRate params)];
        timers := timers m ++ [nextTimer params time i duration];
        frames := frames m; draws := draws m |}).
Proof.
  intros Hp Hn Hi Hg Hrn. unfold playNote. exec.
  unfold melodyNotes in *. exec. unfold note_at, melodyNotes in Hi. rewrite Hi. exec.
  unfold setTimeout. reflexivity.
Qed.

Lemma stop_run (m : Machine) (c : AudioContext.t) (d1 d2 d3 : OscData) :
  this m !! "isPlaying" = Some (VBool true) ->
  this m !! "audioContext" = Some (VContext c) ->
  this m !! "oscillators" = Some (VArray [VVoice d1; VVoice d2; VVoice d3]) ->
  this m !! "noiseNode" = Some VNull ->
  stop m =
    (Normal tt,
     with_this (fun t => <["isPlaying" := VBool false]> (<["oscillators" := VArray []]> t))
       m).
Proof.
  intros Hp Hc Ho Hn. unfold stop. exec. finish.
  unfold with_this. cbn [this melodyVoices timers frames draws].
  rewrite !insert_insert_eq. reflexivity.
Qed.

Section Platform.
Variable Math_sin : float -> float.
Variable Math_random : nat -> float.

Lemma modulate_run (m : Machine) (c : AudioContext.t) (day : float)
    (d1 d2 d3 : OscData) :
  this m !! "isPlaying" = Some (VBool true) ->
  this m !! "currentDay" = Some (VNum day) ->
  this m !! "audioContext" = Some (VContext c) ->
  this m !! "oscillators" = Some (VArray [VVoice d1; VVoice d2; VVoice d3]) ->
  modulate Math_sin m =
    (Normal tt,
     {| this :=
          <["oscillators" :=
              VArray (List.map
                        (fun d => VVoice (drifted Math_sin (getSoundParams day)
                                            (AudioContext.currentTime c) d))
                        [d1; d2; d3])]>
            (this m);
        melodyVoices := melodyVoices m; timers := timers m; frames := S (frames m);
        draws := draws m |}).
Proof.
  intros Hp Hd Hc Ho. unfold modulate. exec. unfold requestAnimationFrame.
  unfold with_this. cbn [this melodyVoices timers frames draws].
  rewrite !insert_insert_eq. reflexivity.
Qed.
Lemma pads_run (params : SoundParams) (now : float) (m : Machine)
    (g : Gain.t) (rn : Convolver.t) :
  this m !! "padFrequencies" = Some padFrequencies ->
  this m !! "masterGain" = Some (VGain g) ->
  this m !! "reverbNode" = Some (VConvolver rn) ->
  this m !! "oscillators" = Some (VArray []) ->
  forall {B} (f : unit -> M B),
  bind (forEach (createPad Math_random params now)
          [VNum 130.81; VNum 164.81; VNum 196.00] 0) f m =
    f tt
      {| this :=
           <["oscillators" :=
               VArray [VVoice (padVoice params now 3 130.81 (Math_random (draws m)));
                       VVoice (padVoice params now 3 164.81 (Math_random (1 + draws m)));
                       VVoice (padVoice params now 3 196 (Math_random (2 + draws m)))]]>
             (this m);
         melodyVoices := melodyVoices m; timers := timers m; frames := frames m;
         draws := 3 + draws m |}.
Proof.
  intros Hp Hg Hrn Ho B f. unfold padFrequencies in Hp. exec. unfold createPad. exec.
  cbn [List.length]. rewrite !three.
  unfold with_this. cbn [this melodyVoices timers frames draws].
  rewrite !insert_insert_eq. reflexivity.
Qed.

Lemma playMelody_run (params : SoundParams) (m : Machine) (c : AudioContext.t)
    (g : Gain.t) (rn : Convolver.t) :
  this m !! "isPlaying" = Some (VBool true) ->
  this m !! "audioContext" = Some (VContext c) ->
  this m !! "melodyNotes" = Some melodyNotes ->
  this m !! "masterGain" = Some (VGain g) ->
  this m !! "reverbNode" = Some (VConvolver rn) ->
  playMelody params m =
    (Normal tt,
     {| this := this m;
        melodyVoices :=
          melodyVoices m
          ++ [noteVoice params (AudioContext.currentTime c + 1.0) 261.63
                (2.0 * playbackRate params)];
        timers :=
          timers m ++ [nextTimer params (AudioContext.currentTime c + 1.0) 0 2.0];
        frames := frames m; draws := draws m |}).
Proof.
  intros Hp Hc Hn Hg Hrn. unfold playMelody. exec.
  apply (playNote_run params _ 0 m 261.63 2.0 g rn); try assumption. reflexivity.
Qed.

Lemma start_run (m : Machine) (day : float) (c : AudioContext.t)
    (g : Gain.t) (rn : Convolver.t) :
  this m !! "isPlaying" = Some (VBool false) ->
  this m !! "audioContext" = Some (VContext c) ->
  this m !! "padFrequencies" = Some padFrequencies ->
  this m !! "melodyNotes" = Some melodyNotes ->
  this m !! "masterGain" = Some (VGain g) ->
  this m !! "reverbNode" = Some (VConvolver rn) ->
  this m !! "oscillators" = Some (VArray []) ->
  let params := getSoundParams day in
  let now := AudioContext.currentTime c in
  let pad freq i :=
    VVoice (drifted Math_sin params now
              (padVoice params now 3 freq (Math_random (i + draws m)))) in
  start Math_sin Math_random day m =
    (Normal tt,
     {| this :=
          <["oscillators" := VArray [pad 130.81 0%nat; pad 164.81 1%nat; pad 196 2%nat]]>
          (<["isPlaying" := VBool true]>
          (<["currentDay" := VNum day]>
          (<["audioContext" := VContext (AudioContext.resume c)]> (this m))));
        melodyVoices :=
          melodyVoices m ++ [noteVoice params (now + 1.0) 261.63 (2.0 * playbackRate params)];
        timers := timers m ++ [nextTimer params (now + 1.0) 0 2.0];
        frames := S (frames m); draws := 3 + draws m |}).
Proof.
  intros Hp Hc Hpf Hn Hg Hrn Ho params now pad. unfold start. exec.
  destruct c as [[] time rate]; cbn [AudioContext.state]; exec.
  all: unfold padFrequencies; cbv beta iota; rewrite run_ret.
  all: rewrite (pads_run _ _ _ g rn) by (look; first [reflexivity | assumption]).
  all: erewrite bind_normal
         by (eapply playMelody_run with (g := g) (rn := rn); look;
             first [reflexivity | assumption]).
  all: unfold startDetuneModulation.
  all: erewrite modulate_run by (look; reflexivity).
  all: unfold AudioContext.resume.
  all: cbn [this melodyVoices timers frames draws AudioContext.currentTime
            AudioContext.sampleRate].
  all: rewrite ?(insert_id (this m) "audioContext" _ Hc).
  all: rewrite !insert_insert_eq; reflexivity.
Qed.


Lemma reachable_playing (m : Machine) :
  reachable Math_sin Math_random m ->
  this m !! "isPlaying" = Some (VBool true) ->
  exists c g rn rg day d1 d2 d3,
    this m !! "audioContext" = Some (VContext c)
    /\ this m !! "masterGain" = Some (VGain g)
    /\ this m !! "reverbNode" = Some (VConvolver rn)
    /\ this m !! "reverbGain" = Some (VGain rg)
    /\ this m !! "currentDay" = Some (VNum day)
    /\ this m !! "oscillators" = Some (VArray [VVoice d1; VVoice d2; VVoice d3]).
Proof.
  intros Hm Hp. apply (reachable_shaped Math_sin Math_random) in Hm.
  destruct Hm as [Hb Hn Hpf Hno [d Hd] (b & ds & Hpl & Ho & Hlen) Hnodes].
  assert (b = true) as -> by congruence.
  destruct (three_voices ds Hlen) as (d1 & d2 & d3 & ->).
  destruct (playing_initialized m Hp Hnodes) as (c & g & rn & rg & Hc & Hg & Hrn & Hrg).
  exists c, g, rn, rg, d, d1, d2, d3. repeat split; assumption.
Qed.

(** X15: [start(day)] for a day from 1 to 31, on an engine that is
    initialized and does not play: the context is running, the day is
    recorded, the three pad voices C3, E3 and G3 are created with the
    parameters of the day, each with its own random phase and with the
    first drift already written to its detune, the first note (C4, two
    beats at the day's rate) sounds one second later, one timeout for the
    second note and one animation frame for the drift are pending. *)
Theorem start_builds_voices (m : Machine) (day : Z) (c : AudioContext.t)
    (Hm : reachable Math_sin Math_random m)
    (Hday : valid_day day = true)
    (Hp : this m !! "isPlaying" = Some (VBool false))
    (Hc : this m !! "audioContext" = Some (VContext c)) :
  let params := getSoundParams (of_int day) in
  let now := AudioContext.currentTime c in
  let pad freq i :=
    VVoice (drifted Math_sin params now
              (padVoice params now 3 freq (Math_random (i + draws m)))) in
  start Math_sin Math_random (of_int day) m =
    (Normal tt,
     {| this :=
          <["oscillators" := VArray [pad 130.81 0%nat; pad 164.81 1%nat; pad 196 2%nat]]>
          (<["isPlaying" := VBool true]>
          (<["currentDay" := VNum (of_int day)]>
          (<["audioContext" := VContext (AudioContext.resume c)]> (this m))));
        melodyVoices :=
          melodyVoices m ++ [noteVoice params (now + 1.0) 261.63 (2.0 * playbackRate params)];
        timers := timers m ++ [nextTimer params (now + 1.0) 0 2.0];
        frames := S (frames m); draws := 3 + draws m |}).
Proof.
  apply (reachable_shaped Math_sin Math_random) in Hm.
  destruct Hm as [Hb Hn Hpf Hno [d Hd] (b & ds & Hpl & Ho & Hlen) Hnodes].
  assert (b = false) as -> by congruence.
  apply no_voices in Hlen. subst ds.
  destruct Hnodes as [(Hc' & _)|(c' & g & rn & rg & _ & Hg & Hrn & _)]; [congruence |].
  apply (start_run m (of_int day) c g rn); assumption.
Qed.

(** X16: Every call of the interface and every callback leaves an engine
    that never obtained an audio context exactly as the constructor made
    it: nothing plays, nothing is scheduled, no error is raised. *)
Theorem engine_without_context_inert (l : list Action)
    (Hl : forallb no_context l = true) :
  perform_all Math_sin Math_random l constructor = constructor
  /\ Forall (fun a => perform Math_sin Math_random a constructor = (Normal tt, constructor))
       l.
Proof.
  induction l as [|a l IH]; [split; [reflexivity | apply List.Forall_nil] |].
  cbn [forallb] in Hl. apply andb_true_iff in Hl as [Ha Hl].
  cbn [perform_all].
  assert (perform Math_sin Math_random a constructor = (Normal tt, constructor)) as E.
  { destruct a as [[ctx|]|day|day| |day|v|k| |time]; try discriminate Ha;
      vm_compute; reflexivity. }
  rewrite E. cbn [snd]. destruct (IH Hl) as [I1 I2].
  split; [exact I1 | apply List.Forall_cons; assumption].
Qed.

(** X17: [stop] on a playing engine empties [oscillators] and clears
    [isPlaying], and that is all it writes: the timeouts of the melody and
    the animation frame of the drift stay pending.  On an engine that does
    not play it does nothing. *)
Theorem stop_leaves_callbacks (m : Machine) (Hm : reachable Math_sin Math_random m) :
  stop m =
    (Normal tt,
     if truthy (this m !! "isPlaying")
     then with_this
            (fun t => <["isPlaying" := VBool false]> (<["oscillators" := VArray []]> t)) m
     else m).
Proof.
  destruct (truthy (this m !! "isPlaying")) eqn:Ep.
  - assert (this m !! "isPlaying" = Some (VBool true)) as Hp.
    { apply (reachable_shaped Math_sin Math_random) in Hm.
      destruct Hm as [_ _ _ _ _ (b & ds & Hpl & _) _]. rewrite Hpl in Ep.
      cbn [truthy] in Ep. congruence. }
    destruct (reachable_playing m Hm Hp)
      as (c & g & rn & rg & day & d1 & d2 & d3 & Hc & _ & _ & _ & _ & Ho).
    apply (reachable_shaped Math_sin Math_random) in Hm.
    apply (stop_run m c d1 d2 d3 Hp Hc Ho (shaped_noiseNode m Hm)).
  - unfold stop. exec. rewrite Ep. reflexivity.
Qed.

(** X18: Once the engine has stopped, a melody timeout that fires plays
    nothing and sets no further timeout, and an animation frame that
    fires requests no further frame: the pending callbacks run out. *)
Theorem callbacks_run_out (m : Machine) (k : nat)
    (Hp : this m !! "isPlaying" = Some (VBool false)) :
  timer_fires k m =
    (Normal tt,
     {| this := this m; melodyVoices := melodyVoices m;
        timers := without k (timers m); frames := frames m; draws := draws m |})
  /\ frame_fires Math_sin m =
       (Normal tt,
        {| this := this m; melodyVoices := melodyVoices m; timers := timers m;
           frames := Nat.pred (frames m); draws := draws m |}).
Proof.
  split.
  - unfold timer_fires, without. destruct (timers m !! k) as [t|] eqn:Et.
    + unfold playNote. exec. reflexivity.
    + apply lookup_ge_None_1 in Et.
      rewrite take_ge by exact Et. rewrite drop_ge by lia. rewrite app_nil_r.
      destruct m; reflexivity.
  - unfold frame_fires. destruct (frames m) as [|n] eqn:Ef.
    + destruct m; cbn in *; subst; reflexivity.
    + unfold modulate. exec. reflexivity.
Qed.

(** X19: While the engine plays, a melody timeout that fires plays the note
    it was set for and sets the timeout of the next one, around the eight
    notes; the note is shaped by the parameters its melody was started
    with, whatever the day the engine has been given since. *)
Theorem melody_step (m : Machine) (k : nat) (t : Timer) (freq duration : float)
    (Hm : reachable Math_sin Math_random m)
    (Hp : this m !! "isPlaying" = Some (VBool true))
    (Ht : timers m !! k = Some t)
    (Hn : note_at (nextNoteIndex t) = Some (VNote freq duration)) :
  timer_fires k m =
    (Normal tt,
     {| this := this m;
        melodyVoices :=
          melodyVoices m
          ++ [noteVoice (melodyParams t) (melodyTime t) freq
                (duration * playbackRate (melodyParams t))];
        timers :=
          without k (timers m)
          ++ [nextTimer (melodyParams t) (melodyTime t) (nextNoteIndex t) duration];
        frames := frames m; draws := draws m |}).
Proof.
  destruct (reachable_playing m Hm Hp)
    as (c & g & rn & rg & day & d1 & d2 & d3 & _ & Hg & Hrn & _).
  apply (reachable_shaped Math_sin Math_random) in Hm.
  unfold timer_fires. rewrite Ht.
  rewrite (playNote_run (melodyParams t) (melodyTime t) (nextNoteIndex t) _ freq duration
             g rn)
    by (cbn [this]; first [assumption | apply (shaped_melodyNotes _ Hm)]).
  reflexivity.
Qed.

(** X20: While the engine plays, an animation frame that fires writes to the
    detune of each of the three pad voices the drift
    [sin(time * detuneSpeed + detuneOffset) * detuneAmount] of the current
    day, touches nothing else, and requests the next frame. *)
Theorem frame_step (m : Machine) (n : nat)
    (Hm : reachable Math_sin Math_random m)
    (Hp : this m !! "isPlaying" = Some (VBool true))
    (Hf : frames m = S n) :
  exists c day d1 d2 d3,
    this m !! "audioContext" = Some (VContext c)
    /\ this m !! "currentDay" = Some (VNum day)
    /\ this m !! "oscillators" = Some (VArray [VVoice d1; VVoice d2; VVoice d3])
    /\ frame_fires Math_sin m =
         (Normal tt,
          {| this :=
               <["oscillators" :=
                   VArray (List.map
                             (fun d => VVoice (drifted Math_sin (getSoundParams day)
                                                 (AudioContext.currentTime c) d))
                             [d1; d2; d3])]>
                 (this m);
             melodyVoices := melodyVoices m; timers := timers m; frames := S n;
             draws := draws m |}).
Proof.
  destruct (reachable_playing m Hm Hp)
    as (c & g & rn & rg & day & d1 & d2 & d3 & Hc & _ & _ & _ & Hd & Ho).
  exists c, day, d1, d2, d3. repeat (split; [assumption |]).
  unfold frame_fires. rewrite Hf.
  rewrite (modulate_run _ c day d1 d2 d3) by (cbn [this]; assumption).
  reflexivity.
Qed.

(** X21: Stopping and starting again, for a day from 1 to 31, leaves the
    timeouts of the old melody pending beside the timeout of the new one,
    and one more animation frame requested: with the engine playing again
    the old loops go on, so each restart adds a melody and a drift loop. *)
Theorem restart_adds_loops (m : Machine) (day : Z)
    (Hm : reachable Math_sin Math_random m)
    (Hday : valid_day day = true)
    (Hp : this m !! "isPlaying" = Some (VBool true)) :
  let m' := perform_all Math_sin Math_random [Stop; Start day] m in
  exists t,
    timers m' = timers m ++ [t]
    /\ nextNoteIndex t = 1%nat
    /\ frames m' = S (frames m)
    /\ this m' !! "isPlaying" = Some (VBool true).
Proof.
  destruct (reachable_playing m Hm Hp)
    as (c & g & rn & rg & d & d1 & d2 & d3 & Hc & Hg & Hrn & _ & _ & Ho).
  apply (reachable_shaped Math_sin Math_random) in Hm.
  cbn [perform_all perform].
  rewrite (stop_run m c d1 d2 d3 Hp Hc Ho (shaped_noiseNode m Hm)). cbn [snd].
  rewrite (start_run _ (of_int day) c g rn);
    try (look; first [reflexivity | assumption
                     | apply (shaped_padFrequencies m Hm)
                     | apply (shaped_melodyNotes m Hm)]).
  cbn [snd this melodyVoices timers frames draws with_this].
  eexists. split; [reflexivity |]. split; [reflexivity |]. split; [reflexivity |].
  look. reflexivity.
Qed.

Lemma updateDay_cases (m : Machine) (day : float) :
  shaped m ->
  (negb (truthy (this m !! "isPlaying"))
   || strict_equal_num day (this m !! "currentDay") = true
   /\ updateDay day m = (Normal tt, m))
  \/ (truthy (this m !! "isPlaying") = true
      /\ strict_equal_num day (this m !! "currentDay") = false
      /\ fst (updateDay day m) = Throw TypeError
      /\ this (snd (updateDay day m)) !! "currentDay" = Some (VNum day)
      /\ timers (snd (updateDay day m)) = timers m).
Proof.
  intros Hm.
  destruct (negb (truthy (this m !! "isPlaying"))
            || strict_equal_num day (this m !! "currentDay")) eqn:E.
  - left. split; [reflexivity |]. unfold updateDay. exec. rewrite E. reflexivity.
  - right. apply orb_false_iff in E as [Ep Ed]. apply negb_false_iff in Ep.
    pose proof Hm as [Hb _ _ _ _ (b & ds & Hpl & Ho & Hlen) Hnodes].
    assert (b = true) as ->
      by (rewrite Hpl in Ep; cbn [truthy] in Ep; exact Ep).
    destruct (three_voices ds Hlen) as (d1 & d2 & d3 & ->).
    destruct (playing_initialized m Hpl Hnodes) as (c & g & rn & rg & Hc & _).
    rewrite (updateDay_throws m day c d1 _ Hpl Ed Hc Ho Hb).
    cbn [fst snd]. look. repeat split; assumption.
Qed.

(** X22: [updateDay] returns normally exactly when the engine does not play
    or already has the day, and then it has changed nothing; in every other
    case it raises a [TypeError], with the new day already recorded. *)
Theorem updateDay_outcome (m : Machine) (day : float)
    (Hm : reachable Math_sin Math_random m) :
  let idle :=
    negb (truthy (this m !! "isPlaying"))
    || strict_equal_num day (this m !! "currentDay") in
  fst (updateDay day m) = (if idle then Normal tt else Throw TypeError)
  /\ (if idle then snd (updateDay day m) = m
      else this (snd (updateDay day m)) !! "currentDay" = Some (VNum day)).
Proof.
  cbv zeta. apply (reachable_shaped Math_sin Math_random) in Hm.
  destruct (updateDay_cases m day Hm) as [[-> ->]|(Ep & Ed & Hf & Hd & _)].
  - split; reflexivity.
  - rewrite Ep, Ed. cbn [negb orb]. split; assumption.
Qed.

(** X23: [toggle(day)], for a day from 1 to 31, raises nothing and flips
    [isPlaying], except on an engine without an audio context, which it
    leaves stopped. *)
Theorem toggle_flips (m : Machine) (day : Z)
    (Hm : reachable Math_sin Math_random m)
    (Hday : valid_day day = true) :
  exists b,
    this m !! "isPlaying" = Some (VBool b)
    /\ fst (toggle Math_sin Math_random (of_int day) m) = Normal tt
    /\ this (snd (toggle Math_sin Math_random (of_int day) m)) !! "isPlaying"
       = Some (VBool (negb b && truthy (this m !! "audioContext"))).
Proof.
  apply (reachable_shaped Math_sin Math_random) in Hm.
  pose proof Hm as [Hb Hn Hpf Hno [d Hd] (b & ds & Hpl & Ho & Hlen) Hnodes].
  exists b. split; [exact Hpl |]. unfold toggle. exec. destruct b; cbn [negb andb].
  - destruct (three_voices ds Hlen) as (d1 & d2 & d3 & ->).
    destruct (playing_initialized m Hpl Hnodes) as (c & g & rn & rg & Hc & _).
    rewrite (stop_run m c d1 d2 d3 Hpl Hc Ho Hn). cbn [fst snd]. look.
    split; reflexivity.
  - apply no_voices in Hlen. subst ds.
    destruct Hnodes as [(Hc & _)|(c & g & rn & rg & Hc & Hg & Hrn & _)].
    + unfold start. exec. unfold ret. cbn [fst snd]. look. split; reflexivity.
    + rewrite (start_run m (of_int day) c g rn Hpl Hc Hpf Hno Hg Hrn Ho).
      cbn [fst snd]. look. split; reflexivity.
Qed.

(** *** What can go wrong *)

Lemma note_at_in_range (i : nat) :
  (i < 8)%nat -> exists freq duration, note_at i = Some (VNote freq duration).
Proof.
  intros Hi. do 8 (destruct i as [|i]; [do 2 eexists; reflexivity |]). lia.
Qed.

Lemma without_in_range (k : nat) (ts : list Timer) :
  Forall (fun t => (nextNoteIndex t < 8)%nat) ts ->
  Forall (fun t => (nextNoteIndex t < 8)%nat) (without k ts).
Proof.
  intros H. unfold without. apply List.Forall_app. split.
  - apply Forall_take, H.
  - apply Forall_drop, H.
Qed.

Lemma nextTimer_in_range (params : SoundParams) (time : float) (i : nat)
    (duration : float) :
  (nextNoteIndex (nextTimer params time i duration) < 8)%nat.
Proof. cbn [nextTimer nextNoteIndex]. apply Nat.mod_upper_bound. discriminate. Qed.

Lemma shaped_playing (m : Machine) :
  shaped m ->
  (this m !! "isPlaying" = Some (VBool false)
   /\ this m !! "oscillators" = Some (VArray []))
  \/ (this m !! "isPlaying" = Some (VBool true)
      /\ exists c g rn rg d1 d2 d3,
           this m !! "audioContext" = Some (VContext c)
           /\ this m !! "masterGain" = Some (VGain g)
           /\ this m !! "reverbNode" = Some (VConvolver rn)
           /\ this m !! "reverbGain" = Some (VGain rg)
           /\ this m !! "oscillators" = Some (VArray [VVoice d1; VVoice d2; VVoice d3])).
Proof.
  intros [Hb Hn Hpf Hno [d Hd] (b & ds & Hpl & Ho & Hlen) Hnodes]. destruct b.
  - right. split; [exact Hpl |].
    destruct (three_voices ds Hlen) as (d1 & d2 & d3 & ->).
    destruct (playing_initialized m Hpl Hnodes) as (c & g & rn & rg & Hc & Hg & Hrn & Hrg).
    exists c, g, rn, rg, d1, d2, d3. repeat split; assumption.
  - left. apply no_voices in Hlen. subst ds. split; assumption.
Qed.

(** What [updateDay] does to the timeouts, and when it raises. *)
Lemma updateDay_step (m : Machine) (day : float) :
  shaped m ->
  timers (snd (updateDay day m)) = timers m
  /\ (fst (updateDay day m) = Normal tt
      \/ (fst (updateDay day m) = Throw TypeError
          /\ truthy (this m !! "isPlaying") = true
          /\ strict_equal_num day (this m !! "currentDay") = false)).
Proof.
  intros Hm.
  destruct (updateDay_cases m day Hm) as [[_ ->]|(Ep & Ed & Hf & _ & Ht)].
  - split; [reflexivity | left; reflexivity].
  - split; [exact Ht |]. right. repeat split; assumption.
Qed.

Lemma start_step (m : Machine) (day : float) :
  shaped m -> timers_in_range m ->
  timers_in_range (snd (start Math_sin Math_random day m))
  /\ (fst (start Math_sin Math_random day m) = Normal tt
      \/ (fst (start Math_sin Math_random day m) = Throw TypeError
          /\ truthy (this m !! "isPlaying") = true
          /\ strict_equal_num day (this m !! "currentDay") = false)).
Proof.
  intros Hm Ht.
  destruct (shaped_playing m Hm) as [[Hp Ho]|(Hp & _)].
  - destruct (shaped_nodes m Hm) as [(Hc & _)|(c & g & rn & rg & Hc & Hg & Hrn & _)].
    + unfold start. exec. split; [exact Ht | left; reflexivity].
    + rewrite (start_run m day c g rn Hp Hc (shaped_padFrequencies m Hm)
                 (shaped_melodyNotes m Hm) Hg Hrn Ho).
      cbn [fst snd]. split; [| left; reflexivity].
      unfold timers_in_range. cbn [timers]. apply List.Forall_app.
      split; [exact Ht |]. apply List.Forall_cons; [| apply List.Forall_nil].
      apply nextTimer_in_range.
  - assert (start Math_sin Math_random day m = updateDay day m) as ->
      by (unfold start; exec; reflexivity).
    destruct (updateDay_step m day Hm) as [E H]. split; [| exact H].
    unfold timers_in_range. rewrite E. exact Ht.
Qed.

Lemma stop_step (m : Machine) :
  shaped m -> timers (snd (stop m)) = timers m /\ fst (stop m) = Normal tt.
Proof.
  intros Hm.
  destruct (shaped_playing m Hm) as [[Hp Ho]|(Hp & c & g & rn & rg & d1 & d2 & d3 & Hc
                                              & _ & _ & _ & Ho)].
  - unfold stop. exec. split; reflexivity.
  - rewrite (stop_run m c d1 d2 d3 Hp Hc Ho (shaped_noiseNode m Hm)).
    split; reflexivity.
Qed.

Lemma timer_fires_step (m : Machine) (k : nat) :
  shaped m -> timers_in_range m ->
  timers_in_range (snd (timer_fires k m)) /\ fst (timer_fires k m) = Normal tt.
Proof.
  intros Hm Ht. unfold timer_fires. destruct (timers m !! k) as [t|] eqn:Ek.
  2: split; [exact Ht | reflexivity].
  assert (nextNoteIndex t < 8)%nat as Hi.
  { exact (Forall_lookup_1 _ _ _ _ Ht Ek). }
  destruct (note_at_in_range _ Hi) as (freq & duration & Hn).
  destruct (shaped_playing m Hm) as [[Hp Ho]|(Hp & c & g & rn & rg & d1 & d2 & d3 & Hc
                                              & Hg & Hrn & _)].
  - unfold playNote. exec. cbn [fst snd]. split; [| reflexivity].
    apply without_in_range, Ht.
  - rewrite (playNote_run (melodyParams t) (melodyTime t) (nextNoteIndex t) _ freq duration
               g rn)
      by (cbn [this]; first [assumption | apply (shaped_melodyNotes _ Hm)]).
    cbn [fst snd]. split; [| reflexivity].
    unfold timers_in_range. cbn [timers]. apply List.Forall_app. split.
    + apply without_in_range, Ht.
    + apply List.Forall_cons; [apply nextTimer_in_range | apply List.Forall_nil].
Qed.

Lemma frame_fires_step (m : Machine) :
  shaped m ->
  timers (snd (frame_fires Math_sin m)) = timers m
  /\ fst (frame_fires Math_sin m) = Normal tt.
Proof.
  intros Hm. unfold frame_fires. destruct (frames m) as [|n]; [split; reflexivity |].
  destruct (shaped_playing m Hm) as [[Hp Ho]|(Hp & c & g & rn & rg & d1 & d2 & d3 & Hc
                                              & _ & _ & _ & Ho)].
  - unfold modulate. exec. split; reflexivity.
  - destruct (shaped_currentDay m Hm) as [d Hd].
    rewrite (modulate_run _ c d d1 d2 d3) by (cbn [this]; assumption).
    split; reflexivity.
Qed.

Lemma quiet_step (m : Machine) (a : Action) :
  shaped m ->
  match a with
  | Init _ | SetVolume _ | ClockReads _ =>
      timers (snd (perform Math_sin Math_random a m)) = timers m
      /\ fst (perform Math_sin Math_random a m) = Normal tt
  | _ => True
  end.
Proof.
  intros Hm. destruct a as [platform|day|day| |day|v|k| |time]; try exact I;
    cbn [perform].
  - destruct (truthy (this m !! "audioContext")) eqn:Ec.
    + unfold init. exec. rewrite Ec. split; reflexivity.
    + destruct platform as [ctx|].
      * rewrite (init_run m ctx Ec). split; reflexivity.
      * unfold init. exec. rewrite Ec. split; reflexivity.
  - unfold setVolume. exec.
    destruct (shaped_nodes m Hm) as [(_ & Hg & _)|(c & g & rn & rg & _ & Hg & _)];
      exec; finish; split; reflexivity.
  - unfold clock_reads. exec.
    destruct (shaped_nodes m Hm) as [(Hc & _)|(c & g & rn & rg & Hc & _)];
      exec; finish; split; reflexivity.
Qed.

Lemma perform_step (m : Machine) (a : Action) :
  shaped m -> timers_in_range m ->
  timers_in_range (snd (perform Math_sin Math_random a m))
  /\ (fst (perform Math_sin Math_random a m) = Normal tt
      \/ (fst (perform Math_sin Math_random a m) = Throw TypeError
          /\ truthy (this m !! "isPlaying") = true
          /\ exists day,
               reaches_updateDay a = Some day
               /\ strict_equal_num (of_int day) (this m !! "currentDay") = false)).
Proof.
  intros Hm Ht. pose proof (quiet_step m a Hm) as Hq.
  destruct a as [platform|day|day| |day|v|k| |time]; cbn [perform] in *.
  - destruct Hq as [E ->]. unfold timers_in_range. rewrite E. split; [exact Ht | now left].
  - destruct (start_step m (of_int day) Hm Ht) as [H1 [H2|(H2 & H3 & H4)]].
    + split; [exact H1 | now left].
    + split; [exact H1 |]. right. repeat (split; [assumption |]).
      exists day. split; [reflexivity | exact H4].
  - destruct (updateDay_step m (of_int day) Hm) as [E [H2|(H2 & H3 & H4)]].
    + unfold timers_in_range. rewrite E. split; [exact Ht | now left].
    + unfold timers_in_range. rewrite E. split; [exact Ht |].
      right. repeat (split; [assumption |]).
      exists day. split; [reflexivity | exact H4].
  - destruct (stop_step m Hm) as [E ->]. unfold timers_in_range. rewrite E.
    split; [exact Ht | now left].
  - unfold toggle. exec.
    destruct (shaped_playing m Hm) as [[Hp Ho]|(Hp & _)]; exec.
    + destruct (start_step m (of_int day) Hm Ht) as [H1 [H2|(_ & H3 & _)]].
      * split; [exact H1 | now left].
      * rewrite Hp in H3. discriminate H3.
    + destruct (stop_step m Hm) as [E ->]. unfold timers_in_range. rewrite E.
      split; [exact Ht | now left].
  - destruct Hq as [E ->]. unfold timers_in_range. rewrite E. split; [exact Ht | now left].
  - destruct (timer_fires_step m k Hm Ht) as [H1 ->]. split; [exact H1 | now left].
  - destruct (frame_fires_step m Hm) as [E ->]. unfold timers_in_range. rewrite E.
    split; [exact Ht | now left].
  - destruct Hq as [E ->]. unfold timers_in_range. rewrite E. split; [exact Ht | now left].
Qed.

Lemma reachable_in_range (m : Machine) :
  reachable Math_sin Math_random m -> shaped m /\ timers_in_range m.
Proof.
  intros (l & _ & ->).
  assert (shaped constructor /\ timers_in_range constructor) as H0
    by (split; [exact constructor_shaped | apply List.Forall_nil]).
  revert H0. generalize constructor.
  induction l as [|a l IH]; intros m [Hm Ht]; cbn [perform_all].
  - split; assumption.
  - apply IH. split.
    + apply perform_shaped, Hm.
    + apply (perform_step m a Hm Ht).
Qed.

(** X24: The only error the engine raises is the one of [updateDay]: on any
    engine that can arise, a call with arguments it is meant for (a day
    from 1 to 31, a volume that is a number, a finite clock) or a callback
    returns normally unless it is [updateDay(day)], or [start(day)] taken
    as such, on a playing engine with a day other than the current one; a
    timeout that fires always finds its note among the eight. *)
Theorem only_updateDay_throws (m : Machine) (a : Action)
    (Hm : reachable Math_sin Math_random m)
    (Ha : valid a = true) :
  (fst (perform Math_sin Math_random a m) = Normal tt
   \/ (fst (perform Math_sin Math_random a m) = Throw TypeError
       /\ truthy (this m !! "isPlaying") = true
       /\ exists day,
            reaches_updateDay a = Some day
            /\ strict_equal_num (of_int day) (this m !! "currentDay") = false))
  /\ timers_in_range m.
Proof.
  destruct (reachable_in_range m Hm) as [Hs Ht].
  split; [apply (perform_step m a Hs Ht) | exact Ht].
Qed.

(** *** The frequency parameter of the pad oscillators *)

Lemma as_created_drifted (freq : float) (params : SoundParams) (time : float) (d : OscData) :
  as_created freq d -> as_created freq (drifted Math_sin params time d).
Proof. intros H. exact H. Qed.

Lemma as_created_ramped (freq : float) (params : SoundParams) (now : float) (d : OscData) :
  as_created freq d -> as_created freq (ramped params now d).
Proof. intros H. exact H. Qed.

Lemma as_created_padVoice (params : SoundParams) (now n freq r : float) :
  as_created freq (padVoice params now n freq r).
Proof. repeat split. Qed.

Lemma pads_same (m m' : Machine) :
  this m' !! "oscillators" = this m !! "oscillators" -> pads_as_created m -> pads_as_created m'.
Proof. unfold pads_as_created. intros ->. tauto. Qed.

Lemma updateDay_pads (m : Machine) (day : float) :
  shaped m -> pads_as_created m -> pads_as_created (snd (updateDay day m)).
Proof.
  intros Hm Hp.
  destruct (negb (truthy (this m !! "isPlaying"))
            || strict_equal_num day (this m !! "currentDay")) eqn:E.
  - unfold updateDay. exec. rewrite E. exact Hp.
  - apply orb_false_iff in E as [Ep Ed]. apply negb_false_iff in Ep.
    destruct (shaped_playing m Hm) as [[Hpl _]|(Hpl & c & g & rn & rg & d1 & d2 & d3 & Hc
                                                & _ & _ & _ & Ho)].
    { rewrite Hpl in Ep. discriminate Ep. }
    rewrite (updateDay_throws m day c d1 _ Hpl Ed Hc Ho (shaped_baseFrequencies m Hm)).
    cbn [snd]. destruct Hp as [Hp|(e1 & e2 & e3 & Hp & T1 & T2 & T3)]; [congruence |].
    assert (e1 = d1 /\ e2 = d2 /\ e3 = d3) as (-> & -> & ->)
      by (rewrite Hp in Ho; injection Ho as -> -> ->; auto).
    right. do 3 eexists. look. split; [reflexivity |].
    split; [apply as_created_ramped, T1 | split; assumption].
Qed.

Lemma start_pads (m : Machine) (day : float) :
  shaped m -> pads_as_created m -> pads_as_created (snd (start Math_sin Math_random day m)).
Proof.
  intros Hm Hp.
  destruct (shaped_playing m Hm) as [[Hpl Ho]|(Hpl & _)].
  - destruct (shaped_nodes m Hm) as [(Hc & _)|(c & g & rn & rg & Hc & Hg & Hrn & _)].
    + unfold start. exec. exact Hp.
    + rewrite (start_run m day c g rn Hpl Hc (shaped_padFrequencies m Hm)
                 (shaped_melodyNotes m Hm) Hg Hrn Ho).
      cbn [snd]. right. do 3 eexists. look. split; [reflexivity |].
      repeat split.
  - assert (start Math_sin Math_random day m = updateDay day m) as ->
      by (unfold start; exec; reflexivity).
    apply updateDay_pads; assumption.
Qed.

Lemma stop_pads (m : Machine) : shaped m -> pads_as_created (snd (stop m)).
Proof.
  intros Hm.
  destruct (shaped_playing m Hm) as [[Hpl Ho]|(Hpl & c & g & rn & rg & d1 & d2 & d3 & Hc
                                               & _ & _ & _ & Ho)].
  - unfold stop. exec. left. exact Ho.
  - rewrite (stop_run m c d1 d2 d3 Hpl Hc Ho (shaped_noiseNode m Hm)).
    cbn [snd]. left. look. reflexivity.
Qed.

Lemma perform_pads (m : Machine) (a : Action) :
  shaped m -> pads_as_created m -> pads_as_created (snd (perform Math_sin Math_random a m)).
Proof.
  intros Hm Hp. destruct a as [platform|day|day| |day|v|k| |time]; cbn [perform].
  - destruct (truthy (this m !! "audioContext")) eqn:Ec.
    + unfold init. exec. rewrite Ec. exact Hp.
    + destruct platform as [ctx|].
      * rewrite (init_run m ctx Ec). cbn [snd]. eapply pads_same; [| exact Hp].
        look. reflexivity.
      * unfold init. exec. rewrite Ec. exact Hp.
  - apply start_pads; assumption.
  - apply updateDay_pads; assumption.
  - apply stop_pads, Hm.
  - unfold toggle. exec.
    destruct (shaped_playing m Hm) as [[Hpl Ho]|(Hpl & _)]; exec.
    + apply start_pads; assumption.
    + apply stop_pads, Hm.
  - unfold setVolume. exec.
    destruct (shaped_nodes m Hm) as [(_ & Hg & _)|(c & g & rn & rg & _ & Hg & _)];
      exec; finish; cbn [snd]; [exact Hp |].
    eapply pads_same; [| exact Hp]. look. reflexivity.
  - eapply pads_same; [| exact Hp]. unfold timer_fires.
    destruct (timers m !! k) as [t|]; [| reflexivity].
    rewrite playNote_this. reflexivity.
  - unfold frame_fires. destruct (frames m) as [|n]; [exact Hp |].
    destruct (shaped_playing m Hm) as [[Hpl Ho]|(Hpl & c & g & rn & rg & d1 & d2 & d3 & Hc
                                                 & _ & _ & _ & Ho)].
    + unfold modulate. exec. exact Hp.
    + destruct (shaped_currentDay m Hm) as [d Hd].
      rewrite (modulate_run _ c d d1 d2 d3) by (cbn [this]; assumption).
      cbn [snd]. destruct Hp as [Hp|(e1 & e2 & e3 & Hp & T1 & T2 & T3)]; [congruence |].
      assert (e1 = d1 /\ e2 = d2 /\ e3 = d3) as (-> & -> & ->)
        by (rewrite Hp in Ho; injection Ho as -> -> ->; auto).
      right. do 3 eexists. look. cbn [List.map]. split; [reflexivity |].
      repeat split; first [apply T1 | apply T2 | apply T3].
  - unfold clock_reads. exec.
    destruct (shaped_nodes m Hm) as [(Hc & _)|(c & g & rn & rg & Hc & _)];
      exec; finish; cbn [snd]; [exact Hp |].
    eapply pads_same; [| exact Hp]. look. reflexivity.
Qed.

(** X27: No call and no callback writes the frequency parameter of a pad
    oscillator once [start] has set it: on every engine that can arise
    [oscillators] is empty or holds exactly three voices whose oscillator
    is a sine with [frequency.value] 130.81, 164.81 and 196 and nothing
    scheduled on that parameter, with [baseFreq] the same number.  (What
    the day changes of the sounding pitch goes through the vibrato that
    [start] connects to the parameter and through [detune].) *)
Theorem pad_frequency_never_written (m : Machine)
    (Hm : reachable Math_sin Math_random m) :
  pads_as_created m.
Proof.
  destruct Hm as (l & _ & ->).
  assert (shaped constructor /\ pads_as_created constructor) as H0
    by (split; [exact constructor_shaped | left; reflexivity]).
  revert H0. generalize constructor.
  induction l as [|a l IH]; intros m [Hm Hp]; cbn [perform_all].
  - exact Hp.
  - apply IH. split.
    + apply perform_shaped, Hm.
    + apply perform_pads; assumption.
Qed.
End Platform.

(** *** The theorems at work on the sample runs *)

Lemma sample_initialized_reachable :
  reachable sample_sin sample_random sample_initialized.
Proof. exists [Init (Some sample_context)]. split; reflexivity. Qed.

Lemma init_creates_nodes_witness :
  let m' := snd (init (Some sample_context) constructor) in
  this m' !! "audioContext" = Some (VContext (AudioContext.resume sample_context))
  /\ this m' !! "masterGain"
     = Some (VGain (Gain.update (AudioParam.set_value 0.2) Gain.create))
  /\ this m' !! "reverbNode"
     = Some (VConvolver
               {| Convolver.buffer :=
                    Some {| Convolver.numberOfChannels := 2;
                            Convolver.length := AudioContext.sampleRate sample_context * 3;
                            Convolver.sampleRate :=
                              AudioContext.sampleRate sample_context |} |})
  /\ this m' !! "reverbGain" = Some (VGain Gain.create)
  /\ (forall k, k <> "audioContext" -> k <> "masterGain" -> k <> "reverbNode" ->
                k <> "reverbGain" -> this m' !! k = this constructor !! k)
  /\ (melodyVoices m', timers m', frames m', draws m')
     = (melodyVoices constructor, timers constructor, frames constructor,
        draws constructor)
  /\ init None m' = (Normal tt, m').
Proof.
  apply (init_creates_nodes constructor sample_context None). reflexivity.
Defined.

Lemma start_builds_voices_witness :
  let m := sample_initialized in
  let day := 5%Z in
  let c := AudioContext.resume sample_context in
  let params := getSoundParams (of_int day) in
  let now := AudioContext.currentTime c in
  let pad freq i :=
    VVoice (drifted sample_sin params now
              (padVoice params now 3 freq (sample_random (i + draws m)))) in
  start sample_sin sample_random (of_int day) m =
    (Normal tt,
     {| this :=
          <["oscillators" := VArray [pad 130.81 0%nat; pad 164.81 1%nat; pad 196 2%nat]]>
          (<["isPlaying" := VBool true]>
          (<["currentDay" := VNum (of_int day)]>
          (<["audioContext" := VContext (AudioContext.resume c)]> (this m))));
        melodyVoices :=
          melodyVoices m ++ [noteVoice params (now + 1.0) 261.63 (2.0 * playbackRate params)];
        timers := timers m ++ [nextTimer params (now + 1.0) 0 2.0];
        frames := S (frames m); draws := 3 + draws m |}).
Proof.
  intros m day c.
  apply (start_builds_voices sample_sin sample_random m day c).
  - exact sample_initialized_reachable.
  - reflexivity.
  - reflexivity.
  - reflexivity.
Defined.

Lemma engine_without_context_inert_witness :
  let l := [Init None; Start 3; Toggle 3; UpdateDay 4; SetVolume 0.5; Stop;
            TimerFires 0; FrameFires; ClockReads 2] in
  perform_all sample_sin sample_random l constructor = constructor
  /\ Forall (fun a => perform sample_sin sample_random a constructor
                      = (Normal tt, constructor)) l.
Proof.
  intros l. apply (engine_without_context_inert sample_sin sample_random l). reflexivity.
Defined.

Lemma stop_leaves_callbacks_witness :
  stop sample_playing =
    (Normal tt,
     if truthy (this sample_playing !! "isPlaying")
     then with_this
            (fun t => <["isPlaying" := VBool false]> (<["oscillators" := VArray []]> t))
            sample_playing
     else sample_playing).
Proof.
  apply (stop_leaves_callbacks sample_sin sample_random sample_playing).
  exact sample_playing_reachable.
Defined.

Lemma callbacks_run_out_witness :
  let m := snd (stop sample_playing) in
  timer_fires 0 m =
    (Normal tt,
     {| this := this m; melodyVoices := melodyVoices m;
        timers := without 0 (timers m); frames := frames m; draws := draws m |})
  /\ frame_fires sample_sin m =
       (Normal tt,
        {| this := this m; melodyVoices := melodyVoices m; timers := timers m;
           frames := Nat.pred (frames m); draws := draws m |}).
Proof.
  intros m. apply (callbacks_run_out sample_sin m 0). reflexivity.
Defined.

Lemma melody_step_witness :
  let m := sample_playing in
  let t := nextTimer (getSoundParams 1) (0 + 1.0) 0 2.0 in
  timer_fires 0 m =
    (Normal tt,
     {| this := this m;
        melodyVoices :=
          melodyVoices m
          ++ [noteVoice (melodyParams t) (melodyTime t) 329.63
                (1.5 * playbackRate (melodyParams t))];
        timers :=
          without 0 (timers m)
          ++ [nextTimer (melodyParams t) (melodyTime t) (nextNoteIndex t) 1.5];
        frames := frames m; draws := draws m |}).
Proof.
  intros m t.
  apply (melody_step sample_sin sample_random m 0 t 329.63 1.5).
  - exact sample_playing_reachable.
  - reflexivity.
  - reflexivity.
  - reflexivity.
Defined.

Lemma frame_step_witness :
  let m := sample_playing in
  exists c day d1 d2 d3,
    this m !! "audioContext" = Some (VContext c)
    /\ this m !! "currentDay" = Some (VNum day)
    /\ this m !! "oscillators" = Some (VArray [VVoice d1; VVoice d2; VVoice d3])
    /\ frame_fires sample_sin m =
         (Normal tt,
          {| this :=
               <["oscillators" :=
                   VArray (List.map
                             (fun d => VVoice (drifted sample_sin (getSoundParams day)
                                                 (AudioContext.currentTime c) d))
                             [d1; d2; d3])]>
                 (this m);
             melodyVoices := melodyVoices m; timers := timers m; frames := 1;
             draws := draws m |}).
Proof.
  intros m. apply (frame_step sample_sin sample_random m 0).
  - exact sample_playing_reachable.
  - reflexivity.
  - reflexivity.
Defined.

Lemma restart_adds_loops_witness :
  let m' := perform_all sample_sin sample_random [Stop; Start 9] sample_playing in
  exists t,
    timers m' = timers sample_playing ++ [t]
    /\ nextNoteIndex t = 1%nat
    /\ frames m' = S (frames sample_playing)
    /\ this m' !! "isPlaying" = Some (VBool true).
Proof.
  apply (restart_adds_loops sample_sin sample_random sample_playing 9).
  - exact sample_playing_reachable.
  - reflexivity.
  - reflexivity.
Defined.

Lemma updateDay_outcome_witness :
  let m := sample_playing in
  let day := 31 in
  let idle :=
    negb (truthy (this m !! "isPlaying"))
    || strict_equal_num day (this m !! "currentDay") in
  fst (updateDay day m) = (if idle then Normal tt else Throw TypeError)
  /\ (if idle then snd (updateDay day m) = m
      else this (snd (updateDay day m)) !! "currentDay" = Some (VNum day)).
Proof.
  intros m day.
  apply (updateDay_outcome sample_sin sample_random m day).
  exact sample_playing_reachable.
Defined.

Lemma toggle_flips_witness :
  exists b,
    this sample_playing !! "isPlaying" = Some (VBool b)
    /\ fst (toggle sample_sin sample_random (of_int 4) sample_playing) = Normal tt
    /\ this (snd (toggle sample_sin sample_random (of_int 4) sample_playing))
         !! "isPlaying"
       = Some (VBool (negb b && truthy (this sample_playing !! "audioContext"))).
Proof.
  apply (toggle_flips sample_sin sample_random sample_playing 4).
  - exact sample_playing_reachable.
  - reflexivity.
Defined.

Lemma pad_frequency_never_written_witness : pads_as_created sample_playing.
Proof.
  apply (pad_frequency_never_written sample_sin sample_random sample_playing).
  exact sample_playing_reachable.
Defined.

Lemma only_updateDay_throws_witness :
  (fst (perform sample_sin sample_random (TimerFires 0) sample_playing) = Normal tt
   \/ (fst (perform sample_sin sample_random (TimerFires 0) sample_playing) = Throw TypeError
       /\ truthy (this sample_playing !! "isPlaying") = true
       /\ exists day,
            reaches_updateDay (TimerFires 0) = Some day
            /\ strict_equal_num (of_int day) (this sample_playing !! "currentDay") = false))
  /\ timers_in_range sample_playing.
Proof.
  apply (only_updateDay_throws sample_sin sample_random sample_playing (TimerFires 0)).
  - exact sample_playing_reachable.
  - reflexivity.
Defined.
End SoundMore.

(** ** More on the degradation curve *)

Module CurveMore.
Import JSNumber Curve Domain.
Local Open Scope float_scope.

Lemma days_in_domain : forallb in_domain days = true.
Proof. vm_compute. reflexivity. Qed.

(** X25: On every day from 1 to 31 the parameters stay where their consumers
    need them: both contrasts lie strictly between 0 and 1, so the two
    edges of each [smoothstep] of the map shader are apart and in order;
    [rgb_mix] and [mask_weight] are blend weights in [0, 1]; the blur radii
    are not negative; the gains of the sound lie in [0, 1], the cutoff and
    the resonance of the filters are positive, and [playbackRate] is
    positive, so every note has a positive duration. *)
Theorem curve_in_domain (d : Z) (Hd : (1 <= d <= 31)%Z) :
  shader_domain (getParams (of_int d)) = true
  /\ audio_domain (getSoundParams (of_int d)) = true.
Proof.
  pose proof days_in_domain as H. rewrite forallb_forall in H.
  specialize (H d (CurveFacts.in_days d Hd)). unfold in_domain in H.
  apply andb_true_iff in H. exact H.
Qed.

Lemma curve_in_domain_witness :
  shader_domain (getParams (of_int 17)) = true
  /\ audio_domain (getSoundParams (of_int 17)) = true.
Proof. apply (curve_in_domain 17). lia. Defined.
End CurveMore.

(** ** The page *)

Module PageFacts.
Import JSNumber ShaderCalendar Animation CalendarFacts.
Local Open Scope float_scope.

Ltac fields :=
  cbn [with_fbos with_time with_canvas with_animationId with_lastImageSrc time currentDay
       currentImage sourceTexture lastImageSrc width height fbos animationId seed canvas
       FBOs.map FBOs.displace FBOs.source FBOs.image] in *.

Lemma initialize_animationId (s : State) :
  animationId (state_of (initialize s)) = animationId s.
Proof.
  destruct s as [t0 anim day [img|] sd last stex w h [[fs|] [fi|] fm fd] cv];
    reflexivity.
Qed.

Lemma loadImage_animationId (s s' : State) (img : Image) (day : float) :
  loadImage (Some img) day s = Resolved s' -> animationId s' = animationId s.
Proof.
  unfold loadImage.
  set (s1 := {| time := time s; animationId := animationId s; currentDay := day;
                currentImage := Some img; seed := seed s; lastImageSrc := lastImageSrc s;
                sourceTexture := sourceTexture s; width := width s; height := height s;
                fbos := fbos s; canvas := canvas s |}).
  assert (forall s2, animationId s2 = animationId s ->
            forall s', match initialize s2 with
                       | Done s3 => Resolved (with_lastImageSrc (Some (src img)) s3)
                       | TypeError s3 => Pending s3
                       end = Resolved s' -> animationId s' = animationId s) as H.
  { intros s2 E s3 R. pose proof (initialize_animationId s2) as Hi.
    destruct (initialize s2) as [s4|s4]; [| discriminate R].
    injection R as <-. cbn [state_of] in Hi. fields. congruence. }
  destruct (sourceTexture s1) as [tex|];
    [destruct (_ && _) |]; apply H; reflexivity.
Qed.

Section Platform.
Variable Math_sin : float -> float.
Variable Math_random : nat -> float.

(** X26: [displayImage(day)] with an image that decodes always brings the
    picture to the day: the calendar holds the day, the accumulator
    restarts (time 0, or 1/60 when the animation had to be started, which
    draws the first frame at once) and the animation runs.  Its promise is
    fulfilled unless the sound plays on another day: then it is rejected
    by the [TypeError] of [updateDay], after the picture has changed, and
    the engine has recorded the day. *)
Theorem displayImage_outcome (p : Page.t) (img : Image) (id : nat) (day : Z)
    (Hp : Page.reachable Math_sin Math_random p) :
  let r := Page.displayImage (Some img) id day p in
  let s' := Page.shaderCalendar (Page.page_of r) in
  r = (if Page.plays_other_day day p then Page.Rejected else Page.Fulfilled)
        (Page.page_of r)
  /\ currentDay s' = of_int day
  /\ currentImage s' = Some img
  /\ animationId s'
     = Some (match animationId (Page.shaderCalendar p) with Some i => i | None => id end)
  /\ time s'
     = (match animationId (Page.shaderCalendar p) with
        | Some _ => 0
        | None => 0 + 1 / 60
        end)
  /\ match Page.soundSystem p, Page.soundSystem (Page.page_of r) with
     | Some m, Some m' =>
         if Page.plays_other_day day p
         then DementiaSound.this m' !! "currentDay"
              = Some (DementiaSound.VNum (of_int day))
         else m' = m
     | None, None => True
     | _, _ => False
     end.
Proof.
  destruct Hp as [Hs Hm]. destruct p as [s sound]. cbv zeta.
  unfold Page.displayImage, Page.plays_other_day.
  cbn [Page.shaderCalendar Page.soundSystem] in *.
  destruct (loadImage_resets s img (of_int day) (reachable_consistent s Hs))
    as (s1 & E & Ht & _ & Hc & Hd & Hi).
  rewrite E. pose proof (loadImage_animationId s s1 img (of_int day) E) as Ha.
  assert (exists s2,
            match animationId s1 with
            | None => animate id s1
            | Some _ => Done s1
            end = Done s2
            /\ currentDay s2 = of_int day /\ currentImage s2 = Some img
            /\ animationId s2
               = Some (match animationId s with Some i => i | None => id end)
            /\ time s2 = match animationId s with
                         | Some _ => 0
                         | None => 0 + 1 / 60
                         end) as (s2 & -> & Hd2 & Hi2 & Ha2 & Ht2).
  { rewrite Ha. destruct (animationId s) as [i|] eqn:Ea.
    - exists s1. repeat split; first [assumption | congruence].
    - destruct (CalendarMore.render_source s1 Hc)
        as (s2 & Er & _ & _ & Hi2 & Hd2 & _ & _ & [[Hn _]|(_ & Ht2 & _)]).
      + destruct Hc as [[_ Hn']|(Hne & _)]; congruence.
      + unfold animate. rewrite Er. eexists. split; [reflexivity |]. fields.
        repeat split; congruence. }
  destruct sound as [m|]; cbn [Page.page_of Page.shaderCalendar Page.soundSystem].
  2: repeat split; assumption.
  apply (SoundFacts.reachable_shaped Math_sin Math_random) in Hm.
  destruct (SoundMore.updateDay_cases m (of_int day) Hm)
    as [[Eidle Eu]|(Ep & Ed & Hf & Hday & _)].
  - destruct (DementiaSound.truthy (DementiaSound.this m !! "isPlaying")) eqn:Ep.
    + cbn [negb orb] in Eidle. rewrite Eidle, Eu. cbn [negb andb].
      cbn [Page.page_of Page.shaderCalendar Page.soundSystem]. repeat split; assumption.
    + cbn [andb Page.page_of Page.shaderCalendar Page.soundSystem].
      repeat split; assumption.
  - rewrite Ep, Ed. cbn [negb andb].
    destruct (DementiaSound.updateDay (of_int day) m) as [[[]|e] m'];
      cbn [fst snd] in *; [discriminate Hf |].
    cbn [Page.page_of Page.shaderCalendar Page.soundSystem]. repeat split; assumption.
Qed.
End Platform.

Lemma sample_page_reachable :
  Page.reachable DementiaSound.sample_sin DementiaSound.sample_random Page.sample_page.
Proof.
  split.
  - exists 0.5%float, (GL.blank 300 150), [LoadImage (Some sample_image) 7; Animate 1].
    reflexivity.
  - exact SoundFacts.sample_playing_reachable.
Qed.

Lemma displayImage_outcome_witness :
  let p := Page.sample_page in
  let img := sample_flat_image in
  let day := 9%Z in
  let r := Page.displayImage (Some img) 2 day p in
  let s' := Page.shaderCalendar (Page.page_of r) in
  r = (if Page.plays_other_day day p then Page.Rejected else Page.Fulfilled)
        (Page.page_of r)
  /\ currentDay s' = of_int day
  /\ currentImage s' = Some img
  /\ animationId s'
     = Some (match animationId (Page.shaderCalendar p) with Some i => i | None => 2%nat end)
  /\ time s'
     = (match animationId (Page.shaderCalendar p) with
        | Some _ => 0
        | None => 0 + 1 / 60
        end)
  /\ match Page.soundSystem p, Page.soundSystem (Page.page_of r) with
     | Some m, Some m' =>
         if Page.plays_other_day day p
         then DementiaSound.this m' !! "currentDay"
              = Some (DementiaSound.VNum (of_int day))
         else m' = m
     | None, None => True
     | _, _ => False
     end.
Proof.
  intros p img day.
  apply (displayImage_outcome DementiaSound.sample_sin DementiaSound.sample_random p img 2
           day).
  exact sample_page_reachable.
Defined.
End PageFacts.

Module NavigationFacts.
Import Navigation.
Local Open Scope Z_scope.

Lemma init_day (currentDay daysInMonth : Z) (saved : option Z) :
  1 <= currentDay <= daysInMonth -> daysInMonth <= 31 ->
  let p := fst (init currentDay daysInMonth saved) in
  1 <= selectedDay p <= daysInMonth /\ dementiaMaxDay p = Some (selectedDay p)
  /\ snd (init currentDay daysInMonth saved) = selectedDay p.
Proof.
  intros H1 H2. unfold init, updateUI, maxDayReached.
  cbn [selectedDay dementiaMaxDay].
  rewrite Z.ltb_irrefl. cbn [fst snd selectedDay dementiaMaxDay].
  destruct (Z.ltb_spec daysInMonth (Z.max currentDay match saved with
                                                     | Some d => d
                                                     | None => 0
                                                     end)); repeat split; lia.
Qed.

Lemma handle_day (e : Event) (p : t) :
  1 <= selectedDay p <= 31 -> dementiaMaxDay p = Some (selectedDay p) ->
  let p' := fst (handle e p) in
  selectedDay p <= selectedDay p' <= 31
  /\ dementiaMaxDay p' = Some (selectedDay p')
  /\ match snd (handle e p) with
     | Some d => d = selectedDay p'
     | None => p' = p
     end.
Proof.
  intros Hd Hs. destruct e as [|sameMonth requestedDay]; cbn [handle].
  - unfold goToNextDay. destruct (Z.ltb_spec (selectedDay p) 31).
    + unfold shown, updateUI, with_selectedDay, maxDayReached.
      cbn [selectedDay dementiaMaxDay]. rewrite Hs.
      destruct (Z.ltb_spec (selectedDay p) (selectedDay p + 1)); [| lia].
      cbn [fst snd selectedDay dementiaMaxDay]. repeat split; lia.
    + cbn [fst snd]. repeat split; first [lia | assumption].
  - unfold goToDate, maxDayReached. rewrite Hs.
    destruct sameMonth; cbn [andb]; [| cbn [fst snd]; repeat split; first [lia | assumption]].
    destruct (Z.leb_spec (selectedDay p) requestedDay); cbn [andb];
      [| cbn [fst snd]; repeat split; first [lia | assumption]].
    destruct (Z.leb_spec requestedDay 31);
      [| cbn [fst snd]; repeat split; first [lia | assumption]].
    unfold shown, updateUI, with_selectedDay, maxDayReached.
    cbn [selectedDay dementiaMaxDay]. rewrite Hs.
    destruct (Z.ltb_spec (selectedDay p) requestedDay);
      cbn [fst snd selectedDay dementiaMaxDay]; repeat split; try lia.
    f_equal. lia.
Qed.

Lemma reachable_day (p : t) :
  reachable p -> 1 <= selectedDay p <= 31 /\ dementiaMaxDay p = Some (selectedDay p).
Proof.
  intros (currentDay & daysInMonth & saved & events & H1 & H2 & ->).
  destruct (init_day currentDay daysInMonth saved H1 H2) as (Hd & Hs & _).
  assert (1 <= selectedDay (fst (init currentDay daysInMonth saved)) <= 31) as Hd' by lia.
  clear Hd. revert Hd' Hs. generalize (fst (init currentDay daysInMonth saved)).
  induction events as [|e events IH]; intros p Hd Hs; cbn [fold_left].
  - split; assumption.
  - destruct (handle_day e p Hd Hs) as (H3 & H4 & _). apply IH; [lia | exact H4].
Qed.

(** X28: The page never goes back: once [init] has run, on a day inside a
    month of at most 31 days, whatever the visitor does with the next-day
    button and the date picker, the selected day stays within 1 to 31, never
    decreases, is the day handed to [displayImage] whenever an image is
    shown, and is the day stored as the maximum reached. *)
Theorem navigation_never_goes_back (p : t) (e : Event) (Hp : reachable p) :
  let p' := fst (handle e p) in
  1 <= selectedDay p
  /\ selectedDay p <= selectedDay p' <= 31
  /\ dementiaMaxDay p' = Some (selectedDay p')
  /\ match snd (handle e p) with
     | Some d => d = selectedDay p'
     | None => p' = p
     end.
Proof.
  destruct (reachable_day p Hp) as [Hd Hs].
  destruct (handle_day e p Hd Hs) as (H1 & H2 & H3).
  cbv zeta. repeat split; first [lia | assumption].
Qed.

Lemma navigation_never_goes_back_witness :
  let p := fst (handle NextClick (fst (init 12 30 (Some 9)))) in
  let e := DateChange true 20 in
  let p' := fst (handle e p) in
  1 <= selectedDay p
  /\ selectedDay p <= selectedDay p' <= 31
  /\ dementiaMaxDay p' = Some (selectedDay p')
  /\ match snd (handle e p) with
     | Some d => d = selectedDay p'
     | None => p' = p
     end.
Proof.
  intros p e. apply (navigation_never_goes_back p e).
  exists 12, 30, (Some 9), [NextClick]. repeat split; lia.
Defined.
End NavigationFacts.
